(** * Context initialisation of the ovm command line (pkg/cli/setup.go)

    A shallow embedding of [Context], its two entry points [PreSetup] and
    [Setup], and the six provisioning steps they run in error groups,
    together with the parts of the Go standard library the steps call. *)

From Stdlib Require Import ZArith Ascii String List Lia Bool.
From stdpp Require Import base list strings gmap.
Import ListNotations.

Local Open Scope string_scope.
Local Open Scope list_scope.
Local Open Scope Z_scope.

(** ** Go strings

    A Go [string] is a sequence of bytes; it is modelled by [string], whose
    characters are the bytes. *)

Module GoString.

Definition bytes (s : string) : list ascii := list_ascii_of_string s.
Definition of_bytes (l : list ascii) : string := string_of_list_ascii l.

Definition byteZ (a : ascii) : Z := Z.of_N (N_of_ascii a).
Definition Zbyte (z : Z) : ascii := ascii_of_N (Z.to_N (z mod 256)).

(** [strings.HasPrefix]. *)
Fixpoint HasPrefix (s p : string) : bool :=
  match p, s with
  | EmptyString, _ => true
  | String a p', String b s' => if Ascii.eqb a b then HasPrefix s' p' else false
  | String _ _, EmptyString => false
  end.

(** [utf8.RuneSelf]: bytes below it are single-byte runes. *)
Definition RuneSelf : Z := 128.

Definition isASCII (s : string) : bool :=
  forallb (fun a => byteZ a <? RuneSelf) (bytes s).

Definition lowerByte (a : ascii) : ascii :=
  let c := byteZ a in
  if (65 <=? c) && (c <=? 90) then Zbyte (c + 32) else a.

Section ToLower.
(** [strings.Map(unicode.ToLower, s)], the route [strings.ToLower] takes
    for a string that holds a byte outside ASCII.  The Unicode case tables
    are not part of this development. *)
Variable unicodeLower : string -> string.

(** [strings.ToLower]: the ASCII-only route lowers the bytes 'A'..'Z'. *)
Definition ToLower (s : string) : string :=
  if isASCII s then of_bytes (map lowerByte (bytes s)) else unicodeLower s.
End ToLower.

(** The white space of [unicode.IsSpace], as UTF-8 byte sequences: the six
    ASCII bytes, U+0085, U+00A0, U+1680, U+2000..U+200A, U+2028, U+2029,
    U+202F, U+205F and U+3000. *)
Definition spaceWidth (b0 b1 b2 : Z) : nat :=
  if (b0 =? 32) || ((9 <=? b0) && (b0 <=? 13)) then 1%nat
  else if (b0 =? 194) && ((b1 =? 133) || (b1 =? 160)) then 2%nat
  else if (b0 =? 225) && (b1 =? 154) && (b2 =? 128) then 3%nat
  else if (b0 =? 226) && (b1 =? 128) &&
          (((128 <=? b2) && (b2 <=? 138)) || (b2 =? 168) || (b2 =? 169) || (b2 =? 175))
       then 3%nat
  else if (b0 =? 226) && (b1 =? 129) && (b2 =? 159) then 3%nat
  else if (b0 =? 227) && (b1 =? 128) && (b2 =? 128) then 3%nat
  else 0%nat.

(** [strings.TrimLeftFunc(s, unicode.IsSpace)] on the bytes of [s]. *)
Fixpoint trimLeft (l : list ascii) : list ascii :=
  match l with
  | [] => []
  | a :: l1 =>
    match l1 with
    | [] => if Nat.eqb (spaceWidth (byteZ a) (-1) (-1)) 1 then [] else l
    | b :: l2 =>
      match l2 with
      | [] =>
        match spaceWidth (byteZ a) (byteZ b) (-1) with
        | 1%nat => trimLeft l1
        | 2%nat => []
        | _ => l
        end
      | c :: l3 =>
        match spaceWidth (byteZ a) (byteZ b) (byteZ c) with
        | 1%nat => trimLeft l1
        | 2%nat => trimLeft l2
        | 3%nat => trimLeft l3
        | _ => l
        end
      end
    end
  end.

(** The last rune of the string read backwards: the same sequences, with
    the last byte first. *)
Definition spaceWidthRev (z y x : Z) : nat :=
  if Nat.eqb (spaceWidth z (-1) (-1)) 1 then 1%nat
  else if Nat.eqb (spaceWidth y z (-1)) 2 then 2%nat
  else if Nat.eqb (spaceWidth x y z) 3 then 3%nat
  else 0%nat.

(** [strings.TrimRightFunc(s, unicode.IsSpace)] on the reversed bytes. *)
Fixpoint trimRightRev (l : list ascii) : list ascii :=
  match l with
  | [] => []
  | a :: l1 =>
    match l1 with
    | [] => if Nat.eqb (spaceWidthRev (byteZ a) (-1) (-1)) 1 then [] else l
    | b :: l2 =>
      match l2 with
      | [] =>
        match spaceWidthRev (byteZ a) (byteZ b) (-1) with
        | 1%nat => trimRightRev l1
        | 2%nat => []
        | _ => l
        end
      | c :: l3 =>
        match spaceWidthRev (byteZ a) (byteZ b) (byteZ c) with
        | 1%nat => trimRightRev l1
        | 2%nat => trimRightRev l2
        | 3%nat => trimRightRev l3
        | _ => l
        end
      end
    end
  end.

(** [strings.TrimSpace]: leading, then trailing white space is cut. *)
Definition TrimSpace (s : string) : string :=
  of_bytes (rev (trimRightRev (rev (trimLeft (bytes s))))).

End GoString.

(** ** Package path (and path/filepath on Unix, where the separator is '/') *)

Module GoPath.
Import GoString.

Definition slash : ascii := "/"%char.

(** The elements of a path: the maximal runs between separators, empty
    runs included. *)
Fixpoint splitSlash (l : list ascii) : list (list ascii) :=
  match l with
  | [] => [[]]
  | a :: l' =>
    if Ascii.eqb a slash then [] :: splitSlash l'
    else match splitSlash l' with
         | [] => [[a]]
         | e :: es => (a :: e) :: es
         end
  end.

Fixpoint joinSlash (es : list (list ascii)) : list ascii :=
  match es with
  | [] => []
  | [e] => e
  | e :: es' => e ++ slash :: joinSlash es'
  end.

Definition isDot (e : list ascii) : bool :=
  match e with ["."%char] => true | _ => false end.
Definition isDotDot (e : list ascii) : bool :=
  match e with ["."%char; "."%char] => true | _ => false end.

(** One element of the loop of [path.Clean].  [out] is the output buffer as
    a stack of elements, the last written one first; the leading ".."
    elements of an unrooted path are the only ".." on it. *)
Definition cleanStep (rooted : bool) (out : list (list ascii)) (e : list ascii)
  : list (list ascii) :=
  match e with
  | [] => out
  | _ =>
    if isDot e then out
    else if isDotDot e then
      match out with
      | top :: out' =>
        if isDotDot top then (if rooted then out else e :: out) else out'
      | [] => if rooted then out else [e]
      end
    else e :: out
  end.

(** [path.Clean]. *)
Definition Clean (p : string) : string :=
  match p with
  | EmptyString => "."
  | String a _ =>
    let rooted := Ascii.eqb a slash in
    let out := rev (fold_left (cleanStep rooted) (splitSlash (bytes p)) []) in
    if rooted then of_bytes (slash :: joinSlash out)
    else match out with
         | [] => "."
         | _ => of_bytes (joinSlash out)
         end
  end.

(** [path.Join]: empty elements are ignored, the rest is joined by '/' and
    cleaned; the result is empty when every element is. *)
Definition Join (elem : list string) : string :=
  match List.filter (fun e => negb (String.eqb e "")) elem with
  | [] => ""
  | es => Clean (of_bytes (joinSlash (map bytes es)))
  end.

(** [filepath.IsAbs] on Unix. *)
Definition IsAbs (p : string) : bool := HasPrefix p "/".

Fixpoint dropTrailingSlashesRev (l : list ascii) : list ascii :=
  match l with
  | a :: l' => if Ascii.eqb a slash then dropTrailingSlashesRev l' else l
  | [] => []
  end.

Fixpoint takeUntilSlash (l : list ascii) : list ascii :=
  match l with
  | a :: l' => if Ascii.eqb a slash then [] else a :: takeUntilSlash l'
  | [] => []
  end.

(** [filepath.Base]: the last element of the path, trailing separators
    removed first; "." for the empty path and "/" for a path of separators
    only. *)
Definition Base (p : string) : string :=
  match p with
  | EmptyString => "."
  | _ =>
    match rev (takeUntilSlash (dropTrailingSlashesRev (rev (bytes p)))) with
    | [] => "/"
    | e => of_bytes e
    end
  end.

End GoPath.

(** ** crypto/md5 and encoding/hex *)

Module MD5.
Import GoString.

Definition w32 (x : Z) : Z := x mod 2 ^ 32.
Definition add32 (x y : Z) : Z := w32 (x + y).
Definition not32 (x : Z) : Z := Z.lxor x 0xffffffff.
(** [bits.RotateLeft32]. *)
Definition rotl32 (x n : Z) : Z :=
  Z.lor (w32 (Z.shiftl x n)) (Z.shiftr x (32 - n)).

(** The per-round shift amounts and the sine table of RFC 1321. *)
Definition shifts : list Z :=
  [ 7; 12; 17; 22; 7; 12; 17; 22; 7; 12; 17; 22; 7; 12; 17; 22;
    5; 9; 14; 20; 5; 9; 14; 20; 5; 9; 14; 20; 5; 9; 14; 20;
    4; 11; 16; 23; 4; 11; 16; 23; 4; 11; 16; 23; 4; 11; 16; 23;
    6; 10; 15; 21; 6; 10; 15; 21; 6; 10; 15; 21; 6; 10; 15; 21 ].

Definition K : list Z :=
  [ 0xd76aa478; 0xe8c7b756; 0x242070db; 0xc1bdceee;
    0xf57c0faf; 0x4787c62a; 0xa8304613; 0xfd469501;
    0x698098d8; 0x8b44f7af; 0xffff5bb1; 0x895cd7be;
    0x6b901122; 0xfd987193; 0xa679438e; 0x49b40821;
    0xf61e2562; 0xc040b340; 0x265e5a51; 0xe9b6c7aa;
    0xd62f105d; 0x02441453; 0xd8a1e681; 0xe7d3fbc8;
    0x21e1cde6; 0xc33707d6; 0xf4d50d87; 0x455a14ed;
    0xa9e3e905; 0xfcefa3f8; 0x676f02d9; 0x8d2a4c8a;
    0xfffa3942; 0x8771f681; 0x6d9d6122; 0xfde5380c;
    0xa4beea44; 0x4bdecfa9; 0xf6bb4b60; 0xbebfbc70;
    0x289b7ec6; 0xeaa127fa; 0xd4ef3085; 0x04881d05;
    0xd9d4d039; 0xe6db99e5; 0x1fa27cf8; 0xc4ac5665;
    0xf4292244; 0x432aff97; 0xab9423a7; 0xfc93a039;
    0x655b59c3; 0x8f0ccc92; 0xffeff47d; 0x85845dd1;
    0x6fa87e4f; 0xfe2ce6e0; 0xa3014314; 0x4e0811a1;
    0xf7537e82; 0xbd3af235; 0x2ad7d2bb; 0xeb86d391 ].

Record digest := Digest { dA : Z; dB : Z; dC : Z; dD : Z }.

Definition init : digest :=
  Digest 0x67452301 0xefcdab89 0x98badcfe 0x10325476.

(** Step [i] of the block function on the sixteen message words [M]. *)
Definition step (M : list Z) (d : digest) (i : nat) : digest :=
  let '(Digest a b c d) := d in
  let iz := Z.of_nat i in
  let '(f, g) :=
    if iz <? 16 then (Z.lor (Z.land b c) (Z.land (not32 b) d), iz)
    else if iz <? 32 then (Z.lor (Z.land d b) (Z.land (not32 d) c), (5 * iz + 1) mod 16)
    else if iz <? 48 then (Z.lxor (Z.lxor b c) d, (3 * iz + 5) mod 16)
    else (Z.lxor c (Z.lor b (not32 d)), (7 * iz) mod 16) in
  let f' := add32 (add32 (add32 f a) (nth i K 0)) (nth (Z.to_nat g) M 0) in
  Digest d (add32 b (rotl32 f' (nth i shifts 0))) b c.

(** Little-endian 32-bit words of a block, and back to bytes. *)
Fixpoint words (l : list Z) : list Z :=
  match l with
  | b0 :: b1 :: b2 :: b3 :: l' =>
    (b0 + 256 * b1 + 65536 * b2 + 16777216 * b3) :: words l'
  | _ => []
  end.

Definition le32 (x : Z) : list ascii :=
  [ Zbyte x; Zbyte (Z.shiftr x 8); Zbyte (Z.shiftr x 16); Zbyte (Z.shiftr x 24) ].

Definition block (d : digest) (chunk : list Z) : digest :=
  let '(Digest a b c e) := fold_left (step (words chunk)) (seq 0 64) d in
  Digest (add32 (dA d) a) (add32 (dB d) b) (add32 (dC d) c) (add32 (dD d) e).

Fixpoint blocks (n : nat) (d : digest) (l : list Z) : digest :=
  match n with
  | O => d
  | S n' => blocks n' (block d (firstn 64 l)) (skipn 64 l)
  end.

(** The message, the byte 0x80, zeros up to 56 modulo 64, and the length
    in bits as a little-endian 64-bit number. *)
Definition padded (msg : list Z) : list Z :=
  let len := Z.of_nat (length msg) in
  let zeros := Z.to_nat ((55 - len) mod 64) in
  let bits := (8 * len) mod 2 ^ 64 in
  msg ++ 0x80 :: repeat 0 zeros
      ++ map (fun k => Z.shiftr bits (8 * k) mod 256) [0; 1; 2; 3; 4; 5; 6; 7].

Definition output (d : digest) : list ascii :=
  le32 (dA d) ++ le32 (dB d) ++ le32 (dC d) ++ le32 (dD d).

(** [md5.Sum]: the sixteen bytes of the digest. *)
Definition Sum (data : list ascii) : list ascii :=
  let p := padded (map byteZ data) in
  output (blocks (length p / 64) init p).

End MD5.

Module Hex.
Import GoString.

Definition hextable : list ascii := bytes "0123456789abcdef".

Definition digit (n : Z) : ascii := nth (Z.to_nat n) hextable "0"%char.

(** [hex.EncodeToString]: two lower-case digits per byte. *)
Fixpoint Encode (src : list ascii) : list ascii :=
  match src with
  | [] => []
  | b :: src' => digit (byteZ b / 16) :: digit (byteZ b mod 16) :: Encode src'
  end.

Definition EncodeToString (src : list ascii) : string := of_bytes (Encode src).

End Hex.

Import GoString GoPath.

(** ** Errors and results

    A Go [error] is [None] for nil.  [Wrapped] is the value built by
    [fmt.Errorf] with a %w verb: the format and the error it wraps. *)

Inductive error : Type :=
| Errno (msg : string)
| Wrapped (format : string) (err : error).

Definition fmt_Errorf (format : string) (err : error) : error := Wrapped format err.

#[global] Instance error_eq_dec : EqDecision error.
Proof. solve_decision. Defined.

(** The pair (value, error) a Go function returns. *)
Inductive result (A : Type) : Type :=
| Ok (a : A)
| Err (e : error).
Arguments Ok {A} a.
Arguments Err {A} e.

(** ** The Context struct *)

Record Context : Type := mkContext {
  Name : string;
  VersionsPath : string;
  LogPath : string;
  SocketPath : string;
  IsCliMode : bool;
  LockFile : string;
  ExecutablePath : string;
  BindPID : Z;
  EventSocketPath : string;
  PowerSaveMode : bool;
  KernelDebug : bool;
  Endpoint : string;
  SSHPort : Z;
  SSHKeyPath : string;
  SSHPrivateKeyPath : string;
  SSHPublicKeyPath : string;
  SSHPublicKey : string;
  ForwardSocketPath : string;
  SocketNetworkPath : string;
  SocketInitrdVSockPath : string;
  SocketReadyPath : string;
  RestfulSocketPath : string;
  TimeSyncSocketPath : string;
  SSHAuthSocketPath : string;
  CPUS : Z;
  MemoryBytes : Z;
  KernelPath : string;
  InitrdPath : string;
  RootfsPath : string;
  TargetPath : string;
  DiskDataPath : string;
  DiskTmpPath : string
}.

(** [&Context{}]: every field holds the zero value of its type. *)
Definition Init : Context :=
  mkContext "" "" "" "" false "" "" 0 "" false false "" 0 "" "" "" "" "" "" "" "" "" "" "" 0 0 "" "" "" "" "" "".

(** Assignment to one field, [c.F = v]. *)
Definition set_Name (v : string) (c : Context) : Context :=
  mkContext v (VersionsPath c) (LogPath c) (SocketPath c) (IsCliMode c)
    (LockFile c) (ExecutablePath c) (BindPID c) (EventSocketPath c)
    (PowerSaveMode c) (KernelDebug c) (Endpoint c) (SSHPort c) (SSHKeyPath c)
    (SSHPrivateKeyPath c) (SSHPublicKeyPath c) (SSHPublicKey c)
    (ForwardSocketPath c) (SocketNetworkPath c) (SocketInitrdVSockPath c)
    (SocketReadyPath c) (RestfulSocketPath c) (TimeSyncSocketPath c)
    (SSHAuthSocketPath c) (CPUS c) (MemoryBytes c) (KernelPath c)
    (InitrdPath c) (RootfsPath c) (TargetPath c) (DiskDataPath c)
    (DiskTmpPath c).
Definition set_VersionsPath (v : string) (c : Context) : Context :=
  mkContext (Name c) v (LogPath c) (SocketPath c) (IsCliMode c) (LockFile c)
    (ExecutablePath c) (BindPID c) (EventSocketPath c) (PowerSaveMode c)
    (KernelDebug c) (Endpoint c) (SSHPort c) (SSHKeyPath c)
    (SSHPrivateKeyPath c) (SSHPublicKeyPath c) (SSHPublicKey c)
    (ForwardSocketPath c) (SocketNetworkPath c) (SocketInitrdVSockPath c)
    (SocketReadyPath c) (RestfulSocketPath c) (TimeSyncSocketPath c)
    (SSHAuthSocketPath c) (CPUS c) (MemoryBytes c) (KernelPath c)
    (InitrdPath c) (RootfsPath c) (TargetPath c) (DiskDataPath c)
    (DiskTmpPath c).
Definition set_LogPath (v : string) (c : Context) : Context :=
  mkContext (Name c) (VersionsPath c) v (SocketPath c) (IsCliMode c)
    (LockFile c) (ExecutablePath c) (BindPID c) (EventSocketPath c)
    (PowerSaveMode c) (KernelDebug c) (Endpoint c) (SSHPort c) (SSHKeyPath c)
    (SSHPrivateKeyPath c) (SSHPublicKeyPath c) (SSHPublicKey c)
    (ForwardSocketPath c) (SocketNetworkPath c) (SocketInitrdVSockPath c)
    (SocketReadyPath c) (RestfulSocketPath c) (TimeSyncSocketPath c)
    (SSHAuthSocketPath c) (CPUS c) (MemoryBytes c) (KernelPath c)
    (InitrdPath c) (RootfsPath c) (TargetPath c) (DiskDataPath c)
    (DiskTmpPath c).
Definition set_SocketPath (v : string) (c : Context) : Context :=
  mkContext (Name c) (VersionsPath c) (LogPath c) v (IsCliMode c) (LockFile c)
    (ExecutablePath c) (BindPID c) (EventSocketPath c) (PowerSaveMode c)
    (KernelDebug c) (Endpoint c) (SSHPort c) (SSHKeyPath c)
    (SSHPrivateKeyPath c) (SSHPublicKeyPath c) (SSHPublicKey c)
    (ForwardSocketPath c) (SocketNetworkPath c) (SocketInitrdVSockPath c)
    (SocketReadyPath c) (RestfulSocketPath c) (TimeSyncSocketPath c)
    (SSHAuthSocketPath c) (CPUS c) (MemoryBytes c) (KernelPath c)
    (InitrdPath c) (RootfsPath c) (TargetPath c) (DiskDataPath c)
    (DiskTmpPath c).
Definition set_IsCliMode (v : bool) (c : Context) : Context :=
  mkContext (Name c) (VersionsPath c) (LogPath c) (SocketPath c) v
    (LockFile c) (ExecutablePath c) (BindPID c) (EventSocketPath c)
    (PowerSaveMode c) (KernelDebug c) (Endpoint c) (SSHPort c) (SSHKeyPath c)
    (SSHPrivateKeyPath c) (SSHPublicKeyPath c) (SSHPublicKey c)
    (ForwardSocketPath c) (SocketNetworkPath c) (SocketInitrdVSockPath c)
    (SocketReadyPath c) (RestfulSocketPath c) (TimeSyncSocketPath c)
    (SSHAuthSocketPath c) (CPUS c) (MemoryBytes c) (KernelPath c)
    (InitrdPath c) (RootfsPath c) (TargetPath c) (DiskDataPath c)
    (DiskTmpPath c).
Definition set_LockFile (v : string) (c : Context) : Context :=
  mkContext (Name c) (VersionsPath c) (LogPath c) (SocketPath c) (IsCliMode c)
    v (ExecutablePath c) (BindPID c) (EventSocketPath c) (PowerSaveMode c)
    (KernelDebug c) (Endpoint c) (SSHPort c) (SSHKeyPath c)
    (SSHPrivateKeyPath c) (SSHPublicKeyPath c) (SSHPublicKey c)
    (ForwardSocketPath c) (SocketNetworkPath c) (SocketInitrdVSockPath c)
    (SocketReadyPath c) (RestfulSocketPath c) (TimeSyncSocketPath c)
    (SSHAuthSocketPath c) (CPUS c) (MemoryBytes c) (KernelPath c)
    (InitrdPath c) (RootfsPath c) (TargetPath c) (DiskDataPath c)
    (DiskTmpPath c).
Definition set_ExecutablePath (v : string) (c : Context) : Context :=
  mkContext (Name c) (VersionsPath c) (LogPath c) (SocketPath c) (IsCliMode c)
    (LockFile c) v (BindPID c) (EventSocketPath c) (PowerSaveMode c)
    (KernelDebug c) (Endpoint c) (SSHPort c) (SSHKeyPath c)
    (SSHPrivateKeyPath c) (SSHPublicKeyPath c) (SSHPublicKey c)
    (ForwardSocketPath c) (SocketNetworkPath c) (SocketInitrdVSockPath c)
    (SocketReadyPath c) (RestfulSocketPath c) (TimeSyncSocketPath c)
    (SSHAuthSocketPath c) (CPUS c) (MemoryBytes c) (KernelPath c)
    (InitrdPath c) (RootfsPath c) (TargetPath c) (DiskDataPath c)
    (DiskTmpPath c).
Definition set_BindPID (v : Z) (c : Context) : Context :=
  mkContext (Name c) (VersionsPath c) (LogPath c) (SocketPath c) (IsCliMode c)
    (LockFile c) (ExecutablePath c) v (EventSocketPath c) (PowerSaveMode c)
    (KernelDebug c) (Endpoint c) (SSHPort c) (SSHKeyPath c)
    (SSHPrivateKeyPath c) (SSHPublicKeyPath c) (SSHPublicKey c)
    (ForwardSocketPath c) (SocketNetworkPath c) (SocketInitrdVSockPath c)
    (SocketReadyPath c) (RestfulSocketPath c) (TimeSyncSocketPath c)
    (SSHAuthSocketPath c) (CPUS c) (MemoryBytes c) (KernelPath c)
    (InitrdPath c) (RootfsPath c) (TargetPath c) (DiskDataPath c)
    (DiskTmpPath c).
Definition set_EventSocketPath (v : string) (c : Context) : Context :=
  mkContext (Name c) (VersionsPath c) (LogPath c) (SocketPath c) (IsCliMode c)
    (LockFile c) (ExecutablePath c) (BindPID c) v (PowerSaveMode c)
    (KernelDebug c) (Endpoint c) (SSHPort c) (SSHKeyPath c)
    (SSHPrivateKeyPath c) (SSHPublicKeyPath c) (SSHPublicKey c)
    (ForwardSocketPath c) (SocketNetworkPath c) (SocketInitrdVSockPath c)
    (SocketReadyPath c) (RestfulSocketPath c) (TimeSyncSocketPath c)
    (SSHAuthSocketPath c) (CPUS c) (MemoryBytes c) (KernelPath c)
    (InitrdPath c) (RootfsPath c) (TargetPath c) (DiskDataPath c)
    (DiskTmpPath c).
Definition set_PowerSaveMode (v : bool) (c : Context) : Context :=
  mkContext (Name c) (VersionsPath c) (LogPath c) (SocketPath c) (IsCliMode c)
    (LockFile c) (ExecutablePath c) (BindPID c) (EventSocketPath c) v
    (KernelDebug c) (Endpoint c) (SSHPort c) (SSHKeyPath c)
    (SSHPrivateKeyPath c) (SSHPublicKeyPath c) (SSHPublicKey c)
    (ForwardSocketPath c) (SocketNetworkPath c) (SocketInitrdVSockPath c)
    (SocketReadyPath c) (RestfulSocketPath c) (TimeSyncSocketPath c)
    (SSHAuthSocketPath c) (CPUS c) (MemoryBytes c) (KernelPath c)
    (InitrdPath c) (RootfsPath c) (TargetPath c) (DiskDataPath c)
    (DiskTmpPath c).
Definition set_KernelDebug (v : bool) (c : Context) : Context :=
  mkContext (Name c) (VersionsPath c) (LogPath c) (SocketPath c) (IsCliMode c)
    (LockFile c) (ExecutablePath c) (BindPID c) (EventSocketPath c)
    (PowerSaveMode c) v (Endpoint c) (SSHPort c) (SSHKeyPath c)
    (SSHPrivateKeyPath c) (SSHPublicKeyPath c) (SSHPublicKey c)
    (ForwardSocketPath c) (SocketNetworkPath c) (SocketInitrdVSockPath c)
    (SocketReadyPath c) (RestfulSocketPath c) (TimeSyncSocketPath c)
    (SSHAuthSocketPath c) (CPUS c) (MemoryBytes c) (KernelPath c)
    (InitrdPath c) (RootfsPath c) (TargetPath c) (DiskDataPath c)
    (DiskTmpPath c).
Definition set_Endpoint (v : string) (c : Context) : Context :=
  mkContext (Name c) (VersionsPath c) (LogPath c) (SocketPath c) (IsCliMode c)
    (LockFile c) (ExecutablePath c) (BindPID c) (EventSocketPath c)
    (PowerSaveMode c) (KernelDebug c) v (SSHPort c) (SSHKeyPath c)
    (SSHPrivateKeyPath c) (SSHPublicKeyPath c) (SSHPublicKey c)
    (ForwardSocketPath c) (SocketNetworkPath c) (SocketInitrdVSockPath c)
    (SocketReadyPath c) (RestfulSocketPath c) (TimeSyncSocketPath c)
    (SSHAuthSocketPath c) (CPUS c) (MemoryBytes c) (KernelPath c)
    (InitrdPath c) (RootfsPath c) (TargetPath c) (DiskDataPath c)
    (DiskTmpPath c).
Definition set_SSHPort (v : Z) (c : Context) : Context :=
  mkContext (Name c) (VersionsPath c) (LogPath c) (SocketPath c) (IsCliMode c)
    (LockFile c) (ExecutablePath c) (BindPID c) (EventSocketPath c)
    (PowerSaveMode c) (KernelDebug c) (Endpoint c) v (SSHKeyPath c)
    (SSHPrivateKeyPath c) (SSHPublicKeyPath c) (SSHPublicKey c)
    (ForwardSocketPath c) (SocketNetworkPath c) (SocketInitrdVSockPath c)
    (SocketReadyPath c) (RestfulSocketPath c) (TimeSyncSocketPath c)
    (SSHAuthSocketPath c) (CPUS c) (MemoryBytes c) (KernelPath c)
    (InitrdPath c) (RootfsPath c) (TargetPath c) (DiskDataPath c)
    (DiskTmpPath c).
Definition set_SSHKeyPath (v : string) (c : Context) : Context :=
  mkContext (Name c) (VersionsPath c) (LogPath c) (SocketPath c) (IsCliMode c)
    (LockFile c) (ExecutablePath c) (BindPID c) (EventSocketPath c)
    (PowerSaveMode c) (KernelDebug c) (Endpoint c) (SSHPort c) v
    (SSHPrivateKeyPath c) (SSHPublicKeyPath c) (SSHPublicKey c)
    (ForwardSocketPath c) (SocketNetworkPath c) (SocketInitrdVSockPath c)
    (SocketReadyPath c) (RestfulSocketPath c) (TimeSyncSocketPath c)
    (SSHAuthSocketPath c) (CPUS c) (MemoryBytes c) (KernelPath c)
    (InitrdPath c) (RootfsPath c) (TargetPath c) (DiskDataPath c)
    (DiskTmpPath c).
Definition set_SSHPrivateKeyPath (v : string) (c : Context) : Context :=
  mkContext (Name c) (VersionsPath c) (LogPath c) (SocketPath c) (IsCliMode c)
    (LockFile c) (ExecutablePath c) (BindPID c) (EventSocketPath c)
    (PowerSaveMode c) (KernelDebug c) (Endpoint c) (SSHPort c) (SSHKeyPath c)
    v (SSHPublicKeyPath c) (SSHPublicKey c) (ForwardSocketPath c)
    (SocketNetworkPath c) (SocketInitrdVSockPath c) (SocketReadyPath c)
    (RestfulSocketPath c) (TimeSyncSocketPath c) (SSHAuthSocketPath c)
    (CPUS c) (MemoryBytes c) (KernelPath c) (InitrdPath c) (RootfsPath c)
    (TargetPath c) (DiskDataPath c) (DiskTmpPath c).
Definition set_SSHPublicKeyPath (v : string) (c : Context) : Context :=
  mkContext (Name c) (VersionsPath c) (LogPath c) (SocketPath c) (IsCliMode c)
    (LockFile c) (ExecutablePath c) (BindPID c) (EventSocketPath c)
    (PowerSaveMode c) (KernelDebug c) (Endpoint c) (SSHPort c) (SSHKeyPath c)
    (SSHPrivateKeyPath c) v (SSHPublicKey c) (ForwardSocketPath c)
    (SocketNetworkPath c) (SocketInitrdVSockPath c) (SocketReadyPath c)
    (RestfulSocketPath c) (TimeSyncSocketPath c) (SSHAuthSocketPath c)
    (CPUS c) (MemoryBytes c) (KernelPath c) (InitrdPath c) (RootfsPath c)
    (TargetPath c) (DiskDataPath c) (DiskTmpPath c).
Definition set_SSHPublicKey (v : string) (c : Context) : Context :=
  mkContext (Name c) (VersionsPath c) (LogPath c) (SocketPath c) (IsCliMode c)
    (LockFile c) (ExecutablePath c) (BindPID c) (EventSocketPath c)
    (PowerSaveMode c) (KernelDebug c) (Endpoint c) (SSHPort c) (SSHKeyPath c)
    (SSHPrivateKeyPath c) (SSHPublicKeyPath c) v (ForwardSocketPath c)
    (SocketNetworkPath c) (SocketInitrdVSockPath c) (SocketReadyPath c)
    (RestfulSocketPath c) (TimeSyncSocketPath c) (SSHAuthSocketPath c)
    (CPUS c) (MemoryBytes c) (KernelPath c) (InitrdPath c) (RootfsPath c)
    (TargetPath c) (DiskDataPath c) (DiskTmpPath c).
Definition set_ForwardSocketPath (v : string) (c : Context) : Context :=
  mkContext (Name c) (VersionsPath c) (LogPath c) (SocketPath c) (IsCliMode c)
    (LockFile c) (ExecutablePath c) (BindPID c) (EventSocketPath c)
    (PowerSaveMode c) (KernelDebug c) (Endpoint c) (SSHPort c) (SSHKeyPath c)
    (SSHPrivateKeyPath c) (SSHPublicKeyPath c) (SSHPublicKey c) v
    (SocketNetworkPath c) (SocketInitrdVSockPath c) (SocketReadyPath c)
    (RestfulSocketPath c) (TimeSyncSocketPath c) (SSHAuthSocketPath c)
    (CPUS c) (MemoryBytes c) (KernelPath c) (InitrdPath c) (RootfsPath c)
    (TargetPath c) (DiskDataPath c) (DiskTmpPath c).
Definition set_SocketNetworkPath (v : string) (c : Context) : Context :=
  mkContext (Name c) (VersionsPath c) (LogPath c) (SocketPath c) (IsCliMode c)
    (LockFile c) (ExecutablePath c) (BindPID c) (EventSocketPath c)
    (PowerSaveMode c) (KernelDebug c) (Endpoint c) (SSHPort c) (SSHKeyPath c)
    (SSHPrivateKeyPath c) (SSHPublicKeyPath c) (SSHPublicKey c)
    (ForwardSocketPath c) v (SocketInitrdVSockPath c) (SocketReadyPath c)
    (RestfulSocketPath c) (TimeSyncSocketPath c) (SSHAuthSocketPath c)
    (CPUS c) (MemoryBytes c) (KernelPath c) (InitrdPath c) (RootfsPath c)
    (TargetPath c) (DiskDataPath c) (DiskTmpPath c).
Definition set_SocketInitrdVSockPath (v : string) (c : Context) : Context :=
  mkContext (Name c) (VersionsPath c) (LogPath c) (SocketPath c) (IsCliMode c)
    (LockFile c) (ExecutablePath c) (BindPID c) (EventSocketPath c)
    (PowerSaveMode c) (KernelDebug c) (Endpoint c) (SSHPort c) (SSHKeyPath c)
    (SSHPrivateKeyPath c) (SSHPublicKeyPath c) (SSHPublicKey c)
    (ForwardSocketPath c) (SocketNetworkPath c) v (SocketReadyPath c)
    (RestfulSocketPath c) (TimeSyncSocketPath c) (SSHAuthSocketPath c)
    (CPUS c) (MemoryBytes c) (KernelPath c) (InitrdPath c) (RootfsPath c)
    (TargetPath c) (DiskDataPath c) (DiskTmpPath c).
Definition set_SocketReadyPath (v : string) (c : Context) : Context :=
  mkContext (Name c) (VersionsPath c) (LogPath c) (SocketPath c) (IsCliMode c)
    (LockFile c) (ExecutablePath c) (BindPID c) (EventSocketPath c)
    (PowerSaveMode c) (KernelDebug c) (Endpoint c) (SSHPort c) (SSHKeyPath c)
    (SSHPrivateKeyPath c) (SSHPublicKeyPath c) (SSHPublicKey c)
    (ForwardSocketPath c) (SocketNetworkPath c) (SocketInitrdVSockPath c) v
    (RestfulSocketPath c) (TimeSyncSocketPath c) (SSHAuthSocketPath c)
    (CPUS c) (MemoryBytes c) (KernelPath c) (InitrdPath c) (RootfsPath c)
    (TargetPath c) (DiskDataPath c) (DiskTmpPath c).
Definition set_RestfulSocketPath (v : string) (c : Context) : Context :=
  mkContext (Name c) (VersionsPath c) (LogPath c) (SocketPath c) (IsCliMode c)
    (LockFile c) (ExecutablePath c) (BindPID c) (EventSocketPath c)
    (PowerSaveMode c) (KernelDebug c) (Endpoint c) (SSHPort c) (SSHKeyPath c)
    (SSHPrivateKeyPath c) (SSHPublicKeyPath c) (SSHPublicKey c)
    (ForwardSocketPath c) (SocketNetworkPath c) (SocketInitrdVSockPath c)
    (SocketReadyPath c) v (TimeSyncSocketPath c) (SSHAuthSocketPath c)
    (CPUS c) (MemoryBytes c) (KernelPath c) (InitrdPath c) (RootfsPath c)
    (TargetPath c) (DiskDataPath c) (DiskTmpPath c).
Definition set_TimeSyncSocketPath (v : string) (c : Context) : Context :=
  mkContext (Name c) (VersionsPath c) (LogPath c) (SocketPath c) (IsCliMode c)
    (LockFile c) (ExecutablePath c) (BindPID c) (EventSocketPath c)
    (PowerSaveMode c) (KernelDebug c) (Endpoint c) (SSHPort c) (SSHKeyPath c)
    (SSHPrivateKeyPath c) (SSHPublicKeyPath c) (SSHPublicKey c)
    (ForwardSocketPath c) (SocketNetworkPath c) (SocketInitrdVSockPath c)
    (SocketReadyPath c) (RestfulSocketPath c) v (SSHAuthSocketPath c) (CPUS c)
    (MemoryBytes c) (KernelPath c) (InitrdPath c) (RootfsPath c)
    (TargetPath c) (DiskDataPath c) (DiskTmpPath c).
Definition set_SSHAuthSocketPath (v : string) (c : Context) : Context :=
  mkContext (Name c) (VersionsPath c) (LogPath c) (SocketPath c) (IsCliMode c)
    (LockFile c) (ExecutablePath c) (BindPID c) (EventSocketPath c)
    (PowerSaveMode c) (KernelDebug c) (Endpoint c) (SSHPort c) (SSHKeyPath c)
    (SSHPrivateKeyPath c) (SSHPublicKeyPath c) (SSHPublicKey c)
    (ForwardSocketPath c) (SocketNetworkPath c) (SocketInitrdVSockPath c)
    (SocketReadyPath c) (RestfulSocketPath c) (TimeSyncSocketPath c) v
    (CPUS c) (MemoryBytes c) (KernelPath c) (InitrdPath c) (RootfsPath c)
    (TargetPath c) (DiskDataPath c) (DiskTmpPath c).
Definition set_CPUS (v : Z) (c : Context) : Context :=
  mkContext (Name c) (VersionsPath c) (LogPath c) (SocketPath c) (IsCliMode c)
    (LockFile c) (ExecutablePath c) (BindPID c) (EventSocketPath c)
    (PowerSaveMode c) (KernelDebug c) (Endpoint c) (SSHPort c) (SSHKeyPath c)
    (SSHPrivateKeyPath c) (SSHPublicKeyPath c) (SSHPublicKey c)
    (ForwardSocketPath c) (SocketNetworkPath c) (SocketInitrdVSockPath c)
    (SocketReadyPath c) (RestfulSocketPath c) (TimeSyncSocketPath c)
    (SSHAuthSocketPath c) v (MemoryBytes c) (KernelPath c) (InitrdPath c)
    (RootfsPath c) (TargetPath c) (DiskDataPath c) (DiskTmpPath c).
Definition set_MemoryBytes (v : Z) (c : Context) : Context :=
  mkContext (Name c) (VersionsPath c) (LogPath c) (SocketPath c) (IsCliMode c)
    (LockFile c) (ExecutablePath c) (BindPID c) (EventSocketPath c)
    (PowerSaveMode c) (KernelDebug c) (Endpoint c) (SSHPort c) (SSHKeyPath c)
    (SSHPrivateKeyPath c) (SSHPublicKeyPath c) (SSHPublicKey c)
    (ForwardSocketPath c) (SocketNetworkPath c) (SocketInitrdVSockPath c)
    (SocketReadyPath c) (RestfulSocketPath c) (TimeSyncSocketPath c)
    (SSHAuthSocketPath c) (CPUS c) v (KernelPath c) (InitrdPath c)
    (RootfsPath c) (TargetPath c) (DiskDataPath c) (DiskTmpPath c).
Definition set_KernelPath (v : string) (c : Context) : Context :=
  mkContext (Name c) (VersionsPath c) (LogPath c) (SocketPath c) (IsCliMode c)
    (LockFile c) (ExecutablePath c) (BindPID c) (EventSocketPath c)
    (PowerSaveMode c) (KernelDebug c) (Endpoint c) (SSHPort c) (SSHKeyPath c)
    (SSHPrivateKeyPath c) (SSHPublicKeyPath c) (SSHPublicKey c)
    (ForwardSocketPath c) (SocketNetworkPath c) (SocketInitrdVSockPath c)
    (SocketReadyPath c) (RestfulSocketPath c) (TimeSyncSocketPath c)
    (SSHAuthSocketPath c) (CPUS c) (MemoryBytes c) v (InitrdPath c)
    (RootfsPath c) (TargetPath c) (DiskDataPath c) (DiskTmpPath c).
Definition set_InitrdPath (v : string) (c : Context) : Context :=
  mkContext (Name c) (VersionsPath c) (LogPath c) (SocketPath c) (IsCliMode c)
    (LockFile c) (ExecutablePath c) (BindPID c) (EventSocketPath c)
    (PowerSaveMode c) (KernelDebug c) (Endpoint c) (SSHPort c) (SSHKeyPath c)
    (SSHPrivateKeyPath c) (SSHPublicKeyPath c) (SSHPublicKey c)
    (ForwardSocketPath c) (SocketNetworkPath c) (SocketInitrdVSockPath c)
    (SocketReadyPath c) (RestfulSocketPath c) (TimeSyncSocketPath c)
    (SSHAuthSocketPath c) (CPUS c) (MemoryBytes c) (KernelPath c) v
    (RootfsPath c) (TargetPath c) (DiskDataPath c) (DiskTmpPath c).
Definition set_RootfsPath (v : string) (c : Context) : Context :=
  mkContext (Name c) (VersionsPath c) (LogPath c) (SocketPath c) (IsCliMode c)
    (LockFile c) (ExecutablePath c) (BindPID c) (EventSocketPath c)
    (PowerSaveMode c) (KernelDebug c) (Endpoint c) (SSHPort c) (SSHKeyPath c)
    (SSHPrivateKeyPath c) (SSHPublicKeyPath c) (SSHPublicKey c)
    (ForwardSocketPath c) (SocketNetworkPath c) (SocketInitrdVSockPath c)
    (SocketReadyPath c) (RestfulSocketPath c) (TimeSyncSocketPath c)
    (SSHAuthSocketPath c) (CPUS c) (MemoryBytes c) (KernelPath c)
    (InitrdPath c) v (TargetPath c) (DiskDataPath c) (DiskTmpPath c).
Definition set_TargetPath (v : string) (c : Context) : Context :=
  mkContext (Name c) (VersionsPath c) (LogPath c) (SocketPath c) (IsCliMode c)
    (LockFile c) (ExecutablePath c) (BindPID c) (EventSocketPath c)
    (PowerSaveMode c) (KernelDebug c) (Endpoint c) (SSHPort c) (SSHKeyPath c)
    (SSHPrivateKeyPath c) (SSHPublicKeyPath c) (SSHPublicKey c)
    (ForwardSocketPath c) (SocketNetworkPath c) (SocketInitrdVSockPath c)
    (SocketReadyPath c) (RestfulSocketPath c) (TimeSyncSocketPath c)
    (SSHAuthSocketPath c) (CPUS c) (MemoryBytes c) (KernelPath c)
    (InitrdPath c) (RootfsPath c) v (DiskDataPath c) (DiskTmpPath c).
Definition set_DiskDataPath (v : string) (c : Context) : Context :=
  mkContext (Name c) (VersionsPath c) (LogPath c) (SocketPath c) (IsCliMode c)
    (LockFile c) (ExecutablePath c) (BindPID c) (EventSocketPath c)
    (PowerSaveMode c) (KernelDebug c) (Endpoint c) (SSHPort c) (SSHKeyPath c)
    (SSHPrivateKeyPath c) (SSHPublicKeyPath c) (SSHPublicKey c)
    (ForwardSocketPath c) (SocketNetworkPath c) (SocketInitrdVSockPath c)
    (SocketReadyPath c) (RestfulSocketPath c) (TimeSyncSocketPath c)
    (SSHAuthSocketPath c) (CPUS c) (MemoryBytes c) (KernelPath c)
    (InitrdPath c) (RootfsPath c) (TargetPath c) v (DiskTmpPath c).
Definition set_DiskTmpPath (v : string) (c : Context) : Context :=
  mkContext (Name c) (VersionsPath c) (LogPath c) (SocketPath c) (IsCliMode c)
    (LockFile c) (ExecutablePath c) (BindPID c) (EventSocketPath c)
    (PowerSaveMode c) (KernelDebug c) (Endpoint c) (SSHPort c) (SSHKeyPath c)
    (SSHPrivateKeyPath c) (SSHPublicKeyPath c) (SSHPublicKey c)
    (ForwardSocketPath c) (SocketNetworkPath c) (SocketInitrdVSockPath c)
    (SocketReadyPath c) (RestfulSocketPath c) (TimeSyncSocketPath c)
    (SSHAuthSocketPath c) (CPUS c) (MemoryBytes c) (KernelPath c)
    (InitrdPath c) (RootfsPath c) (TargetPath c) (DiskDataPath c) v.

(** ** The command-line flags

    The package-level variables the steps read ([name], [cpus], [memory],
    ...), declared with the flag parsing of package cli.  [memory] has the
    type of [MemoryBytes], [uint64], since Go multiplies it without a
    conversion. *)

Module Flag.
Record t : Type := mk {
  name : string;
  cpus : Z;
  memory : Z;
  cliMode : bool;
  bindPID : Z;
  eventSocketPath : string;
  powerSaveMode : bool;
  kernelDebug : bool;
  socketPath : string;
  sshKeyPath : string;
  logPath : string;
  targetPath : string;
  kernelPath : string;
  initrdPath : string;
  rootfsPath : string
}.
End Flag.

(** ** Calls that leave the package

    The operating system and the helpers of packages utils and cli that the
    steps call.  A call is answered by the host the program runs on. *)

(** The arguments of [newTarget]; they stand for the target it returns. *)
Record targetT : Type := mkTarget {
  tTargetPath : string;
  tKernelPath : string;
  tInitrdPath : string;
  tRootfsPath : string;
  tDiskDataPath : string;
  tVersionsPath : string
}.

(** Calls whose only used result is an [error]. *)
Inductive ErrCall : Type :=
| os_MkdirAll (path : string) (perm : Z)
| os_RemoveAll (path : string)
| os_Stat (name : string)
| os_Open (name : string)
| File_Close (name : string)
| utils_GenerateSSHKey (dir name : string)
| newTarget (t : targetT)
| target_handle (t : targetT)
| utils_CreateSparseFile (path : string) (size : Z).

(** Calls that return (string, error) or ([]byte, error). *)
Inductive StrCall : Type :=
| os_Executable
| filepath_EvalSymlinks (path : string)
| os_Getwd
| io_ReadAll (name : string).

(** Calls that return (int, error). *)
Inductive IntCall : Type :=
| utils_FindUsablePort (start : Z).

Inductive Event : Type :=
| EvE (c : ErrCall) (r : option error)
| EvS (c : StrCall) (r : result string)
| EvI (c : IntCall) (r : result Z).

(** ** Programs

    A method of [*Context] is a tree of atomic steps: a call, a read of the
    Context, or an assignment to it. *)

Inductive Prog (A : Type) : Type :=
| Ret (a : A)
| CallE (c : ErrCall) (k : option error -> Prog A)
| CallS (c : StrCall) (k : result string -> Prog A)
| CallI (c : IntCall) (k : result Z -> Prog A)
| Load (k : Context -> Prog A)
| Store (f : Context -> Context) (k : Prog A).
Arguments Ret {A} a.
Arguments CallE {A} c k.
Arguments CallS {A} c k.
Arguments CallI {A} c k.
Arguments Load {A} k.
Arguments Store {A} f k.

Fixpoint bind {A B} (p : Prog A) (f : A -> Prog B) : Prog B :=
  match p with
  | Ret a => f a
  | CallE c k => CallE c (fun r => bind (k r) f)
  | CallS c k => CallS c (fun r => bind (k r) f)
  | CallI c k => CallI c (fun r => bind (k r) f)
  | Load k => Load (fun c => bind (k c) f)
  | Store g k => Store g (bind k f)
  end.

#[global] Instance Prog_ret : MRet Prog := @Ret.
#[global] Instance Prog_bind : MBind Prog := fun A B f p => bind p f.

Definition callE (c : ErrCall) : Prog (option error) := CallE c Ret.
Definition callS (c : StrCall) : Prog (result string) := CallS c Ret.
Definition callI (c : IntCall) : Prog (result Z) := CallI c Ret.
(** [c.F] *)
Definition get {A} (F : Context -> A) : Prog A := Load (fun c => Ret (F c)).
(** [c.F = v] *)
Definition assign (f : Context -> Context) : Prog unit := Store f (Ret tt).

(** ** Hosts and runs *)

Class Host (W : Type) : Type := {
  hostE : ErrCall -> W -> option error * W;
  hostS : StrCall -> W -> result string * W;
  hostI : IntCall -> W -> result Z * W
}.

Record state (W : Type) : Type := mkState {
  ctx : Context;
  world : W;
  trace : list Event
}.
Arguments mkState {W} ctx world trace.
Arguments ctx {W} s.
Arguments world {W} s.
Arguments trace {W} s.

Section Run.
Context {W : Type} {H : Host W}.

Definition stepE (c : ErrCall) (s : state W) : option error * state W :=
  let (r, w) := hostE c (world s) in
  (r, mkState (ctx s) w (trace s ++ [EvE c r])).
Definition stepS (c : StrCall) (s : state W) : result string * state W :=
  let (r, w) := hostS c (world s) in
  (r, mkState (ctx s) w (trace s ++ [EvS c r])).
Definition stepI (c : IntCall) (s : state W) : result Z * state W :=
  let (r, w) := hostI c (world s) in
  (r, mkState (ctx s) w (trace s ++ [EvI c r])).
Definition update (f : Context -> Context) (s : state W) : state W :=
  mkState (f (ctx s)) (world s) (trace s).

(** The state a method starts in: nothing has been called yet. *)
Definition start (c : Context) (w : W) : state W := mkState c w [].

(** The run of a program: its value and the state it leaves. *)
Fixpoint run {A} (p : Prog A) (s : state W) : A * state W :=
  match p with
  | Ret a => (a, s)
  | CallE c k => let (r, s') := stepE c s in run (k r) s'
  | CallS c k => let (r, s') := stepS c s in run (k r) s'
  | CallI c k => let (r, s') := stepI c s in run (k r) s'
  | Load k => run (k (ctx s)) s
  | Store f k => run k (update f s)
  end.
End Run.

(** ** golang.org/x/sync/errgroup

    The functions given to [Go] run as goroutines whose atomic steps
    interleave.  A schedule names, step by step, the goroutine that moves;
    a goroutine that has returned takes one more step, which records its
    error ([errOnce]) and leaves the wait group.  When the schedule is used
    up, the goroutines still running finish one after the other. *)

Module errgroup.

Definition Group : Type := list (Prog (option error)).
Definition task : Type := nat * Prog (option error).
Definition finished : Type := nat * option error.

(** [errgroup.Group{}] *)
Definition zero : Group := [].

Definition Go (g : Group) (f : Prog (option error)) : Group := g ++ [f].

Fixpoint drain (ts : list task) (done : list finished) : Prog (list finished) :=
  match ts with
  | [] => Ret done
  | (i, p) :: ts' => r ← p; drain ts' (done ++ [(i, r)])
  end.

Definition pick (n : nat) (ts : list task) : nat :=
  if (n <? length ts)%nat then n else 0%nat.

Fixpoint interleave (sched : list nat) (ts : list task) (done : list finished)
  : Prog (list finished) :=
  match sched with
  | [] => drain ts done
  | n :: sched' =>
    let j := pick n ts in
    match ts !! j with
    | None => Ret done
    | Some (i, p) =>
      match p with
      | Ret r => interleave sched' (delete j ts) (done ++ [(i, r)])
      | CallE c k => CallE c (fun r => interleave sched' (<[j := (i, k r)]> ts) done)
      | CallS c k => CallS c (fun r => interleave sched' (<[j := (i, k r)]> ts) done)
      | CallI c k => CallI c (fun r => interleave sched' (<[j := (i, k r)]> ts) done)
      | Load k => Load (fun c => interleave sched' (<[j := (i, k c)]> ts) done)
      | Store f k => Store f (interleave sched' (<[j := (i, k)]> ts) done)
      end
    end
  end.

(** The error [Wait] returns: the first one recorded. *)
Fixpoint firstError (done : list finished) : option error :=
  match done with
  | [] => None
  | (_, Some e) :: _ => Some e
  | (_, None) :: done' => firstError done'
  end.

Definition tasks (g : Group) : list task := imap (fun i f => (i, f)) g.

(** The goroutines of [g] under [sched], in the order in which they
    finished. *)
Definition goroutines (sched : list nat) (g : Group) : Prog (list finished) :=
  interleave sched (tasks g) [].

Definition Wait (sched : list nat) (g : Group) : Prog (option error) :=
  done ← goroutines sched g; mret (firstError done).

End errgroup.

(** ** The steps of pkg/cli/setup.go *)

(** An octal permission literal such as 0755. *)
Definition octal (a b c : Z) : Z := a * 64 + b * 8 + c.

(** Arithmetic of [uint64]. *)
Definition u64 (x : Z) : Z := x mod 2 ^ 64.

(** [filepath.Abs] on Unix: an absolute path is cleaned, another one is
    joined to the working directory. *)
Definition filepath_Abs (path : string) : Prog (result string) :=
  if IsAbs path then mret (Ok (Clean path))
  else
    r ← callS os_Getwd;
    match r with
    | Err err => mret (Err err)
    | Ok wd => mret (Ok (Join [wd; path]))
    end.

Section Steps.
Variable unicodeLower : string -> string.
Variable fl : Flag.t.

Definition basic : Prog (option error) :=
  assign (set_Name (Flag.name fl));;
  assign (set_CPUS (Flag.cpus fl));;
  assign (set_MemoryBytes (u64 (u64 (Flag.memory fl * 1024) * 1024)));;
  assign (set_IsCliMode (Flag.cliMode fl));;
  assign (set_BindPID (Flag.bindPID fl));;
  assign (set_EventSocketPath (Flag.eventSocketPath fl));;
  assign (set_PowerSaveMode (Flag.powerSaveMode fl));;
  assign (set_KernelDebug (Flag.kernelDebug fl));;
  err ← callE (os_MkdirAll "/tmp/ovm" (octal 7 5 5));
  match err with
  | Some err => mret (Some err)
  | None =>
    r ← callS os_Executable;
    match r with
    | Err err => mret (Some (fmt_Errorf "get executable path error: %w" err))
    | Ok p =>
      r ← callS (filepath_EvalSymlinks p);
      match r with
      | Err err => mret (Some (fmt_Errorf "eval symlink error: %w" err))
      | Ok p =>
        assign (set_ExecutablePath (ToLower unicodeLower p));;
        exe ← get ExecutablePath;
        let sum := MD5.Sum (bytes exe) in
        let hash := Hex.EncodeToString sum in
        assign (set_LockFile ("/tmp/ovm/" +:+ hash +:+ "-" +:+ Flag.name fl +:+ ".pid"));;
        mret None
      end
    end
  end.

Definition socketPath : Prog (option error) :=
  r ← filepath_Abs (Flag.socketPath fl);
  match r with
  | Err err => mret (Some err)
  | Ok p =>
    assign (set_SocketPath p);;
    assign (set_ForwardSocketPath (Join [p; Flag.name fl +:+ "-podman.sock"]));;
    assign (set_SocketNetworkPath (Join [p; Flag.name fl +:+ "-vfkit-network.sock"]));;
    assign (set_SocketInitrdVSockPath (Join [p; Flag.name fl +:+ "-initrd-vsock.sock"]));;
    assign (set_SocketReadyPath (Join [p; Flag.name fl +:+ "-ready.sock"]));;
    assign (set_RestfulSocketPath (Join [p; Flag.name fl +:+ "-restful.sock"]));;
    assign (set_TimeSyncSocketPath (Join [p; Flag.name fl +:+ "-sync-time.sock"]));;
    assign (set_SSHAuthSocketPath (Join [p; Flag.name fl +:+ "-ssh-auth.sock"]));;
    network ← get SocketNetworkPath;
    assign (set_Endpoint ("unix://" +:+ network));;
    sp ← get SocketPath;
    err ← callE (os_RemoveAll sp);
    match err with
    | Some err => mret (Some err)
    | None =>
      sp ← get SocketPath;
      err ← callE (os_MkdirAll sp (octal 7 5 5));
      match err with
      | Some err => mret (Some err)
      | None => mret None
      end
    end
  end.

(** [sched] orders the two goroutines that stat the key files. *)
Definition ssh (sched : list nat) : Prog (option error) :=
  r ← filepath_Abs (Flag.sshKeyPath fl);
  match r with
  | Err err => mret (Some err)
  | Ok p =>
    assign (set_SSHKeyPath p);;
    assign (set_SSHPrivateKeyPath (Join [p; Flag.name fl]));;
    assign (set_SSHPublicKeyPath (Join [p; Flag.name fl +:+ ".pub"]));;
    err ← callE (os_MkdirAll p (octal 7 0 0));
    match err with
    | Some err => mret (Some err)
    | None =>
      let g := errgroup.zero in
      let g := errgroup.Go g (priv ← get SSHPrivateKeyPath; callE (os_Stat priv)) in
      let g := errgroup.Go g (pub ← get SSHPublicKeyPath; callE (os_Stat pub)) in
      err ← errgroup.Wait sched g;
      err ← match err with
            | Some _ =>
              priv ← get SSHPrivateKeyPath;
              callE (os_RemoveAll priv);;
              pub ← get SSHPublicKeyPath;
              callE (os_RemoveAll pub);;
              dir ← get SSHKeyPath;
              callE (utils_GenerateSSHKey dir (Flag.name fl))
            | None => mret None
            end;
      match err with
      | Some err => mret (Some err)
      | None =>
        pub ← get SSHPublicKeyPath;
        err ← callE (os_Open pub);
        match err with
        | Some err => mret (Some err)
        | None =>
          (* f.Close() is deferred to the return of ssh *)
          r ← callS (io_ReadAll pub);
          match r with
          | Err err => callE (File_Close pub);; mret (Some err)
          | Ok b =>
            assign (set_SSHPublicKey (TrimSpace b));;
            callE (File_Close pub);;
            mret None
          end
        end
      end
    end
  end.

Definition sshPort : Prog (option error) :=
  r ← callI (utils_FindUsablePort 2233);
  match r with
  | Err err => mret (Some err)
  | Ok port => assign (set_SSHPort port);; mret None
  end.

Definition logPath : Prog (option error) :=
  r ← filepath_Abs (Flag.logPath fl);
  match r with
  | Err err => mret (Some err)
  | Ok p =>
    assign (set_LogPath p);;
    lp ← get LogPath;
    callE (os_MkdirAll lp (octal 7 5 5))
  end.

Definition target : Prog (option error) :=
  r ← filepath_Abs (Flag.targetPath fl);
  match r with
  | Err err => mret (Some err)
  | Ok p =>
    assign (set_TargetPath p);;
    tp ← get TargetPath;
    err ← callE (os_MkdirAll tp (octal 7 5 5));
    match err with
    | Some err => mret (Some err)
    | None =>
      tp ← get TargetPath;
      assign (set_VersionsPath (Join [tp; "versions.json"]));;
      tp ← get TargetPath;
      assign (set_KernelPath (Join [tp; Base (Flag.kernelPath fl)]));;
      tp ← get TargetPath;
      assign (set_InitrdPath (Join [tp; Base (Flag.initrdPath fl)]));;
      tp ← get TargetPath;
      assign (set_RootfsPath (Join [tp; Base (Flag.rootfsPath fl)]));;
      tp ← get TargetPath;
      assign (set_DiskDataPath (Join [tp; "data.img"]));;
      tp ← get TargetPath;
      assign (set_DiskTmpPath (Join [tp; "tmp.img"]));;
      tp ← get TargetPath;
      dd ← get DiskDataPath;
      vp ← get VersionsPath;
      let t := mkTarget tp (Flag.kernelPath fl) (Flag.initrdPath fl)
                        (Flag.rootfsPath fl) dd vp in
      err ← callE (newTarget t);
      match err with
      | Some err => mret (Some err)
      | None =>
        err ← callE (target_handle t);
        match err with
        | Some err => mret (Some err)
        | None =>
          tmp ← get DiskTmpPath;
          err ← callE (os_Stat tmp);
          match err with
          | Some _ =>
            tmp ← get DiskTmpPath;
            err ← callE (utils_CreateSparseFile tmp (1 * 1024 * 1024 * 1024 * 1024));
            match err with
            | Some err => mret (Some err)
            | None => mret None
            end
          | None => mret None
          end
        end
      end
    end
  end.

Definition PreSetup (sched : list nat) : Prog (option error) :=
  let g := errgroup.zero in
  let g := errgroup.Go g basic in
  let g := errgroup.Go g logPath in
  errgroup.Wait sched g.

(** [sshSched] is the schedule of the error group inside [ssh]. *)
Definition Setup (sched sshSched : list nat) : Prog (option error) :=
  let g := errgroup.zero in
  let g := errgroup.Go g socketPath in
  let g := errgroup.Go g (ssh sshSched) in
  let g := errgroup.Go g sshPort in
  let g := errgroup.Go g target in
  errgroup.Wait sched g.

End Steps.

(** ** An in-memory host

    A file tree keyed by clean absolute paths, and the answers of the parts
    of the machine that are not files. *)

Module MemFS.

Inductive node : Type :=
| Dir
| File (data : string)
| Sparse (size : Z).

Record t : Type := mk {
  files : gmap string node;
  (** the working directory, or the error of [os.Getwd] *)
  cwd : result string;
  (** the answer of [os.Executable] *)
  executable : result string;
  (** the answer of [filepath.EvalSymlinks] *)
  realpath : string -> result string;
  (** the private and the public key text the key generator writes next *)
  keygen : result (string * string);
  (** the outcome of the reconciliation of the target *)
  reconcile : option error;
  (** the TCP ports that are bound *)
  busy : list Z
}.

Definition with_files (fs : gmap string node) (w : t) : t :=
  mk fs (cwd w) (executable w) (realpath w) (keygen w) (reconcile w) (busy w).

Definition ENOENT : error := Errno "no such file or directory".
Definition ENOTDIR : error := Errno "not a directory".
Definition EISDIR : error := Errno "is a directory".
Definition EINVAL : error := Errno "invalid argument".

(** The key of a path: cleaned, and taken from the working directory when
    it is relative. *)
Definition locate (w : t) (p : string) : result string :=
  if IsAbs p then Ok (Clean p)
  else match cwd w with
       | Ok wd => Ok (Join [wd; p])
       | Err e => Err e
       end.

Definition child (dir : string) (e : list ascii) : string :=
  if String.eqb dir "/" then "/" +:+ of_bytes e else dir +:+ "/" +:+ of_bytes e.

Fixpoint chain (dir : string) (es : list (list ascii)) : list string :=
  match es with
  | [] => []
  | e :: es' => let d := child dir e in d :: chain d es'
  end.

(** The directories from the root down to [p], [p] included. *)
Definition ancestors (p : string) : list string :=
  "/" :: chain "/" (List.filter (fun e => negb (Nat.eqb (length e) 0)) (splitSlash (bytes p))).

Definition parent (p : string) : string :=
  List.last (removelast (ancestors p)) "/".

(** [k] is [p] or lies below it. *)
Definition under (p k : string) : bool :=
  String.eqb k p || HasPrefix k (if String.eqb p "/" then "/" else p +:+ "/").

Definition is_dir (fs : gmap string node) (p : string) : bool :=
  match fs !! p with Some Dir => true | _ => false end.

Definition exists_at (fs : gmap string node) (p : string) : bool :=
  match fs !! p with Some _ => true | None => false end.

(** [os.MkdirAll]: every missing directory down to the path is made; a
    file on the way is an error. *)
Definition mkdirAll (p : string) (fs : gmap string node) : option error * gmap string node :=
  let ds := ancestors p in
  if forallb (fun d => match fs !! d with Some Dir | None => true | _ => false end) ds
  then (None, foldr (fun d m => <[d := Dir]> m) fs ds)
  else (Some ENOTDIR, fs).

(** [os.RemoveAll]: the path and all below it go; a path that is not there
    is no error. *)
Definition removeAll (p : string) (fs : gmap string node) : gmap string node :=
  filter (fun kv => under p kv.1 = false) fs.

Definition endsWithDot (p : string) : bool :=
  String.eqb p "." ||
  match rev (bytes p) with
  | a :: b :: _ => Ascii.eqb a "."%char && Ascii.eqb b slash
  | _ => false
  end.

Definition onPath (w : t) (p : string)
    (f : string -> gmap string node -> option error * gmap string node)
  : option error * t :=
  match locate w p with
  | Err e => (Some e, w)
  | Ok q => let (r, fs) := f q (files w) in (r, with_files fs w)
  end.

Definition write (q : string) (n : node) (fs : gmap string node)
  : option error * gmap string node :=
  if is_dir fs q then (Some EISDIR, fs)
  else if is_dir fs (parent q) then (None, <[q := n]> fs)
  else (Some ENOENT, fs).

(** Modelled from the spec: [utils.GenerateSSHKey] of package utils, which
    "writes a private/public key pair at deterministic sibling paths":
    [dir/name] and [dir/name.pub]. *)
Definition generateSSHKey (dir name : string) (w : t) : option error * t :=
  match keygen w with
  | Err e => (Some e, w)
  | Ok (priv, pub) =>
    onPath w (Join [dir; name]) (fun q1 fs =>
      match write q1 (File priv) fs with
      | (Some e, _) => (Some e, fs)
      | (None, fs1) =>
        match locate w (Join [dir; name +:+ ".pub"]) with
        | Err e => (Some e, fs)
        | Ok q2 => write q2 (File pub) fs1
        end
      end)
  end.

Definition ensureFile (q : string) (n : node) (fs : gmap string node) : gmap string node :=
  if exists_at fs q then fs else <[q := n]> fs.

(** Modelled from the spec: the method [handle] of the target of package cli, the
    reconciliation engine, which "returns success only when all three boot
    assets and the manifest are mutually consistent and present at the
    computed canonical paths" and sees to it "that a primary data disk
    image exists". *)
Definition handle (tg : targetT) (w : t) : option error * t :=
  match reconcile w with
  | Some e => (Some e, w)
  | None =>
    if is_dir (files w) (tTargetPath tg) then
      let canon src := Join [tTargetPath tg; Base src] in
      let fs := ensureFile (canon (tKernelPath tg)) (File "") (files w) in
      let fs := ensureFile (canon (tInitrdPath tg)) (File "") fs in
      let fs := ensureFile (canon (tRootfsPath tg)) (File "") fs in
      let fs := ensureFile (tDiskDataPath tg) (Sparse 0) fs in
      let fs := ensureFile (tVersionsPath tg) (File "") fs in
      (None, with_files fs w)
    else (Some ENOENT, w)
  end.

(** Modelled from the spec: [utils.CreateSparseFile] of package utils, the
    "sparse allocation of exactly sizeBytes" at the path. *)
Definition createSparseFile (p : string) (size : Z) (w : t) : option error * t :=
  onPath w p (fun q fs => write q (Sparse size) fs).

(** Modelled from the spec: [utils.FindUsablePort] of package utils, which
    starts "its search at preferred", advances by a linear scan "until one
    succeeds or the search space is exhausted". *)
Fixpoint scanPorts (n : nat) (q : Z) (bound : list Z) : result Z :=
  match n with
  | O => Err (Errno "no usable port")
  | S n' => if existsb (Z.eqb q) bound then scanPorts n' (q + 1) bound else Ok q
  end.

Definition findUsablePort (start : Z) (w : t) : result Z :=
  scanPorts (Z.to_nat (65536 - start)) start (busy w).

Definition zeros (n : Z) : string := of_bytes (repeat zero (Z.to_nat n)).

Definition readAll (w : t) (p : string) : result string :=
  match locate w p with
  | Err e => Err e
  | Ok q =>
    match files w !! q with
    | Some (File data) => Ok data
    | Some (Sparse n) => Ok (zeros n)
    | Some Dir => Err EISDIR
    | None => Err ENOENT
    end
  end.

Definition stat (w : t) (p : string) : option error :=
  match locate w p with
  | Err e => Some e
  | Ok q => if exists_at (files w) q then None else Some ENOENT
  end.

#[global] Instance host : Host t := {
  hostE c w :=
    match c with
    | os_MkdirAll p _ => onPath w p mkdirAll
    | os_RemoveAll p =>
      if String.eqb p "" then (None, w)
      else if endsWithDot p then (Some EINVAL, w)
      else onPath w p (fun q fs => (None, removeAll q fs))
    | os_Stat p => (stat w p, w)
    | os_Open p => (stat w p, w)
    | File_Close _ => (None, w)
    | utils_GenerateSSHKey dir name => generateSSHKey dir name w
    | newTarget _ => (None, w)
    | target_handle tg => handle tg w
    | utils_CreateSparseFile p size => createSparseFile p size w
    end;
  hostS c w :=
    match c with
    | os_Executable => (executable w, w)
    | filepath_EvalSymlinks p => (realpath w p, w)
    | os_Getwd => (cwd w, w)
    | io_ReadAll p => (readAll w p, w)
    end;
  hostI c w :=
    match c with
    | utils_FindUsablePort start => (findUsablePort start w, w)
    end
}.

End MemFS.

(** ** Reasoning about interleaved steps

    [wpi R G p Q s]: from [s], with the other goroutines changing the state
    within [R] between the steps of [p], every step of [p] stays within [G]
    and [p] ends in a state that satisfies [Q]. *)

Section Logic.
Context {W : Type} {H : Host W}.

Definition rel : Type := state W -> state W -> Prop.

Fixpoint wpi {A} (R G : rel) (p : Prog A) (Q : A -> state W -> Prop) (s : state W)
  : Prop :=
  match p with
  | Ret a => forall s1, R s s1 -> Q a s1
  | CallE c k =>
    forall s1, R s s1 ->
      G s1 (stepE c s1).2 /\ wpi R G (k (stepE c s1).1) Q (stepE c s1).2
  | CallS c k =>
    forall s1, R s s1 ->
      G s1 (stepS c s1).2 /\ wpi R G (k (stepS c s1).1) Q (stepS c s1).2
  | CallI c k =>
    forall s1, R s s1 ->
      G s1 (stepI c s1).2 /\ wpi R G (k (stepI c s1).1) Q (stepI c s1).2
  | Load k => forall s1, R s s1 -> wpi R G (k (ctx s1)) Q s1
  | Store f k =>
    forall s1, R s s1 -> G s1 (update f s1) /\ wpi R G k Q (update f s1)
  end.

(** What the goroutines of a group have promised: the finished ones are the
    goroutines [L], and each kept its own postcondition. *)
Definition joined (Ql : nat -> option error -> state W -> Prop) (L : list nat)
    (done : list errgroup.finished) (s : state W) : Prop :=
  Permutation (map fst done) L /\ Forall (fun d => Ql d.1 d.2 s) done.

(** The state a goroutine is in: a running one will satisfy its triple, a
    finished one is a returned program. *)
Definition promised (Rl Gl : nat -> rel) (Ql : nat -> option error -> state W -> Prop)
    (s : state W) (t : errgroup.task) : Prop :=
  wpi (Rl t.1) (Gl t.1) t.2 (Ql t.1) s.

Definition returned (d : errgroup.finished) : errgroup.task := (d.1, Ret d.2).

(** The goroutines other than [i], running or finished. *)
Definition others (Rl Gl : nat -> rel) (Ql : nat -> option error -> state W -> Prop)
    (i : nat) (ts : list errgroup.task) (s : state W) : Prop :=
  Forall (fun t => i <> t.1 /\ promised Rl Gl Ql s t) ts.

End Logic.

(** ** Who writes which path of the Context

    The steps write disjoint fields.  [owned k c] lists the fields
    step [k] assigns, by type: 0 [basic], 1 [logPath], 2 [socketPath],
    3 [ssh], 4 [sshPort], 5 [target]. *)

Definition owned (k : nat) (c : Context) : list string * list Z * list bool :=
  match k with
  | 0%nat => ([Name c; EventSocketPath c; ExecutablePath c; LockFile c],
              [CPUS c; MemoryBytes c; BindPID c],
              [IsCliMode c; PowerSaveMode c; KernelDebug c])
  | 1%nat => ([LogPath c], [], [])
  | 2%nat => ([SocketPath c; ForwardSocketPath c; SocketNetworkPath c;
               SocketInitrdVSockPath c; SocketReadyPath c; RestfulSocketPath c;
               TimeSyncSocketPath c; SSHAuthSocketPath c; Endpoint c], [], [])
  | 3%nat => ([SSHKeyPath c; SSHPrivateKeyPath c; SSHPublicKeyPath c; SSHPublicKey c],
              [], [])
  | 4%nat => ([], [SSHPort c], [])
  | 5%nat => ([TargetPath c; VersionsPath c; KernelPath c; InitrdPath c;
               RootfsPath c; DiskDataPath c; DiskTmpPath c], [], [])
  | _ => ([], [], [])
  end.

Section Ownership.
Context {W : Type}.

(** What step [k] relies on: nobody else assigns its fields, and the trace
    only grows. *)
Definition rely (k : nat) (s s' : state W) : Prop :=
  owned k (ctx s) = owned k (ctx s') /\ trace s `prefix_of` trace s'.

(** What step [k] guarantees: it assigns no field of another step. *)
Definition guar (k : nat) (s s' : state W) : Prop :=
  (forall j, j <> k -> owned j (ctx s) = owned j (ctx s')) /\
  trace s `prefix_of` trace s'.

(** Step [k] running by itself: between its steps nothing happens. *)
Definition solo (k : nat) (s s' : state W) : Prop :=
  owned k (ctx s) = owned k (ctx s') /\ trace s = trace s'.

(** No promise at all. *)
Definition anything (s s' : state W) : Prop := True.

(** A goroutine that leaves the Context alone. *)
Definition reads (s s' : state W) : Prop :=
  ctx s = ctx s' /\ trace s `prefix_of` trace s'.

End Ownership.

(** ** Vocabulary of the statements *)

(** The assignments [socketPath] makes for the socket directory [p]. *)
Definition socketFields (fl : Flag.t) (p : string) (c : Context) : Prop :=
  SocketPath c = p /\
  ForwardSocketPath c = Join [p; Flag.name fl +:+ "-podman.sock"] /\
  SocketNetworkPath c = Join [p; Flag.name fl +:+ "-vfkit-network.sock"] /\
  SocketInitrdVSockPath c = Join [p; Flag.name fl +:+ "-initrd-vsock.sock"] /\
  SocketReadyPath c = Join [p; Flag.name fl +:+ "-ready.sock"] /\
  RestfulSocketPath c = Join [p; Flag.name fl +:+ "-restful.sock"] /\
  TimeSyncSocketPath c = Join [p; Flag.name fl +:+ "-sync-time.sock"] /\
  SSHAuthSocketPath c = Join [p; Flag.name fl +:+ "-ssh-auth.sock"] /\
  Endpoint c = "unix://" +:+ SocketNetworkPath c.

(** The assignments [basic] makes before its first call. *)
Definition flagFields (fl : Flag.t) (c : Context) : Prop :=
  Name c = Flag.name fl /\
  CPUS c = Flag.cpus fl /\
  MemoryBytes c = u64 (u64 (Flag.memory fl * 1024) * 1024) /\
  IsCliMode c = Flag.cliMode fl /\
  BindPID c = Flag.bindPID fl /\
  EventSocketPath c = Flag.eventSocketPath fl /\
  PowerSaveMode c = Flag.powerSaveMode fl /\
  KernelDebug c = Flag.kernelDebug fl.

(** The assignments [target] makes for the target directory [p]. *)
Definition targetFields (fl : Flag.t) (p : string) (c : Context) : Prop :=
  TargetPath c = p /\
  VersionsPath c = Join [p; "versions.json"] /\
  KernelPath c = Join [p; Base (Flag.kernelPath fl)] /\
  InitrdPath c = Join [p; Base (Flag.initrdPath fl)] /\
  RootfsPath c = Join [p; Base (Flag.rootfsPath fl)] /\
  DiskDataPath c = Join [p; "data.img"] /\
  DiskTmpPath c = Join [p; "tmp.img"].

(** The event deletes a file or generates keys. *)
Definition renews (ev : Event) : bool :=
  match ev with
  | EvE (os_RemoveAll _) _ => true
  | EvE (utils_GenerateSSHKey _ _) _ => true
  | _ => false
  end.
Definition isCreateSparseFile (ev : Event) : bool :=
  match ev with EvE (utils_CreateSparseFile _ _) _ => true | _ => false end.


(** ** What a step can do

    The calls a step makes, the error it returns and the Context it leaves,
    case by case. *)

(** [filepath.Abs path]: its calls and its result. *)
Inductive absRun (path : string) : list Event -> result string -> Prop :=
| abs_clean :
    IsAbs path = true -> absRun path [] (Ok (Clean path))
| abs_join wd :
    IsAbs path = false ->
    absRun path [EvS os_Getwd (Ok wd)] (Ok (Join [wd; path]))
| abs_err e :
    IsAbs path = false -> absRun path [EvS os_Getwd (Err e)] (Err e).

(** A step that starts with [filepath.Abs path] and goes on as [rest]. *)
Definition afterAbs (path : string)
    (rest : result string -> list Event -> option error -> Context -> Prop)
    (evs : list Event) (r : option error) (c : Context) : Prop :=
  exists pre res post,
    absRun path pre res /\ evs = pre ++ post /\ rest res post r c.

Inductive targetRest (fl : Flag.t) :
    result string -> list Event -> option error -> Context -> Prop :=
| tg_abs e c :
    targetRest fl (Err e) [] (Some e) c
| tg_mkdir p e c :
    TargetPath c = p ->
    targetRest fl (Ok p) [EvE (os_MkdirAll p (octal 7 5 5)) (Some e)] (Some e) c
| tg_new p e c t :
    targetFields fl p c ->
    t = mkTarget p (Flag.kernelPath fl) (Flag.initrdPath fl) (Flag.rootfsPath fl)
                 (Join [p; "data.img"]) (Join [p; "versions.json"]) ->
    targetRest fl (Ok p)
      [EvE (os_MkdirAll p (octal 7 5 5)) None; EvE (newTarget t) (Some e)] (Some e) c
| tg_handle p e c t :
    targetFields fl p c ->
    t = mkTarget p (Flag.kernelPath fl) (Flag.initrdPath fl) (Flag.rootfsPath fl)
                 (Join [p; "data.img"]) (Join [p; "versions.json"]) ->
    targetRest fl (Ok p)
      [EvE (os_MkdirAll p (octal 7 5 5)) None; EvE (newTarget t) None;
       EvE (target_handle t) (Some e)] (Some e) c
| tg_present p c t :
    targetFields fl p c ->
    t = mkTarget p (Flag.kernelPath fl) (Flag.initrdPath fl) (Flag.rootfsPath fl)
                 (Join [p; "data.img"]) (Join [p; "versions.json"]) ->
    targetRest fl (Ok p)
      [EvE (os_MkdirAll p (octal 7 5 5)) None; EvE (newTarget t) None;
       EvE (target_handle t) None; EvE (os_Stat (Join [p; "tmp.img"])) None] None c
| tg_create p e r c t :
    targetFields fl p c ->
    t = mkTarget p (Flag.kernelPath fl) (Flag.initrdPath fl) (Flag.rootfsPath fl)
                 (Join [p; "data.img"]) (Join [p; "versions.json"]) ->
    targetRest fl (Ok p)
      [EvE (os_MkdirAll p (octal 7 5 5)) None; EvE (newTarget t) None;
       EvE (target_handle t) None; EvE (os_Stat (Join [p; "tmp.img"])) (Some e);
       EvE (utils_CreateSparseFile (Join [p; "tmp.img"]) (2 ^ 40)) r] r c.


Inductive socketRest (fl : Flag.t) :
    result string -> list Event -> option error -> Context -> Prop :=
| sk_abs e c :
    socketRest fl (Err e) [] (Some e) c
| sk_remove p e c :
    socketFields fl p c ->
    socketRest fl (Ok p) [EvE (os_RemoveAll p) (Some e)] (Some e) c
| sk_mkdir p r c :
    socketFields fl p c ->
    socketRest fl (Ok p)
      [EvE (os_RemoveAll p) None; EvE (os_MkdirAll p (octal 7 5 5)) r] r c.

Inductive logRest :
    result string -> list Event -> option error -> Context -> Prop :=
| lg_abs e c :
    logRest (Err e) [] (Some e) c
| lg_mkdir p r c :
    LogPath c = p ->
    logRest (Ok p) [EvE (os_MkdirAll p (octal 7 5 5)) r] r c.

Inductive sshPortOutcome : list Event -> option error -> Context -> Prop :=
| port_err e c :
    sshPortOutcome [EvI (utils_FindUsablePort 2233) (Err e)] (Some e) c
| port_ok port c :
    SSHPort c = port ->
    sshPortOutcome [EvI (utils_FindUsablePort 2233) (Ok port)] None c.

(** The lock file of the executable path [exe] and the process [name]. *)
Definition lockFileOf (exe name : string) : string :=
  "/tmp/ovm/" +:+ Hex.EncodeToString (MD5.Sum (bytes exe)) +:+ "-" +:+ name +:+ ".pid".

Inductive basicOutcome (unicodeLower : string -> string) (fl : Flag.t) :
    list Event -> option error -> Context -> Prop :=
| bs_mkdir e c :
    flagFields fl c ->
    basicOutcome unicodeLower fl
      [EvE (os_MkdirAll "/tmp/ovm" (octal 7 5 5)) (Some e)] (Some e) c
| bs_executable e c :
    flagFields fl c ->
    basicOutcome unicodeLower fl
      [EvE (os_MkdirAll "/tmp/ovm" (octal 7 5 5)) None; EvS os_Executable (Err e)]
      (Some (fmt_Errorf "get executable path error: %w" e)) c
| bs_symlinks p e c :
    flagFields fl c ->
    basicOutcome unicodeLower fl
      [EvE (os_MkdirAll "/tmp/ovm" (octal 7 5 5)) None; EvS os_Executable (Ok p);
       EvS (filepath_EvalSymlinks p) (Err e)]
      (Some (fmt_Errorf "eval symlink error: %w" e)) c
| bs_ok p q c :
    flagFields fl c ->
    ExecutablePath c = ToLower unicodeLower q ->
    LockFile c = lockFileOf (ToLower unicodeLower q) (Flag.name fl) ->
    basicOutcome unicodeLower fl
      [EvE (os_MkdirAll "/tmp/ovm" (octal 7 5 5)) None; EvS os_Executable (Ok p);
       EvS (filepath_EvalSymlinks p) (Ok q)]
      None c.


(** The assignments [ssh] makes for the key directory [p]. *)
Definition keyFields (fl : Flag.t) (p : string) (c : Context) : Prop :=
  SSHKeyPath c = p /\
  SSHPrivateKeyPath c = Join [p; Flag.name fl] /\
  SSHPublicKeyPath c = Join [p; Flag.name fl +:+ ".pub"].

(** The last block of [ssh]: the public key file is opened, read and
    closed. *)
Inductive sshRead (pub : string) : list Event -> option error -> Context -> Prop :=
| rd_open e c :
    sshRead pub [EvE (os_Open pub) (Some e)] (Some e) c
| rd_read e r c :
    sshRead pub
      [EvE (os_Open pub) None; EvS (io_ReadAll pub) (Err e); EvE (File_Close pub) r]
      (Some e) c
| rd_ok b r c :
    SSHPublicKey c = TrimSpace b ->
    sshRead pub
      [EvE (os_Open pub) None; EvS (io_ReadAll pub) (Ok b); EvE (File_Close pub) r]
      None c.

Inductive sshRest (fl : Flag.t) :
    result string -> list Event -> option error -> Context -> Prop :=
| ssh_abs e c :
    sshRest fl (Err e) [] (Some e) c
| ssh_mkdir p e c :
    keyFields fl p c ->
    sshRest fl (Ok p) [EvE (os_MkdirAll p (octal 7 0 0)) (Some e)] (Some e) c
| ssh_keep p stats evs r c :
    keyFields fl p c ->
    stats ≡ₚ [EvE (os_Stat (Join [p; Flag.name fl])) None;
              EvE (os_Stat (Join [p; Flag.name fl +:+ ".pub"])) None] ->
    sshRead (Join [p; Flag.name fl +:+ ".pub"]) evs r c ->
    sshRest fl (Ok p) (EvE (os_MkdirAll p (octal 7 0 0)) None :: stats ++ evs) r c
| ssh_generate_err p r0 r1 stats d1 d2 e c :
    keyFields fl p c ->
    stats ≡ₚ [EvE (os_Stat (Join [p; Flag.name fl])) r0;
              EvE (os_Stat (Join [p; Flag.name fl +:+ ".pub"])) r1] ->
    r0 <> None \/ r1 <> None ->
    sshRest fl (Ok p)
      (EvE (os_MkdirAll p (octal 7 0 0)) None :: stats ++
       [EvE (os_RemoveAll (Join [p; Flag.name fl])) d1;
        EvE (os_RemoveAll (Join [p; Flag.name fl +:+ ".pub"])) d2;
        EvE (utils_GenerateSSHKey p (Flag.name fl)) (Some e)])
      (Some e) c
| ssh_generate p r0 r1 stats d1 d2 evs r c :
    keyFields fl p c ->
    stats ≡ₚ [EvE (os_Stat (Join [p; Flag.name fl])) r0;
              EvE (os_Stat (Join [p; Flag.name fl +:+ ".pub"])) r1] ->
    r0 <> None \/ r1 <> None ->
    sshRead (Join [p; Flag.name fl +:+ ".pub"]) evs r c ->
    sshRest fl (Ok p)
      (EvE (os_MkdirAll p (octal 7 0 0)) None :: stats ++
       [EvE (os_RemoveAll (Join [p; Flag.name fl])) d1;
        EvE (os_RemoveAll (Join [p; Flag.name fl +:+ ".pub"])) d2;
        EvE (utils_GenerateSSHKey p (Flag.name fl)) None] ++ evs)
      r c.

(** The two goroutines that stat the key files: each reads its path from
    the Context and makes one call.  Whatever the schedule, the group is one
    of the six orders of the four steps, with the two results recorded in
    one order or the other. *)
Definition reader (a : Context -> ErrCall) : Prog (option error) :=
  Load (fun c => CallE (a c) Ret).

Inductive linearisation (a b : Context -> ErrCall) :
    Prog (list errgroup.finished) -> Prop :=
| lin_l0c0l1c1_ab :
    linearisation a b
      (Load (fun c0 => CallE (a c0) (fun ra => Load (fun c1 => CallE (b c1) (fun rb => Ret [(0%nat, ra); (1%nat, rb)])))))
| lin_l0c0l1c1_ba :
    linearisation a b
      (Load (fun c0 => CallE (a c0) (fun ra => Load (fun c1 => CallE (b c1) (fun rb => Ret [(1%nat, rb); (0%nat, ra)])))))
| lin_l0l1c0c1_ab :
    linearisation a b
      (Load (fun c0 => Load (fun c1 => CallE (a c0) (fun ra => CallE (b c1) (fun rb => Ret [(0%nat, ra); (1%nat, rb)])))))
| lin_l0l1c0c1_ba :
    linearisation a b
      (Load (fun c0 => Load (fun c1 => CallE (a c0) (fun ra => CallE (b c1) (fun rb => Ret [(1%nat, rb); (0%nat, ra)])))))
| lin_l0l1c1c0_ab :
    linearisation a b
      (Load (fun c0 => Load (fun c1 => CallE (b c1) (fun rb => CallE (a c0) (fun ra => Ret [(0%nat, ra); (1%nat, rb)])))))
| lin_l0l1c1c0_ba :
    linearisation a b
      (Load (fun c0 => Load (fun c1 => CallE (b c1) (fun rb => CallE (a c0) (fun ra => Ret [(1%nat, rb); (0%nat, ra)])))))
| lin_l1l0c0c1_ab :
    linearisation a b
      (Load (fun c1 => Load (fun c0 => CallE (a c0) (fun ra => CallE (b c1) (fun rb => Ret [(0%nat, ra); (1%nat, rb)])))))
| lin_l1l0c0c1_ba :
    linearisation a b
      (Load (fun c1 => Load (fun c0 => CallE (a c0) (fun ra => CallE (b c1) (fun rb => Ret [(1%nat, rb); (0%nat, ra)])))))
| lin_l1l0c1c0_ab :
    linearisation a b
      (Load (fun c1 => Load (fun c0 => CallE (b c1) (fun rb => CallE (a c0) (fun ra => Ret [(0%nat, ra); (1%nat, rb)])))))
| lin_l1l0c1c0_ba :
    linearisation a b
      (Load (fun c1 => Load (fun c0 => CallE (b c1) (fun rb => CallE (a c0) (fun ra => Ret [(1%nat, rb); (0%nat, ra)])))))
| lin_l1c1l0c0_ab :
    linearisation a b
      (Load (fun c1 => CallE (b c1) (fun rb => Load (fun c0 => CallE (a c0) (fun ra => Ret [(0%nat, ra); (1%nat, rb)])))))
| lin_l1c1l0c0_ba :
    linearisation a b
      (Load (fun c1 => CallE (b c1) (fun rb => Load (fun c0 => CallE (a c0) (fun ra => Ret [(1%nat, rb); (0%nat, ra)]))))).

#[global] Arguments Join : simpl never.
#[global] Arguments Clean : simpl never.
#[global] Arguments Base : simpl never.
#[global] Arguments TrimSpace : simpl never.
#[global] Arguments ToLower : simpl never.
#[global] Arguments MD5.Sum : simpl never.
#[global] Arguments Hex.EncodeToString : simpl never.
#[global] Arguments octal : simpl never.
#[global] Arguments u64 : simpl never.
#[global] Arguments IsAbs : simpl never.


(** ** The groups of the entry points *)

(** The goroutines of the two entry points, in the order of their [Go]. *)
Definition preSetupGroup (unicodeLower : string -> string) (fl : Flag.t)
  : errgroup.Group :=
  [basic unicodeLower fl; logPath fl].
Definition setupGroup (fl : Flag.t) (sshSched : list nat) : errgroup.Group :=
  [socketPath fl; ssh fl sshSched; sshPort; target fl].

(** What [Wait] returns for the results [done], listed in the order in
    which the goroutines finished: nil exactly when all are nil, and
    otherwise the error of the first one that failed. *)
Definition firstWins (n : nat) (done : list errgroup.finished) (r : option error) : Prop :=
  done.*1 ≡ₚ seq 0 n /\
  (r = None <-> forall i ri, In (i, ri) done -> ri = None) /\
  (forall e, r = Some e ->
     exists pre i post,
       done = pre ++ (i, Some e) :: post /\ Forall (fun d => d.2 = None) pre).

(** ** Absolute paths and made directories *)

(** The working directories and the resolved executable paths the host
    answered with are absolute. *)
Definition honest (tr : list Event) : Prop :=
  (forall wd, In (EvS os_Getwd (Ok wd)) tr -> IsAbs wd = true) /\
  (forall p q, In (EvS (filepath_EvalSymlinks p) (Ok q)) tr -> IsAbs q = true).

(** What step [k] has reached when it returns nil: its paths are absolute
    and its directory has been made. *)
Definition reached (fl : Flag.t) (k : nat) (c : Context) (tr : list Event) : Prop :=
  match k with
  | 0%nat =>
    IsAbs (LockFile c) = true /\ IsAbs (ExecutablePath c) = true /\
    EventSocketPath c = Flag.eventSocketPath fl /\
    In (EvE (os_MkdirAll "/tmp/ovm" (octal 7 5 5)) None) tr
  | 1%nat =>
    IsAbs (LogPath c) = true /\
    In (EvE (os_MkdirAll (LogPath c) (octal 7 5 5)) None) tr
  | 2%nat =>
    IsAbs (SocketPath c) = true /\ IsAbs (ForwardSocketPath c) = true /\
    IsAbs (SocketNetworkPath c) = true /\ IsAbs (SocketInitrdVSockPath c) = true /\
    IsAbs (SocketReadyPath c) = true /\ IsAbs (RestfulSocketPath c) = true /\
    IsAbs (TimeSyncSocketPath c) = true /\ IsAbs (SSHAuthSocketPath c) = true /\
    In (EvE (os_MkdirAll (SocketPath c) (octal 7 5 5)) None) tr
  | 3%nat =>
    IsAbs (SSHKeyPath c) = true /\ IsAbs (SSHPrivateKeyPath c) = true /\
    IsAbs (SSHPublicKeyPath c) = true /\
    In (EvE (os_MkdirAll (SSHKeyPath c) (octal 7 0 0)) None) tr
  | 5%nat =>
    IsAbs (TargetPath c) = true /\ IsAbs (VersionsPath c) = true /\
    IsAbs (KernelPath c) = true /\ IsAbs (InitrdPath c) = true /\
    IsAbs (RootfsPath c) = true /\ IsAbs (DiskDataPath c) = true /\
    IsAbs (DiskTmpPath c) = true /\
    In (EvE (os_MkdirAll (TargetPath c) (octal 7 5 5)) None) tr
  | _ => True
  end.

Definition promise {W : Type} (unicodeLower : string -> string) (fl : Flag.t)
    (k : nat) (r : option error) (s : state W) : Prop :=
  r = None -> honest (trace s) ->
  (forall q, IsAbs q = true -> IsAbs (unicodeLower q) = true) ->
  reached fl k (ctx s) (trace s).


(** [honest], decided. *)
Definition honestb (tr : list Event) : bool :=
  forallb (fun ev =>
    match ev with
    | EvS os_Getwd (Ok wd) => IsAbs wd
    | EvS (filepath_EvalSymlinks _) (Ok q) => IsAbs q
    | _ => true
    end) tr.


(** The fields of the Context that hold a path, but for EventSocketPath. *)
Definition pathFields (c : Context) : list string :=
  [LockFile c; ExecutablePath c; LogPath c; SocketPath c; ForwardSocketPath c;
   SocketNetworkPath c; SocketInitrdVSockPath c; SocketReadyPath c;
   RestfulSocketPath c; TimeSyncSocketPath c; SSHAuthSocketPath c;
   SSHKeyPath c; SSHPrivateKeyPath c; SSHPublicKeyPath c; TargetPath c;
   VersionsPath c; KernelPath c; InitrdPath c; RootfsPath c; DiskDataPath c;
   DiskTmpPath c].

(** The directories the steps make, with the permissions they ask for. *)
Definition madeDirs (c : Context) : list (string * Z) :=
  [("/tmp/ovm", octal 7 5 5); (LogPath c, octal 7 5 5);
   (SocketPath c, octal 7 5 5); (SSHKeyPath c, octal 7 0 0);
   (TargetPath c, octal 7 5 5)].

(** A group that leaves the fields of the steps [ks] alone. *)
Definition keeps {W : Type} (ks : list nat) (s s' : state W) : Prop :=
  (forall k, In k ks -> owned k (ctx s) = owned k (ctx s')) /\
  trace s `prefix_of` trace s'.


(** ** What the steps derive *)

(** What step [k] has derived when it returns [r]: the assignments of
    [basic] from the flags are made whatever [r] is, the others are stated
    for a step that returns nil. *)
Definition derived (unicodeLower : string -> string) (fl : Flag.t) (k : nat)
    (r : option error) (c : Context) (tr : list Event) : Prop :=
  match k with
  | 0%nat =>
    flagFields fl c /\
    (r = None ->
     exists p q, In (EvS (filepath_EvalSymlinks p) (Ok q)) tr /\
       ExecutablePath c = ToLower unicodeLower q /\
       LockFile c = lockFileOf (ToLower unicodeLower q) (Flag.name fl))
  | 1%nat =>
    r = None ->
    (IsAbs (Flag.logPath fl) = true /\ LogPath c = Clean (Flag.logPath fl)) \/
    (exists wd, In (EvS os_Getwd (Ok wd)) tr /\ LogPath c = Join [wd; Flag.logPath fl])
  | 2%nat => r = None -> socketFields fl (SocketPath c) c
  | 3%nat =>
    r = None ->
    keyFields fl (SSHKeyPath c) c /\
    exists b, In (EvS (io_ReadAll (SSHPublicKeyPath c)) (Ok b)) tr /\
              SSHPublicKey c = TrimSpace b
  | 4%nat =>
    r = None ->
    exists port, In (EvI (utils_FindUsablePort 2233) (Ok port)) tr /\ SSHPort c = port
  | 5%nat => r = None -> targetFields fl (TargetPath c) c
  | _ => True
  end.

Definition result_of {W : Type} (unicodeLower : string -> string) (fl : Flag.t)
    (k : nat) (r : option error) (s : state W) : Prop :=
  derived unicodeLower fl k r (ctx s) (trace s).


(** ** Counting the events of a trace *)

(** How many events of a trace satisfy [f]. *)
Definition count (f : Event -> bool) (tr : list Event) : nat :=
  length (List.filter f tr).

Definition isOpen (ev : Event) : bool :=
  match ev with EvE (os_Open _) _ => true | _ => false end.
Definition isOpened (ev : Event) : bool :=
  match ev with EvE (os_Open _) None => true | _ => false end.
Definition isRead (ev : Event) : bool :=
  match ev with EvS (io_ReadAll _) _ => true | _ => false end.
Definition isClose (ev : Event) : bool :=
  match ev with EvE (File_Close _) _ => true | _ => false end.
Definition isGenerate (ev : Event) : bool :=
  match ev with EvE (utils_GenerateSSHKey _ _) _ => true | _ => false end.
Definition isRemoveAll (ev : Event) : bool :=
  match ev with EvE (os_RemoveAll _) _ => true | _ => false end.


(** ** Classes of bytes *)

(** An upper-case ASCII letter. *)
Definition isUpper (a : ascii) : bool := (65 <=? byteZ a) && (byteZ a <=? 90).

(** One of the six ASCII white-space bytes: space, and tab to carriage
    return. *)
Definition isAsciiSpace (a : ascii) : bool :=
  (byteZ a =? 32) || ((9 <=? byteZ a) && (byteZ a <=? 13)).


(** No separator in the bytes. *)
Definition slashFree (l : list ascii) : bool :=
  forallb (fun a => negb (Ascii.eqb a slash)) l.


(** The suffixes of the seven sockets. *)
Definition socketSuffixes : list string :=
  ["-podman.sock"; "-vfkit-network.sock"; "-initrd-vsock.sock"; "-ready.sock";
   "-restful.sock"; "-sync-time.sock"; "-ssh-auth.sock"].


(** ** Example machines *)

Module Example.

(** Lowering of the letters outside ASCII: the paths of the examples have
    none. *)
Definition lower (s : string) : string := s.

Definition flags : Flag.t :=
  Flag.mk "vm" 2 4096 false 0 "/run/ovm/event.sock" false false
    "/run/ovm/socket" "/home/user/.ssh/ovm" "/var/log/ovm" "/var/lib/ovm"
    "/downloads/bzImage" "/downloads/initrd.gz" "/downloads/rootfs.erofs".

(** The flags of a run whose log directory lies in its socket directory and
    whose event socket is given relative to the working directory. *)
Definition nested : Flag.t :=
  Flag.mk "vm" 2 4096 false 0 "event.sock" false false
    "/run/ovm" "/home/user/.ssh/ovm" "/run/ovm/log" "/var/lib/ovm"
    "/downloads/bzImage" "/downloads/initrd.gz" "/downloads/rootfs.erofs".

Definition machine : MemFS.t :=
  MemFS.mk {[ "/" := MemFS.Dir ]} (Ok "/home/user") (Ok "/opt/ovm/bin/ovm")
    (fun p => Ok p) (Ok ("PRIVATE KEY", "ssh-ed25519 AAAA vm" +:+ String "010" ""))
    None [2233].

(** Both entry points, one after the other, with the goroutines of each
    group run in the order of their [Go]. *)
Definition boot (fl : Flag.t) (w : MemFS.t) : (option error * option error) * state MemFS.t :=
  let r1 := run (PreSetup lower fl []) (start Init w) in
  let r2 := run (Setup fl [] []) r1.2 in
  ((r1.1, r2.1), r2.2).


(** Flags whose kernel and initrd have the same base name, and whose rootfs
    is called like the data disk. *)
Definition clash : Flag.t :=
  Flag.mk "vm" 2 4096 false 0 "/run/ovm/event.sock" false false
    "/run/ovm/socket" "/home/user/.ssh/ovm" "/var/log/ovm" "/var/lib/ovm"
    "/downloads/kernel/image" "/downloads/initrd/image" "/downloads/data.img".

(** A machine on which neither /run nor /tmp is a directory. *)
Definition broken : MemFS.t :=
  MemFS.with_files {[ "/" := MemFS.Dir; "/run" := MemFS.File ""; "/tmp" := MemFS.File "" ]}
    machine.

(** The same machine with the program installed under a name in capitals. *)
Definition capitals : MemFS.t :=
  MemFS.mk (MemFS.files machine) (MemFS.cwd machine)
    (Ok "/opt/OVM/bin/ovm") (MemFS.realpath machine)
    (MemFS.keygen machine) (MemFS.reconcile machine)
    (MemFS.busy machine).

(** A machine whose working directory is gone, and flags that are all
    relative to it. *)
Definition lost : MemFS.t :=
  MemFS.mk (MemFS.files machine) (Err MemFS.ENOENT) (MemFS.executable machine)
    (MemFS.realpath machine) (MemFS.keygen machine) (MemFS.reconcile machine)
    (MemFS.busy machine).

Definition relative : Flag.t :=
  Flag.mk "vm" 2 4096 false 0 "event.sock" false false
    "run/socket" "keys" "log" "target"
    "downloads/bzImage" "downloads/initrd.gz" "downloads/rootfs.erofs".

End Example.

(** * Properties *)

(** ** The interference logic *)

Section LogicFacts.
Context {W : Type} {H : Host W}.
Implicit Types R G : @rel W.

Lemma wpi_stable {A} R G (p : Prog A) Q s s' :
  Transitive R -> wpi R G p Q s -> R s s' -> wpi R G p Q s'.
Proof.
  intros HT Hw HR. destruct p; simpl in *; intros s1 H1; apply Hw; etrans; eauto.
Qed.

Lemma wpi_mono {A} R G R' G' (p : Prog A) (Q Q' : A -> state W -> Prop) s :
  (forall x y, R' x y -> R x y) ->
  (forall x y, G x y -> G' x y) ->
  (forall a x, Q a x -> Q' a x) ->
  wpi R G p Q s -> wpi R' G' p Q' s.
Proof.
  intros HR HG HQ. revert s.
  induction p as [a|c k IH|c k IH|c k IH|k IH|f k IH]; simpl; intros s Hw s1 H1.
  - eauto.
  - destruct (Hw s1 (HR _ _ H1)); split; eauto.
  - destruct (Hw s1 (HR _ _ H1)); split; eauto.
  - destruct (Hw s1 (HR _ _ H1)); split; eauto.
  - eauto.
  - destruct (Hw s1 (HR _ _ H1)); split; eauto.
Qed.

Lemma wpi_bind {A B} R G (p : Prog A) (f : A -> Prog B) Q s :
  Reflexive R ->
  wpi R G p (fun a s' => wpi R G (f a) Q s') s -> wpi R G (bind p f) Q s.
Proof.
  intros HR. revert s.
  induction p as [a|c k IH|c k IH|c k IH|k IH|g k IH]; simpl; intros s Hw.
  - apply Hw. reflexivity.
  - intros s1 H1. destruct (Hw s1 H1). split; eauto.
  - intros s1 H1. destruct (Hw s1 H1). split; eauto.
  - intros s1 H1. destruct (Hw s1 H1). split; eauto.
  - intros s1 H1. eauto.
  - intros s1 H1. destruct (Hw s1 H1). split; eauto.
Qed.

(** A program that is alone runs as [run] says. *)
Lemma wpi_run {A} R G (p : Prog A) Q s :
  Reflexive R -> PreOrder G ->
  wpi R G p Q s -> Q (run p s).1 (run p s).2 /\ G s (run p s).2.
Proof.
  intros HR HG. revert s.
  induction p as [a|c k IH|c k IH|c k IH|k IH|f k IH]; simpl; intros s Hw.
  - split; [apply Hw|]; reflexivity.
  - destruct (Hw s) as [HG1 Hw1]; [reflexivity|].
    destruct (stepE c s) as [r s']; simpl in *.
    destruct (IH r s' Hw1). split; [done|]. etrans; eauto.
  - destruct (Hw s) as [HG1 Hw1]; [reflexivity|].
    destruct (stepS c s) as [r s']; simpl in *.
    destruct (IH r s' Hw1). split; [done|]. etrans; eauto.
  - destruct (Hw s) as [HG1 Hw1]; [reflexivity|].
    destruct (stepI c s) as [r s']; simpl in *.
    destruct (IH r s' Hw1). split; [done|]. etrans; eauto.
  - apply IH, Hw. reflexivity.
  - destruct (Hw s) as [HG1 Hw1]; [reflexivity|].
    destruct (IH _ Hw1). split; [done|]. etrans; eauto.
Qed.

Lemma run_bind {A B} (p : Prog A) (f : A -> Prog B) (s : state W) :
  run (bind p f) s = run (f (run p s).1) (run p s).2.
Proof.
  revert s. induction p as [a|c k IH|c k IH|c k IH|k IH|g k IH]; simpl; intros s; auto.
  - destruct (stepE c s); auto.
  - destruct (stepS c s); auto.
  - destruct (stepI c s); auto.
Qed.

End LogicFacts.

(** ** The rule for an error group *)

Section Parallel.
Context {W : Type} {H : Host W}.
Variables R G : @rel W.
Variables Rl Gl : nat -> @rel W.
Variable Ql : nat -> option error -> state W -> Prop.
Hypothesis Rl_trans : forall i, Transitive (Rl i).
Hypothesis R_Rl : forall i s s', R s s' -> Rl i s s'.
Hypothesis Gl_G : forall i s s', Gl i s s' -> G s s'.
Hypothesis Gl_Rl : forall i j s s', i <> j -> Gl i s s' -> Rl j s s'.

Abbreviation kept := (promised Rl Gl Ql).

Lemma promised_R s s' t : kept s t -> R s s' -> kept s' t.
Proof. intros Hp HR. eapply wpi_stable; eauto. Qed.

Lemma promised_G i s s' t : kept s t -> Gl i s s' -> i <> t.1 -> kept s' t.
Proof. intros Hp HG Hne. eapply wpi_stable; eauto. Qed.

Abbreviation rest := (others Rl Gl Ql).

Lemma others_R i ts s s' : rest i ts s -> R s s' -> rest i ts s'.
Proof.
  unfold others. intros Ho HR. eapply Forall_impl; [exact Ho|].
  intros t [? ?]; eauto using promised_R.
Qed.

Lemma others_G i ts s s' : rest i ts s -> Gl i s s' -> rest i ts s'.
Proof.
  unfold others. intros Ho HG. eapply Forall_impl; [exact Ho|].
  intros t [? ?]; eauto using promised_G.
Qed.

(** One goroutine runs to its end while the others wait. *)
Lemma wpi_bind_task {B} i (p : Prog (option error)) (f : option error -> Prog B)
    (Post : B -> state W -> Prop) ts s :
  (forall r s', rest i ts s' -> kept s' (i, Ret r) -> wpi R G (f r) Post s') ->
  kept s (i, p) -> rest i ts s -> wpi R G (bind p f) Post s.
Proof.
  intros Hf. revert s.
  induction p as [a|c k IH|c k IH|c k IH|k IH|g k IH]; simpl; intros s Hp Ho.
  - apply Hf; auto.
  - intros s1 H1. destruct (Hp s1 (R_Rl _ _ _ H1)) as [HG Hw].
    split; [eauto|]. apply IH; [exact Hw|]. eauto using others_R, others_G.
  - intros s1 H1. destruct (Hp s1 (R_Rl _ _ _ H1)) as [HG Hw].
    split; [eauto|]. apply IH; [exact Hw|]. eauto using others_R, others_G.
  - intros s1 H1. destruct (Hp s1 (R_Rl _ _ _ H1)) as [HG Hw].
    split; [eauto|]. apply IH; [exact (Hw)|]. eauto using others_R, others_G.
  - intros s1 H1. apply IH; [exact (Hp s1 (R_Rl _ _ _ H1))|]. eauto using others_R.
  - intros s1 H1. destruct (Hp s1 (R_Rl _ _ _ H1)) as [HG Hw].
    split; [eauto|]. apply IH; [exact Hw|]. eauto using others_R, others_G.
Qed.

Lemma list_delete_insert_same {A} (l : list A) j x : delete j (<[j := x]> l) = delete j l.
Proof. revert j. induction l as [|a l IH]; intros [|j]; simpl; auto. by rewrite IH. Qed.

Lemma insert_task_Permutation (ts : list errgroup.task) j t t' :
  ts !! j = Some t -> <[j := t']> ts ≡ₚ t' :: delete j ts.
Proof.
  intros Hj. rewrite <- (list_delete_insert_same ts j t').
  apply delete_Permutation. apply list_lookup_insert_eq. eauto using lookup_lt_Some.
Qed.

Lemma split_task (ts rd : list errgroup.task) j i p s :
  NoDup (ts ++ rd).*1 -> Forall (kept s) (ts ++ rd) -> ts !! j = Some (i, p) ->
  kept s (i, p) /\ rest i (delete j ts ++ rd) s.
Proof.
  intros Hnd Hall Hj.
  pose proof (delete_Permutation _ _ _ Hj) as Hperm.
  rewrite Hperm in Hnd, Hall. simpl in *.
  apply NoDup_cons in Hnd as [Hni Hnd]. apply Forall_cons in Hall as [Hp Hall].
  split; [done|]. unfold others.
  apply Forall_forall. intros t Ht. split.
  - intros ->. apply Hni. apply list_elem_of_fmap. eauto.
  - rewrite Forall_forall in Hall. auto.
Qed.

Lemma others_promised i ts s : rest i ts s -> Forall (kept s) ts.
Proof.
  unfold others. intros Ho. eapply Forall_impl; [exact Ho|].
  by intros t [_ ?].
Qed.

Lemma pick_lookup n (ts : list errgroup.task) :
  ts !! errgroup.pick n ts = None -> ts = [].
Proof.
  unfold errgroup.pick. destruct (Nat.ltb_spec n (length ts)) as [Hlt|Hge].
  - intros Hn. apply lookup_ge_None in Hn. lia.
  - destruct ts; [done|]. discriminate.
Qed.

Lemma wpi_joined done L s :
  done.*1 ≡ₚ L -> Forall (kept s) (returned <$> done) ->
  wpi R G (Ret done) (joined Ql L) s.
Proof.
  intros Hperm Hall. simpl. intros s1 H1. split; [done|].
  apply Forall_forall. intros d Hd.
  rewrite Forall_forall in Hall.
  specialize (Hall (returned d)). simpl in Hall.
  apply Hall; [|eauto]. apply list_elem_of_fmap. eauto.
Qed.

Lemma labels_returned (done : list errgroup.finished) :
  (returned <$> done).*1 = done.*1.
Proof. induction done as [|d done IH]; [done|]. cbn. f_equal. exact IH. Qed.

Lemma labels_snoc (ts : list errgroup.task) done i r :
  (ts ++ (returned <$> (done ++ [(i, r)]))).*1 ≡ₚ i :: (ts ++ (returned <$> done)).*1.
Proof.
  rewrite !fmap_app. simpl. rewrite app_assoc.
  by rewrite <- Permutation_cons_append.
Qed.

Lemma kept_snoc ts done i r s :
  rest i (ts ++ (returned <$> done)) s -> kept s (i, Ret r) ->
  Forall (kept s) (ts ++ (returned <$> (done ++ [(i, r)]))).
Proof.
  intros Ho Hr. rewrite fmap_app, app_assoc. apply Forall_app. split.
  - eauto using others_promised.
  - by repeat constructor.
Qed.

Lemma wpi_drain ts : forall done L s,
  (ts ++ (returned <$> done)).*1 ≡ₚ L -> NoDup L ->
  Forall (kept s) (ts ++ (returned <$> done)) ->
  wpi R G (errgroup.drain ts done) (joined Ql L) s.
Proof.
  induction ts as [|[i p] ts IH]; intros done L s Hperm Hnd Hall.
  - apply wpi_joined; auto.
    by rewrite <- Hperm, app_nil_l, labels_returned.
  - simpl. unfold mbind, Prog_bind.
    destruct (split_task ((i, p) :: ts) (returned <$> done) 0 i p s) as [Hp Ho]; auto.
    { by rewrite Hperm. }
    eapply wpi_bind_task; [|exact Hp|exact Ho].
    intros r s' Ho' Hr. apply IH; auto.
    + rewrite labels_snoc. by rewrite <- Hperm.
    + by apply kept_snoc.
Qed.

(** Every goroutine of the group keeps its promise under every schedule,
    and all of them finish. *)
Lemma wpi_interleave sched : forall ts done L s,
  (ts ++ (returned <$> done)).*1 ≡ₚ L -> NoDup L ->
  Forall (kept s) (ts ++ (returned <$> done)) ->
  wpi R G (errgroup.interleave sched ts done) (joined Ql L) s.
Proof.
  induction sched as [|n sched IH]; intros ts done L s Hperm Hnd Hall.
  { by apply wpi_drain. }
  cbn [errgroup.interleave]. cbv zeta.
  pose proof (pick_lookup n ts) as Hpick.
  set (j := errgroup.pick n ts) in *.
  match goal with
  | |- context [match ?x with _ => _ end] => destruct x as [[i p]|] eqn:Hj
  end.
  2:{ specialize (Hpick Hj). subst j. subst ts. apply wpi_joined; auto.
      by rewrite <- Hperm, app_nil_l, labels_returned. }
  destruct (split_task ts (returned <$> done) j i p s) as [Hp Ho]; auto.
  { by rewrite Hperm. }
  assert (Hre : forall p' s', kept s' (i, p') ->
      rest i (delete j ts ++ (returned <$> done)) s' ->
      wpi R G (errgroup.interleave sched (<[j := (i, p')]> ts) done) (joined Ql L) s').
  { intros p' s' Hp' Ho'. apply IH; auto.
    - rewrite <- Hperm.
      rewrite (insert_task_Permutation ts j (i, p) (i, p') Hj).
      transitivity (((i, p) :: delete j ts) ++ (returned <$> done)).*1; [done|].
      by rewrite <- (delete_Permutation ts j (i, p) Hj).
    - rewrite (insert_task_Permutation ts j (i, p) (i, p') Hj). simpl.
      constructor; eauto using others_promised. }
  destruct p as [r|c k|c k|c k|k|f k]; simpl in Hp.
  - apply IH; auto.
    + rewrite labels_snoc. rewrite <- Hperm.
      transitivity (((i, Ret r) :: delete j ts) ++ (returned <$> done)).*1; [done|].
      by rewrite <- (delete_Permutation ts j (i, Ret r) Hj).
    + by apply kept_snoc.
  - simpl. intros s1 H1. destruct (Hp s1 (R_Rl _ _ _ H1)) as [HG Hw].
    split; [eauto|]. apply Hre; [exact Hw|]. eauto using others_R, others_G.
  - simpl. intros s1 H1. destruct (Hp s1 (R_Rl _ _ _ H1)) as [HG Hw].
    split; [eauto|]. apply Hre; [exact Hw|]. eauto using others_R, others_G.
  - simpl. intros s1 H1. destruct (Hp s1 (R_Rl _ _ _ H1)) as [HG Hw].
    split; [eauto|]. apply Hre; [exact Hw|]. eauto using others_R, others_G.
  - simpl. intros s1 H1. apply Hre; [exact (Hp s1 (R_Rl _ _ _ H1))|]. eauto using others_R.
  - simpl. intros s1 H1. destruct (Hp s1 (R_Rl _ _ _ H1)) as [HG Hw].
    split; [eauto|]. apply Hre; [exact Hw|]. eauto using others_R, others_G.
Qed.

End Parallel.

(** ** Absolute paths *)

Lemma IsAbs_inv p : IsAbs p = true -> exists rest, p = String "/" rest.
Proof.
  destruct p as [|a p]; [discriminate|]. unfold IsAbs. cbn [HasPrefix].
  destruct (Ascii.eqb_spec "/"%char a) as [<-|]; [eauto|discriminate].
Qed.

Lemma IsAbs_rooted rest : IsAbs (String "/" rest) = true.
Proof. unfold IsAbs. cbn. by destruct rest. Qed.

Lemma IsAbs_Clean p : IsAbs p = true -> IsAbs (Clean p) = true.
Proof. intros [rest ->]%IsAbs_inv. apply IsAbs_rooted. Qed.

Lemma IsAbs_Join p x : IsAbs p = true -> IsAbs (Join [p; x]) = true.
Proof.
  intros [rest ->]%IsAbs_inv. unfold Join. cbn [List.filter String.eqb negb].
  destruct (negb (String.eqb x "")); apply IsAbs_rooted.
Qed.

Lemma IsAbs_ToLower unicodeLower p :
  (forall q, IsAbs q = true -> IsAbs (unicodeLower q) = true) ->
  IsAbs p = true -> IsAbs (ToLower unicodeLower p) = true.
Proof.
  intros Hu Hp. unfold ToLower. destruct (isASCII p); [|by apply Hu].
  apply IsAbs_inv in Hp as [rest ->]. apply IsAbs_rooted.
Qed.

(** ** Steps of a run *)

Section StepFacts.
Context {W : Type} {H : Host W}.
Implicit Types s : state W.

Lemma ctx_stepE c s : ctx (stepE c s).2 = ctx s.
Proof. unfold stepE. by destruct (hostE c (world s)). Qed.
Lemma ctx_stepS c s : ctx (stepS c s).2 = ctx s.
Proof. unfold stepS. by destruct (hostS c (world s)). Qed.
Lemma ctx_stepI c s : ctx (stepI c s).2 = ctx s.
Proof. unfold stepI. by destruct (hostI c (world s)). Qed.

Lemma trace_stepE c s : trace (stepE c s).2 = trace s ++ [EvE c (stepE c s).1].
Proof. unfold stepE. by destruct (hostE c (world s)). Qed.
Lemma trace_stepS c s : trace (stepS c s).2 = trace s ++ [EvS c (stepS c s).1].
Proof. unfold stepS. by destruct (hostS c (world s)). Qed.
Lemma trace_stepI c s : trace (stepI c s).2 = trace s ++ [EvI c (stepI c s).1].
Proof. unfold stepI. by destruct (hostI c (world s)). Qed.

Lemma answer_stepS c s : hostS c (world s) = ((stepS c s).1, world (stepS c s).2).
Proof. unfold stepS. by destruct (hostS c (world s)). Qed.

#[global] Instance rely_preorder k : PreOrder (@rely W k).
Proof.
  split.
  - intros s. by split.
  - intros s1 s2 s3 [? ?] [? ?]. split; [congruence|by etrans].
Qed.

#[global] Instance guar_preorder k : PreOrder (@guar W k).
Proof.
  split.
  - intros s. by split.
  - intros s1 s2 s3 [H1 ?] [H2 ?]. split; [|by etrans].
    intros j Hj. rewrite H1, H2; auto.
Qed.

#[global] Instance reads_preorder : PreOrder (@reads W).
Proof.
  split.
  - intros s. by split.
  - intros s1 s2 s3 [? ?] [? ?]. split; [congruence|by etrans].
Qed.

#[global] Instance solo_preorder k : PreOrder (@solo W k).
Proof.
  split.
  - intros s. by split.
  - intros s1 s2 s3 [? ?] [? ?]. split; congruence.
Qed.

#[global] Instance anything_preorder : PreOrder (@anything W).
Proof. by split. Qed.

Lemma guar_rely i j s s' : i <> j -> guar i s s' -> rely j s s'.
Proof. intros Hne [Ho Ht]. split; auto. Qed.

Lemma reads_rely k s s' : reads s s' -> rely k s s'.
Proof. intros [Hc Ht]. split; [by rewrite Hc|done]. Qed.

Lemma reads_guar k s s' : reads s s' -> guar k s s'.
Proof. intros [Hc Ht]. split; [by rewrite Hc|done]. Qed.

Lemma reads_stepE c s : reads s (stepE c s).2.
Proof. split; [by rewrite ctx_stepE|]. rewrite trace_stepE. by apply prefix_app_r. Qed.
Lemma reads_stepS c s : reads s (stepS c s).2.
Proof. split; [by rewrite ctx_stepS|]. rewrite trace_stepS. by apply prefix_app_r. Qed.
Lemma reads_stepI c s : reads s (stepI c s).2.
Proof. split; [by rewrite ctx_stepI|]. rewrite trace_stepI. by apply prefix_app_r. Qed.

Lemma guar_update k f s :
  (forall j c, j <> k -> owned j c = owned j (f c)) -> guar k s (update f s).
Proof. intros Hf. split; [|done]. intros j Hj. by apply Hf. Qed.

Lemma In_prefix (ev : Event) (l l' : list Event) : l `prefix_of` l' -> In ev l -> In ev l'.
Proof. intros [k ->] Hin. apply in_or_app. by left. Qed.

Lemma stepE_inv c s r c' w' t' :
  stepE c s = (r, mkState c' w' t') ->
  c' = ctx s /\ t' = trace s ++ [EvE c r] /\ hostE c (world s) = (r, w').
Proof. unfold stepE. destruct (hostE c (world s)). by intros [= -> -> -> ->]. Qed.
Lemma stepS_inv c s r c' w' t' :
  stepS c s = (r, mkState c' w' t') ->
  c' = ctx s /\ t' = trace s ++ [EvS c r] /\ hostS c (world s) = (r, w').
Proof. unfold stepS. destruct (hostS c (world s)). by intros [= -> -> -> ->]. Qed.
Lemma stepI_inv c s r c' w' t' :
  stepI c s = (r, mkState c' w' t') ->
  c' = ctx s /\ t' = trace s ++ [EvI c r] /\ hostI c (world s) = (r, w').
Proof. unfold stepI. destruct (hostI c (world s)). by intros [= -> -> -> ->]. Qed.

Lemma In_stepE c s r : (stepE c s).1 = r -> In (EvE c r) (trace (stepE c s).2).
Proof. intros <-. rewrite trace_stepE. apply in_or_app. right. by left. Qed.

End StepFacts.

(** ** The steps, one by one *)

(** One interference step: the state the others leave is named, and what
    the relation says about it is spelled out. *)
(** Reduction of the steps of a program and of the fields of the Context,
    and of nothing else. *)
Ltac step_cbn :=
  cbn [
    wpi bind mbind Prog_bind mret Prog_ret callE callS callI get assign ctx
    world trace update fst snd owned errgroup.firstError Name VersionsPath
    LogPath SocketPath IsCliMode LockFile ExecutablePath BindPID
    EventSocketPath PowerSaveMode KernelDebug Endpoint SSHPort SSHKeyPath
    SSHPrivateKeyPath SSHPublicKeyPath SSHPublicKey ForwardSocketPath
    SocketNetworkPath SocketInitrdVSockPath SocketReadyPath
    RestfulSocketPath TimeSyncSocketPath SSHAuthSocketPath CPUS MemoryBytes
    KernelPath InitrdPath RootfsPath TargetPath DiskDataPath DiskTmpPath
    set_Name set_VersionsPath set_LogPath set_SocketPath set_IsCliMode
    set_LockFile set_ExecutablePath set_BindPID set_EventSocketPath
    set_PowerSaveMode set_KernelDebug set_Endpoint set_SSHPort
    set_SSHKeyPath set_SSHPrivateKeyPath set_SSHPublicKeyPath
    set_SSHPublicKey set_ForwardSocketPath set_SocketNetworkPath
    set_SocketInitrdVSockPath set_SocketReadyPath set_RestfulSocketPath
    set_TimeSyncSocketPath set_SSHAuthSocketPath set_CPUS set_MemoryBytes
    set_KernelPath set_InitrdPath set_RootfsPath set_TargetPath
    set_DiskDataPath set_DiskTmpPath ].

Ltac forget_fields :=
  repeat match goal with
         | x : string |- _ => clear x
         | x : Z |- _ => clear x
         | x : bool |- _ => clear x
         end.

Ltac wp_intro :=
  let s := fresh "s" in
  let Ho := fresh "Ho" in
  let Ht := fresh "Ht" in
  let c := fresh "c" in
  intros s [Ho Ht]; destruct s as [c ? ?]; destruct c;
  cbn [ctx world trace update] in Ho, Ht; simpl in Ho; simplify_eq;
  forget_fields; step_cbn.

Ltac wp_call :=
  let r := fresh "r" in
  let c' := fresh "c" in
  let w' := fresh "w" in
  let t' := fresh "t" in
  let E := fresh "E" in
  lazymatch goal with
  | |- context [stepE ?c ?s] =>
    destruct (stepE c s) as [r [c' w' t']] eqn:E;
    apply stepE_inv in E as (-> & -> & E); cbn [ctx world trace update fst snd] in *
  | |- context [stepS ?c ?s] =>
    destruct (stepS c s) as [r [c' w' t']] eqn:E;
    apply stepS_inv in E as (-> & -> & E); cbn [ctx world trace update fst snd] in *
  | |- context [stepI ?c ?s] =>
    destruct (stepI c s) as [r [c' w' t']] eqn:E;
    apply stepI_inv in E as (-> & -> & E); cbn [ctx world trace update fst snd] in *
  end.

Ltac wp_match :=
  match goal with
  | |- context [match ?x with _ => _ end] => is_var x; destruct x; step_cbn
  end.

Ltac in_trace H :=
  simpl in H; repeat (destruct H as [H|H]); try contradiction; simplify_eq.

Ltac wp_go :=
  repeat first
    [ wp_call
    | lazymatch goal with |- _ /\ _ => split; [done|] end
    | wp_match
    | lazymatch goal with |- forall s, solo _ _ s -> _ => wp_intro end ].

(** The outcome is the case the run went through. *)
Ltac outcome_with tac :=
  eexists _, _, _; split; [tac|];
  split; [reflexivity|]; econstructor; repeat split; congruence.

Ltac outcome :=
  first [ outcome_with ltac:(apply abs_clean; assumption)
        | outcome_with ltac:(eapply abs_join; assumption)
        | outcome_with ltac:(eapply abs_err; assumption) ].

(** A step started alone ends as its outcome says. *)
Lemma solo_run {W : Type} {H : Host W} k (p : Prog (option error))
    (Q : option error -> state W -> Prop) (s : state W) :
  wpi (solo k) anything p Q s -> Q (run p s).1 (run p s).2.
Proof. intros Hw. by apply (wpi_run (solo k) anything p Q s _ _) in Hw as [? _]. Qed.

Lemma absRun_events path evs res ev :
  absRun path evs res -> In ev evs -> exists r, ev = EvS os_Getwd r.
Proof. intros [|wd|e] Hin; in_trace Hin; eauto. Qed.

Section TargetStep.
Context {W : Type} {H : Host W}.
Variable fl : Flag.t.

Lemma target_wp (c : Context) (w : W) :
  wpi (solo 5) anything (target fl)
    (fun r s' => afterAbs (Flag.targetPath fl) (targetRest fl) (trace s') r (ctx s'))
    (start c w).
Proof.
  unfold target, filepath_Abs, start.
  destruct (IsAbs (Flag.targetPath fl)) eqn:Habs; simpl; wp_go; outcome.
Qed.

Lemma target_outcome (c : Context) (w : W) :
  afterAbs (Flag.targetPath fl) (targetRest fl)
    (trace (run (target fl) (start c w)).2)
    (run (target fl) (start c w)).1
    (ctx (run (target fl) (start c w)).2).
Proof. apply (solo_run 5 (target fl) _ _ (target_wp c w)). Qed.

(** C9: once the target directory [p] is made, [target] has assigned the
    kernel, initrd and rootfs paths as the base names of their sources under
    [p], and the data disk, scratch disk and manifest as data.img, tmp.img
    and versions.json under [p]; so sources that share a base name, or whose
    base name is one of the three fixed names, give equal fields. *)
Theorem target_canonical_paths (c : Context) (w : W) (p : string)
    (Hdir : In (EvE (os_MkdirAll p (octal 7 5 5)) None)
               (trace (run (target fl) (start c w)).2)) :
  let c' := ctx (run (target fl) (start c w)).2 in
  targetFields fl p c' /\
  (Base (Flag.kernelPath fl) = Base (Flag.initrdPath fl) -> KernelPath c' = InitrdPath c') /\
  (Base (Flag.kernelPath fl) = Base (Flag.rootfsPath fl) -> KernelPath c' = RootfsPath c') /\
  (Base (Flag.initrdPath fl) = Base (Flag.rootfsPath fl) -> InitrdPath c' = RootfsPath c') /\
  (Base (Flag.kernelPath fl) = "data.img" -> KernelPath c' = DiskDataPath c') /\
  (Base (Flag.kernelPath fl) = "tmp.img" -> KernelPath c' = DiskTmpPath c') /\
  (Base (Flag.kernelPath fl) = "versions.json" -> KernelPath c' = VersionsPath c') /\
  (Base (Flag.initrdPath fl) = "data.img" -> InitrdPath c' = DiskDataPath c') /\
  (Base (Flag.initrdPath fl) = "tmp.img" -> InitrdPath c' = DiskTmpPath c') /\
  (Base (Flag.initrdPath fl) = "versions.json" -> InitrdPath c' = VersionsPath c') /\
  (Base (Flag.rootfsPath fl) = "data.img" -> RootfsPath c' = DiskDataPath c') /\
  (Base (Flag.rootfsPath fl) = "tmp.img" -> RootfsPath c' = DiskTmpPath c') /\
  (Base (Flag.rootfsPath fl) = "versions.json" -> RootfsPath c' = VersionsPath c').
Proof.
  intros c'. subst c'.
  destruct (target_outcome c w) as (pre & res & post & Habs & Hevs & Hrest).
  rewrite Hevs in Hdir. clear Hevs.
  set (c' := ctx (run (target fl) (start c w)).2) in *. clearbody c'.
  apply in_app_or in Hdir as [Hin|Hin].
  { apply (absRun_events _ _ _ _ Habs) in Hin as [r Hr]. discriminate. }
  assert (Hf : targetFields fl p c').
  { destruct Hrest; in_trace Hin; assumption. }
  split; [exact Hf|].
  destruct Hf as (_ & Hv & Hk & Hi & Hr & Hd & Ht).
  rewrite Hv, Hk, Hi, Hr, Hd, Ht.
  repeat split; intros ->; reflexivity.
Qed.

(** C4: the scratch-disk step of [target].  When [os.Stat] of DiskTmpPath
    fails, [utils.CreateSparseFile] is called next, on that path and with
    2^40 bytes, and its error is what [target] returns; when the stat
    succeeds, it is the last call of [target], which returns nil and never
    calls [utils.CreateSparseFile]. *)
Theorem target_scratch_disk (c : Context) (w : W) (tmp : string) (st : option error)
    (Hstat : In (EvE (os_Stat tmp) st) (trace (run (target fl) (start c w)).2)) :
  let r := (run (target fl) (start c w)).1 in
  let s' := (run (target fl) (start c w)).2 in
  tmp = DiskTmpPath (ctx s') /\
  match st with
  | Some _ =>
    exists pre r', trace s' =
      pre ++ [EvE (os_Stat tmp) st; EvE (utils_CreateSparseFile tmp (2 ^ 40)) r'] /\
      r = r'
  | None =>
    (exists pre, trace s' = pre ++ [EvE (os_Stat tmp) None]) /\
    r = None /\
    forallb (fun ev => negb (isCreateSparseFile ev)) (trace s') = true
  end.
Proof.
  intros r s'. subst r s'.
  destruct (target_outcome c w) as (pre & res & post & Habs & Hevs & Hrest).
  rewrite Hevs in *. clear Hevs.
  set (c' := ctx (run (target fl) (start c w)).2) in *. clearbody c'.
  set (r := (run (target fl) (start c w)).1) in *. clearbody r.
  assert (Hpre : forallb (fun ev => negb (isCreateSparseFile ev)) pre = true).
  { by destruct Habs. }
  apply in_app_or in Hstat as [Hin|Hin].
  { apply (absRun_events _ _ _ _ Habs) in Hin as [r0 Hr]. discriminate. }
  destruct Hrest as [| | | |p c' t Hf Ht|p e r c' t Hf Ht]; in_trace Hin.
  - split; [by destruct Hf as (_ & _ & _ & _ & _ & _ & ->)|].
    split; [|split; [done|]].
    + eexists (pre ++ [_; _; _]). by rewrite <- app_assoc.
    + rewrite forallb_app, Hpre. done.
  - split; [by destruct Hf as (_ & _ & _ & _ & _ & _ & ->)|].
    eexists (pre ++ [_; _; _]), _. by rewrite <- app_assoc.
Qed.

End TargetStep.

Section SimpleSteps.
Context {W : Type} {H : Host W}.
Variable unicodeLower : string -> string.
Variable fl : Flag.t.

Lemma socketPath_wp (c : Context) (w : W) :
  wpi (solo 2) anything (socketPath fl)
    (fun r s' => afterAbs (Flag.socketPath fl) (socketRest fl) (trace s') r (ctx s'))
    (start c w).
Proof.
  unfold socketPath, filepath_Abs, start.
  destruct (IsAbs (Flag.socketPath fl)) eqn:Habs; simpl; wp_go; outcome.
Qed.

Lemma socketPath_outcome (c : Context) (w : W) :
  afterAbs (Flag.socketPath fl) (socketRest fl)
    (trace (run (socketPath fl) (start c w)).2)
    (run (socketPath fl) (start c w)).1
    (ctx (run (socketPath fl) (start c w)).2).
Proof. apply (solo_run 2 (socketPath fl) _ _ (socketPath_wp c w)). Qed.

Lemma logPath_wp (c : Context) (w : W) :
  wpi (solo 1) anything (logPath fl)
    (fun r s' => afterAbs (Flag.logPath fl) logRest (trace s') r (ctx s'))
    (start c w).
Proof.
  unfold logPath, filepath_Abs, start.
  destruct (IsAbs (Flag.logPath fl)) eqn:Habs; simpl; wp_go; outcome.
Qed.

Lemma logPath_outcome (c : Context) (w : W) :
  afterAbs (Flag.logPath fl) logRest
    (trace (run (logPath fl) (start c w)).2)
    (run (logPath fl) (start c w)).1
    (ctx (run (logPath fl) (start c w)).2).
Proof. apply (solo_run 1 (logPath fl) _ _ (logPath_wp c w)). Qed.

Lemma sshPort_wp (c : Context) (w : W) :
  wpi (solo 4) anything sshPort
    (fun r s' => sshPortOutcome (trace s') r (ctx s')) (start c w).
Proof.
  unfold sshPort, start. simpl; wp_go; econstructor; reflexivity.
Qed.

Lemma sshPort_outcome (c : Context) (w : W) :
  sshPortOutcome (trace (run sshPort (start c w)).2)
    (run sshPort (start c w)).1 (ctx (run sshPort (start c w)).2).
Proof. apply (solo_run 4 sshPort _ _ (sshPort_wp c w)). Qed.

Lemma basic_wp (c : Context) (w : W) :
  wpi (solo 0) anything (basic unicodeLower fl)
    (fun r s' => basicOutcome unicodeLower fl (trace s') r (ctx s')) (start c w).
Proof.
  unfold basic, start. simpl; wp_go; econstructor; repeat split.
Qed.

Lemma basic_outcome (c : Context) (w : W) :
  basicOutcome unicodeLower fl
    (trace (run (basic unicodeLower fl) (start c w)).2)
    (run (basic unicodeLower fl) (start c w)).1
    (ctx (run (basic unicodeLower fl) (start c w)).2).
Proof. apply (solo_run 0 (basic unicodeLower fl) _ _ (basic_wp c w)). Qed.

End SimpleSteps.

Section StepClaims.
Context {W : Type} {H : Host W}.
Variable unicodeLower : string -> string.
Variable fl : Flag.t.

Lemma u64_megabytes m : u64 (u64 (m * 1024) * 1024) = (m * 2 ^ 20) mod 2 ^ 64.
Proof.
  unfold u64. rewrite Z.mul_mod_idemp_l by lia. f_equal. lia.
Qed.

Lemma basic_flagFields (c : Context) (w : W) :
  flagFields fl (ctx (run (basic unicodeLower fl) (start c w)).2).
Proof. by destruct (basic_outcome unicodeLower fl c w). Qed.

(** C10: [basic] stores in MemoryBytes the configured memory times 2^20,
    computed in [uint64], that is modulo 2^64; below 2^44 nothing wraps and
    the product is exact. *)
Theorem basic_MemoryBytes (c : Context) (w : W) :
  let c' := ctx (run (basic unicodeLower fl) (start c w)).2 in
  MemoryBytes c' = (Flag.memory fl * 2 ^ 20) mod 2 ^ 64 /\
  (0 <= Flag.memory fl < 2 ^ 44 -> MemoryBytes c' = Flag.memory fl * 2 ^ 20).
Proof.
  intros c'. destruct (basic_flagFields c w) as (_ & _ & Hm & _).
  fold c' in Hm. rewrite Hm, u64_megabytes. split; [done|].
  intros Hlt. apply Z.mod_small. lia.
Qed.

Lemma absRun_IsAbs path pre p :
  absRun path pre (Ok p) ->
  (forall wd, In (EvS os_Getwd (Ok wd)) pre -> IsAbs wd = true) ->
  IsAbs p = true.
Proof.
  inversion 1; subst; intros Hwd.
  - by apply IsAbs_Clean.
  - apply IsAbs_Join, Hwd. by left.
Qed.

(** C8: a failing step has already written its fields.  When the removal
    or the creation of the socket directory [p] fails with [e1],
    [socketPath] returns [e1] and the socket directory, the seven socket
    paths and the endpoint are assigned; when the creation of /tmp/ovm fails
    with [e2], [basic] returns [e2] and the fields copied from the flags are
    assigned. *)
Theorem failed_step_keeps_assignments (c1 c2 : Context) (w1 w2 : W)
    (p : string) (e1 e2 : error)
    (Hsock : In (EvE (os_RemoveAll p) (Some e1))
                (trace (run (socketPath fl) (start c1 w1)).2) \/
             In (EvE (os_MkdirAll p (octal 7 5 5)) (Some e1))
                (trace (run (socketPath fl) (start c1 w1)).2))
    (Hbasic : In (EvE (os_MkdirAll "/tmp/ovm" (octal 7 5 5)) (Some e2))
                 (trace (run (basic unicodeLower fl) (start c2 w2)).2)) :
  ((run (socketPath fl) (start c1 w1)).1 = Some e1 /\
   socketFields fl p (ctx (run (socketPath fl) (start c1 w1)).2)) /\
  ((run (basic unicodeLower fl) (start c2 w2)).1 = Some e2 /\
   flagFields fl (ctx (run (basic unicodeLower fl) (start c2 w2)).2)).
Proof.
  split.
  - clear Hbasic.
    destruct (socketPath_outcome fl c1 w1) as (pre & res & post & Habs & Hevs & Hrest).
    rewrite Hevs in Hsock. clear Hevs.
    destruct Hsock as [Hin|Hin]; apply in_app_or in Hin as [Hin|Hin];
      try (apply (absRun_events _ _ _ _ Habs) in Hin as [r Hr]; discriminate);
      destruct Hrest; in_trace Hin; by split.
  - clear Hsock.
    destruct (basic_outcome unicodeLower fl c2 w2); in_trace Hbasic; by split.
Qed.

(** C5: [socketPath] returns nil only after [os.RemoveAll] and then
    [os.MkdirAll] (mode 0755) of the socket directory [p] both returned nil;
    [p] is what [filepath.Abs] gave for the flag (absolute when the working
    directory the host reports is), the seven socket paths are [p] joined
    with the name and the fixed suffix of each, and Endpoint is "unix://"
    followed by SocketNetworkPath. *)
Theorem socketPath_success (c : Context) (w : W)
    (Hok : (run (socketPath fl) (start c w)).1 = None) :
  let s' := (run (socketPath fl) (start c w)).2 in
  exists pre p,
    absRun (Flag.socketPath fl) pre (Ok p) /\
    trace s' =
      pre ++ [EvE (os_RemoveAll p) None; EvE (os_MkdirAll p (octal 7 5 5)) None] /\
    socketFields fl p (ctx s') /\
    ((forall wd, In (EvS os_Getwd (Ok wd)) pre -> IsAbs wd = true) ->
     IsAbs p = true).
Proof.
  intros s'. subst s'.
  destruct (socketPath_outcome fl c w) as (pre & res & post & Habs & Hevs & Hrest).
  rewrite Hok in Hrest. rewrite Hevs.
  inversion Hrest; subst.
  exists pre, p. split; [done|]. split; [done|]. split; [done|].
  by apply (absRun_IsAbs (Flag.socketPath fl)).
Qed.

End StepClaims.

(** ** The group of two readers *)

Ltac next_schedule :=
  lazymatch goal with
  | |- linearisation _ _ ?p =>
    match p with
    | context [errgroup.interleave ?sched _ _] =>
      is_var sched; destruct sched as [|[|[|?]] ?]; simpl
    end
  end.

Lemma reader_pair sched a b :
  linearisation a b
    (errgroup.interleave sched [(0%nat, reader a); (1%nat, reader b)] []).
Proof.
  unfold reader. repeat next_schedule; constructor.
Qed.

Lemma wpi_reader_pair {W : Type} {H : Host W} (R G : @rel W) sched a b Q s :
  (forall p, linearisation a b p -> wpi R G p Q s) ->
  wpi R G (errgroup.interleave sched [(0%nat, reader a); (1%nat, reader b)] []) Q s.
Proof. intros Hl. apply Hl, reader_pair. Qed.

(** The group inside [ssh] is reached: it is replaced by its twelve
    linearisations. *)
Ltac wp_group :=
  lazymatch goal with
  | |- wpi _ _ ?p _ _ =>
    match p with
    | context [errgroup.interleave _ _ _] =>
      unfold mbind, Prog_bind, mret, Prog_ret, errgroup.tasks, errgroup.Go,
        errgroup.zero, callE;
      cbn [app imap];
      repeat (apply wpi_bind; [typeclasses eauto|]);
      apply wpi_reader_pair;
      let p := fresh "p" in
      let Hp := fresh "Hp" in
      intros p Hp; destruct Hp; simpl
    end
  end.

Ltac ssh_stats := first [reflexivity | apply perm_swap].
Ltac ssh_failed := first [left; discriminate | right; discriminate].
Ltac ssh_read := econstructor; reflexivity.
Ltac ssh_keys := repeat split.

Ltac ssh_rest :=
  first
    [ apply ssh_abs
    | eapply ssh_mkdir; ssh_keys
    | eapply (ssh_keep _ _ [_; _]); [ssh_keys | ssh_stats | ssh_read]
    | eapply (ssh_generate_err _ _ _ _ [_; _]); [ssh_keys | ssh_stats | ssh_failed]
    | eapply (ssh_generate _ _ _ _ [_; _]);
        [ssh_keys | ssh_stats | ssh_failed | ssh_read] ].

Ltac ssh_case_with tac :=
  eexists _, _, _; split; [tac|]; split; [reflexivity|]; ssh_rest.

Ltac ssh_case :=
  first [ ssh_case_with ltac:(apply abs_clean; assumption)
        | ssh_case_with ltac:(eapply abs_join; assumption)
        | ssh_case_with ltac:(eapply abs_err; assumption) ].

Section SshStep.
Context {W : Type} {H : Host W}.
Variable fl : Flag.t.

Lemma ssh_wp sched (c : Context) (w : W) :
  wpi (solo 3) anything (ssh fl sched)
    (fun r s' => afterAbs (Flag.sshKeyPath fl) (sshRest fl) (trace s') r (ctx s'))
    (start c w).
Proof.
  unfold ssh, filepath_Abs, start, errgroup.Wait, errgroup.goroutines.
  destruct (IsAbs (Flag.sshKeyPath fl)) eqn:Habs; simpl; wp_go.
  all: try (wp_group; wp_go).
  all: ssh_case.
Qed.

Lemma ssh_outcome sched (c : Context) (w : W) :
  afterAbs (Flag.sshKeyPath fl) (sshRest fl)
    (trace (run (ssh fl sched) (start c w)).2)
    (run (ssh fl sched) (start c w)).1
    (ctx (run (ssh fl sched) (start c w)).2).
Proof. apply (solo_run 3 (ssh fl sched) _ _ (ssh_wp sched c w)). Qed.

Lemma stats_In (a b : string) r0 r1 (stats : list Event) ev :
  stats ≡ₚ [EvE (os_Stat a) r0; EvE (os_Stat b) r1] -> In ev stats ->
  ev = EvE (os_Stat a) r0 \/ ev = EvE (os_Stat b) r1.
Proof.
  intros Hp Hin. apply list_elem_of_In in Hin. rewrite Hp in Hin.
  apply list_elem_of_In in Hin. simpl in Hin. intuition.
Qed.

Lemma stats_renews (a b : string) r0 r1 (stats : list Event) :
  stats ≡ₚ [EvE (os_Stat a) r0; EvE (os_Stat b) r1] ->
  forallb (fun ev => negb (renews ev)) stats = true.
Proof.
  intros Hp. apply forallb_forall. intros ev Hin.
  by destruct (stats_In _ _ _ _ _ _ Hp Hin) as [-> | ->].
Qed.

Lemma absRun_renews path pre res :
  absRun path pre res -> forallb (fun ev => negb (renews ev)) pre = true.
Proof. by intros []. Qed.

Lemma sshRead_renews pub evs r c :
  sshRead pub evs r c -> forallb (fun ev => negb (renews ev)) evs = true.
Proof. by intros []. Qed.

(** C3: once the key directory [dir] is made, the two key files are
    statted, in either order.  When both stats succeed, [ssh] deletes
    nothing and generates nothing; when one of them fails, [os.RemoveAll]
    of the private key path, [os.RemoveAll] of the public key path and
    [utils.GenerateSSHKey dir name] are called next, in this order, whatever
    the two deletions answer. *)
Theorem ssh_stat_decides sched (c : Context) (w : W) (dir : string)
    (Hdir : In (EvE (os_MkdirAll dir (octal 7 0 0)) None)
               (trace (run (ssh fl sched) (start c w)).2)) :
  let s' := (run (ssh fl sched) (start c w)).2 in
  let priv := Join [dir; Flag.name fl] in
  let pub := Join [dir; Flag.name fl +:+ ".pub"] in
  SSHPrivateKeyPath (ctx s') = priv /\ SSHPublicKeyPath (ctx s') = pub /\
  exists pre r0 r1 stats post,
    trace s' = pre ++ EvE (os_MkdirAll dir (octal 7 0 0)) None :: stats ++ post /\
    stats ≡ₚ [EvE (os_Stat priv) r0; EvE (os_Stat pub) r1] /\
    ((r0 = None /\ r1 = None /\
      forallb (fun ev => negb (renews ev)) (trace s') = true) \/
     ((r0 <> None \/ r1 <> None) /\
      exists d1 d2 g rest,
        post = EvE (os_RemoveAll priv) d1 :: EvE (os_RemoveAll pub) d2 ::
               EvE (utils_GenerateSSHKey dir (Flag.name fl)) g :: rest)).
Proof.
  intros s' priv pub. subst s' priv pub.
  destruct (ssh_outcome sched c w) as (pre & res & post & Habs & Hevs & Hrest).
  rewrite Hevs in *. clear Hevs.
  set (c' := ctx (run (ssh fl sched) (start c w)).2) in *. clearbody c'.
  set (r := (run (ssh fl sched) (start c w)).1) in *. clearbody r.
  pose proof (absRun_renews _ _ _ Habs) as Hpre.
  apply in_app_or in Hdir as [Hin|Hin].
  { apply (absRun_events _ _ _ _ Habs) in Hin as [r' Hr]. discriminate. }
  assert (Hstat : forall a b r0 r1 stats evs,
    stats ≡ₚ [EvE (os_Stat a) r0; EvE (os_Stat b) r1] ->
    In (EvE (os_MkdirAll dir (octal 7 0 0)) None) (stats ++ evs) ->
    In (EvE (os_MkdirAll dir (octal 7 0 0)) None) evs).
  { intros a b r0 r1 stats evs Hp [Hs|He]%in_app_or; [|done].
    by destruct (stats_In _ _ _ _ _ _ Hp Hs). }
  destruct Hrest as [e c'|p e c' Hk|p stats evs r c' Hk Hp Hrd
                    |p r0 r1 stats d1 d2 e c' Hk Hp Hf
                    |p r0 r1 stats d1 d2 evs r c' Hk Hp Hf Hrd].
  - in_trace Hin.
  - in_trace Hin.
  - destruct Hin as [Heq|Hin].
    2:{ apply (Hstat _ _ _ _ _ _ Hp) in Hin. destruct Hrd; in_trace Hin. }
    injection Heq as <-. destruct Hk as (_ & -> & ->).
    split; [done|]. split; [done|].
    exists pre, None, None, stats, evs. split; [done|]. split; [done|].
    left. split; [done|]. split; [done|].
    rewrite forallb_app, Hpre. simpl. rewrite forallb_app.
    by rewrite (stats_renews _ _ _ _ _ Hp), (sshRead_renews _ _ _ _ Hrd).
  - destruct Hin as [Heq|Hin].
    2:{ apply (Hstat _ _ _ _ _ _ Hp) in Hin. in_trace Hin. }
    injection Heq as <-. destruct Hk as (_ & -> & ->).
    split; [done|]. split; [done|].
    eexists pre, r0, r1, stats, _. split; [done|]. split; [done|].
    right. split; [done|]. by eexists _, _, _, _.
  - destruct Hin as [Heq|Hin].
    2:{ apply (Hstat _ _ _ _ _ _ Hp) in Hin.
        destruct Hin as [Hin|[Hin|[Hin|Hin]]]; try discriminate.
        destruct Hrd; in_trace Hin. }
    injection Heq as <-. destruct Hk as (_ & -> & ->).
    split; [done|]. split; [done|].
    eexists pre, r0, r1, stats, _. split; [done|]. split; [done|].
    right. split; [done|]. by eexists _, _, _, _.
Qed.

End SshStep.
Section SshErrors.
Context {W : Type} {H : Host W}.
Variable fl : Flag.t.

(** C7: when [ssh] returns nil, SSHPublicKey is what [io.ReadAll] gave
    for the file opened at SSHPublicKeyPath, with [strings.TrimSpace]
    applied; and when [os.MkdirAll] of the key directory,
    [utils.GenerateSSHKey], [os.Open] or [io.ReadAll] of the public key file
    fails, [ssh] returns that very error. *)
Theorem ssh_public_key sched (c : Context) (w : W) :
  let r := (run (ssh fl sched) (start c w)).1 in
  let s' := (run (ssh fl sched) (start c w)).2 in
  (r = None ->
   exists b, In (EvE (os_Open (SSHPublicKeyPath (ctx s'))) None) (trace s') /\
             In (EvS (io_ReadAll (SSHPublicKeyPath (ctx s'))) (Ok b)) (trace s') /\
             SSHPublicKey (ctx s') = TrimSpace b) /\
  (forall p perm e, In (EvE (os_MkdirAll p perm) (Some e)) (trace s') -> r = Some e) /\
  (forall d n e, In (EvE (utils_GenerateSSHKey d n) (Some e)) (trace s') -> r = Some e) /\
  (forall p e, In (EvE (os_Open p) (Some e)) (trace s') -> r = Some e) /\
  (forall p e, In (EvS (io_ReadAll p) (Err e)) (trace s') -> r = Some e).
Proof.
  intros r s'. subst r s'.
  destruct (ssh_outcome fl sched c w) as (pre & res & post & Habs & Hevs & Hrest).
  rewrite Hevs. clear Hevs.
  set (c' := ctx (run (ssh fl sched) (start c w)).2) in *. clearbody c'.
  set (r := (run (ssh fl sched) (start c w)).1) in *. clearbody r.
  assert (Hpre : forall ev, In ev (pre ++ post) ->
            (forall x, ev <> EvS os_Getwd x) -> In ev post).
  { intros ev [Hin|Hin]%in_app_or Hne; [|done].
    apply (absRun_events _ _ _ _ Habs) in Hin as [x ->]. exfalso. by eapply Hne. }
  assert (Hstats : forall a b r0 r1 (stats : list Event) evs ev,
            stats ≡ₚ [EvE (os_Stat a) r0; EvE (os_Stat b) r1] ->
            In ev (stats ++ evs) -> (forall x y, ev <> EvE (os_Stat x) y) ->
            In ev evs).
  { intros a b r0 r1 stats evs ev Hp [Hin|Hin]%in_app_or Hne; [|done].
    destruct (stats_In _ _ _ _ _ _ Hp Hin) as [-> | ->]; exfalso; by eapply Hne. }
  assert (Hok : forall pub evs, sshRead pub evs r c' -> r = None ->
            exists b, In (EvE (os_Open pub) None) evs /\
                      In (EvS (io_ReadAll pub) (Ok b)) evs /\
                      SSHPublicKey c' = TrimSpace b).
  { intros pub evs [] Hr; try discriminate. eexists. simpl. eauto 10. }
  assert (Hrd : forall pub evs, sshRead pub evs r c' ->
            (forall p perm e, In (EvE (os_MkdirAll p perm) (Some e)) evs -> r = Some e) /\
            (forall d n e, In (EvE (utils_GenerateSSHKey d n) (Some e)) evs -> r = Some e) /\
            (forall p e, In (EvE (os_Open p) (Some e)) evs -> r = Some e) /\
            (forall p e, In (EvS (io_ReadAll p) (Err e)) evs -> r = Some e)).
  { intros pub evs []; repeat split; intros; 
      match goal with Hin : In _ _ |- _ => in_trace Hin end; done. }
  split; [|repeat split]; intros.
  all: try match goal with
       | Hin : In _ (_ ++ _) |- _ => apply Hpre in Hin; [|by intros]
       end.
  1:{ destruct Hrest as [e c'|p e c' Hk|p stats evs r c' Hk Hp Hr
                      |p r0 r1 stats d1 d2 e c' Hk Hp Hf
                      |p r0 r1 stats d1 d2 evs r c' Hk Hp Hf Hr]; try discriminate.
    + destruct Hk as (_ & _ & ->).
      destruct (Hok _ _ Hr) as (b & Ho & Hb & Hkey); [done|].
      exists b. split; [|split; [|done]]; apply in_or_app; right;
        right; apply in_or_app; by right.
    + destruct Hk as (_ & _ & ->).
      destruct (Hok _ _ Hr) as (b & Ho & Hb & Hkey); [done|].
      exists b. split; [|split; [|done]]; apply in_or_app; right;
        right; apply in_or_app; right; do 3 right; done. }
  all: destruct Hrest as [e0 c'|p0 e0 c' Hk|p0 stats evs r c' Hk Hp Hr
                      |p0 r0 r1 stats d1 d2 e0 c' Hk Hp Hf
                      |p0 r0 r1 stats d1 d2 evs r c' Hk Hp Hf Hr].
  all: try (match goal with Hin : In _ _ |- _ => in_trace Hin end; done).
  all: match goal with
       | Hin : In _ (_ :: _ ++ _) |- _ =>
         destruct Hin as [Hin|Hin]; [try discriminate; by simplify_eq|];
         apply (Hstats _ _ _ _ _ _ _ Hp) in Hin; [|by intros]
       end.
  all: try (match goal with Hin : In _ _ |- _ => in_trace Hin end; done).
  all: try (match goal with Hr : sshRead _ _ _ _ |- _ =>
              destruct (Hrd _ _ Hr) as (? & ? & ? & ?) end; by eauto).
  all: try match goal with
       | Hin : In _ (_ ++ _) |- _ => apply in_app_or in Hin as [Hin|Hin]
       end.
  all: try (match goal with Hin : In _ _ |- _ => in_trace Hin end; done).
  all: try (match goal with Hr : sshRead _ _ _ _ |- _ =>
              destruct (Hrd _ _ Hr) as (? & ? & ? & ?) end; by eauto).
Qed.
End SshErrors.

(** ** The error groups of PreSetup and Setup *)

Lemma firstError_None (done : list errgroup.finished) :
  errgroup.firstError done = None <-> Forall (fun d => d.2 = None) done.
Proof.
  induction done as [|[i [e|]] done IH]; simpl.
  - split; [constructor|done].
  - split; [done|]. by inversion 1.
  - rewrite IH. split; [by constructor|by inversion 1].
Qed.

Lemma firstError_Some (done : list errgroup.finished) e :
  errgroup.firstError done = Some e ->
  exists pre i post,
    done = pre ++ (i, Some e) :: post /\ Forall (fun d => d.2 = None) pre.
Proof.
  induction done as [|[i [e'|]] done IH]; simpl; [done| |].
  - intros [= ->]. by exists [], i, done.
  - intros (pre & j & post & -> & Hpre)%IH.
    exists ((i, None) :: pre), j, post. split; [done|]. by constructor.
Qed.

Section Groups.
Context {W : Type} {H : Host W}.

Lemma wpi_anything {A} (p : Prog A) (s : state W) :
  wpi anything anything p (fun _ _ => True) s.
Proof.
  revert s. induction p; simpl; intros s s1 _; try split; done.
Qed.

(** Every goroutine of a group finishes, and finishes once. *)
Lemma interleave_labels sched (ts : list errgroup.task) (s : state W) :
  NoDup ts.*1 ->
  (run (errgroup.interleave sched ts []) s).1.*1 ≡ₚ ts.*1.
Proof.
  intros Hnd.
  pose proof (wpi_interleave anything anything (fun _ => anything) (fun _ => anything)
    (fun _ _ _ => True) (fun _ => _) (fun _ _ _ _ => I) (fun _ _ _ _ => I)
    (fun _ _ _ _ _ _ => I) sched ts [] ts.*1 s) as Hw.
  apply wpi_run in Hw as [[Hperm _] _]; try typeclasses eauto; try done.
  - by rewrite app_nil_r.
  - rewrite app_nil_r. apply Forall_forall. intros t _. apply wpi_anything.
Qed.

Lemma run_Wait sched g (s : state W) :
  run (errgroup.Wait sched g) s =
  (errgroup.firstError (run (errgroup.goroutines sched g) s).1,
   (run (errgroup.goroutines sched g) s).2).
Proof. unfold errgroup.Wait, mbind, Prog_bind. by rewrite run_bind. Qed.

Variable unicodeLower : string -> string.
Variable fl : Flag.t.

Lemma firstWins_intro n (done : list errgroup.finished) :
  done.*1 ≡ₚ seq 0 n -> firstWins n done (errgroup.firstError done).
Proof.
  intros Hperm. split; [done|]. split; [|apply firstError_Some].
  rewrite firstError_None, Forall_forall. split.
  - intros Hall i ri Hin. apply list_elem_of_In in Hin. apply (Hall _ Hin).
  - intros Hall [i ri] Hin. apply list_elem_of_In in Hin. simpl. eauto.
Qed.

(** C6: under every schedule, each sub-step of [PreSetup] (two) and of
    [Setup] (four) runs and finishes exactly once; the entry point returns
    nil exactly when every sub-step returned nil, and otherwise the error of
    the sub-step that was first to fail. *)
Theorem entry_points_first_error sched sshSched (s : state W) :
  let pre := (run (errgroup.goroutines sched (preSetupGroup unicodeLower fl)) s).1 in
  let set := (run (errgroup.goroutines sched (setupGroup fl sshSched)) s).1 in
  firstWins 2 pre (run (PreSetup unicodeLower fl sched) s).1 /\
  firstWins 4 set (run (Setup fl sched sshSched) s).1.
Proof.
  intros pre set. subst pre set. split.
  - change (PreSetup unicodeLower fl sched) with (errgroup.Wait sched (preSetupGroup unicodeLower fl)).
    rewrite run_Wait. apply firstWins_intro.
    unfold errgroup.goroutines. rewrite interleave_labels; [done|].
    apply (bool_decide_unpack _). by vm_compute.
  - change (Setup fl sched sshSched) with (errgroup.Wait sched (setupGroup fl sshSched)).
    rewrite run_Wait. apply firstWins_intro.
    unfold errgroup.goroutines. rewrite interleave_labels; [done|].
    apply (bool_decide_unpack _). by vm_compute.
Qed.

End Groups.

(** ** The steps among the others *)

Ltac rg_match :=
  match goal with
  | |- context [match ?x with _ => _ end] => is_var x; destruct x; step_cbn
  end.

Ltac rg_intro :=
  let s := fresh "s" in
  let Ho := fresh "Ho" in
  let Ht := fresh "Ht" in
  let c := fresh "c" in
  let t := fresh "t" in
  intros s [Ho Ht]; destruct s as [c ? t]; destruct c;
  cbn [ctx world trace update] in Ho, Ht; simpl in Ho;
  destruct Ht as [? ->]; simplify_eq;
  repeat match goal with
         | x : string |- _ => clear x
         | x : Z |- _ => clear x
         | x : bool |- _ => clear x
         end;
  step_cbn.

Ltac solve_guar :=
  split;
  [ let j := fresh "j" in
    let Hj := fresh "Hj" in
    intros j Hj;
    do 6 (destruct j as [|j]; [first [reflexivity | by destruct Hj]|]);
    reflexivity
  | first [reflexivity | apply prefix_app_r; reflexivity] ].

Ltac rg_go :=
  repeat first
    [ wp_call
    | lazymatch goal with |- _ /\ _ => split; [solve_guar|] end
    | rg_match
    | lazymatch goal with |- forall s, rely _ _ s -> _ => rg_intro end ].

Ltac find_in :=
  lazymatch goal with
  | |- In _ (_ ++ [_]) =>
    first [ apply in_or_app; right; left; reflexivity
          | apply in_or_app; left; find_in ]
  | |- In _ (_ ++ _) => apply in_or_app; left; find_in
  end.

Ltac conjuncts := repeat lazymatch goal with |- _ /\ _ => split end.

Ltac abs_solve Hwd :=
  repeat first
    [ apply IsAbs_Join
    | apply IsAbs_Clean; assumption
    | apply Hwd; find_in ].

Ltac rg_group :=
  lazymatch goal with
  | |- wpi _ _ ?p _ _ =>
    match p with
    | context [errgroup.interleave _ _ _] =>
      unfold mbind, Prog_bind, mret, Prog_ret, errgroup.tasks, errgroup.Go,
        errgroup.zero, callE;
      cbn [app imap];
      repeat (apply wpi_bind; [typeclasses eauto|]);
      apply wpi_reader_pair;
      let p := fresh "p" in
      let Hp := fresh "Hp" in
      intros p Hp; destruct Hp; step_cbn
    end
  end.

Section Among.
Context {W : Type} {H : Host W}.
Variable unicodeLower : string -> string.
Variable fl : Flag.t.

Lemma logPath_among (s : state W) :
  wpi (rely 1) (guar 1) (logPath fl) (promise unicodeLower fl 1) s.
Proof.
  unfold logPath, filepath_Abs, promise. destruct s as [c w t].
  destruct (IsAbs (Flag.logPath fl)) eqn:Habs; step_cbn; rg_go.
  all: intros Hr [Hwd Hexe] Hul; try discriminate; subst; simpl.
  all: split; [solve [abs_solve Hwd]|find_in].
Qed.

Lemma sshPort_among (s : state W) :
  wpi (rely 4) (guar 4) sshPort (promise unicodeLower fl 4) s.
Proof.
  unfold sshPort, promise. destruct s as [c w t]. step_cbn; rg_go; done.
Qed.

Lemma socketPath_among (s : state W) :
  wpi (rely 2) (guar 2) (socketPath fl) (promise unicodeLower fl 2) s.
Proof.
  unfold socketPath, filepath_Abs, promise. destruct s as [c w t].
  destruct (IsAbs (Flag.socketPath fl)) eqn:Habs; step_cbn. all: rg_go.
  all: intros Hr [Hwd Hexe] Hul; try discriminate; cbn [reached]; step_cbn.
  all: conjuncts; first [solve [abs_solve Hwd] | find_in].
Qed.

Lemma target_among (s : state W) :
  wpi (rely 5) (guar 5) (target fl) (promise unicodeLower fl 5) s.
Proof.
  unfold target, filepath_Abs, promise. destruct s as [c w t].
  destruct (IsAbs (Flag.targetPath fl)) eqn:Habs; step_cbn. all: rg_go.
  all: intros Hr [Hwd Hexe] Hul; try discriminate; cbn [reached]; step_cbn.
  all: conjuncts; first [solve [abs_solve Hwd] | find_in].
Qed.

Lemma basic_among (s : state W) :
  wpi (rely 0) (guar 0) (basic unicodeLower fl) (promise unicodeLower fl 0) s.
Proof.
  unfold basic, promise. destruct s as [c w t]. step_cbn. rg_go.
  all: intros Hr [Hwd Hexe] Hul; try discriminate; cbn [reached]; step_cbn.
  all: conjuncts; try find_in.
  - exact (IsAbs_rooted _).
  - apply IsAbs_ToLower; [exact Hul|]. eapply Hexe. find_in.
  - reflexivity.
Qed.


Lemma ssh_among_derived sched (s : state W) :
  wpi (rely 3) (guar 3) (ssh fl sched)
    (fun r s' => promise unicodeLower fl 3 r s' /\ result_of unicodeLower fl 3 r s') s.
Proof.
  unfold ssh, filepath_Abs, promise, result_of, errgroup.Wait, errgroup.goroutines.
  destruct s as [c w t].
  destruct (IsAbs (Flag.sshKeyPath fl)) eqn:Habs; step_cbn.
  all: rg_go.
  all: try (rg_group; rg_go).
  all: split;
    [ intros Hr [Hwd Hexe] Hul; try discriminate; cbn [reached]; step_cbn;
      conjuncts; first [solve [abs_solve Hwd] | find_in]
    | cbn [derived]; step_cbn; intros Hr; try discriminate;
      try (split; [repeat split | eexists; split; [find_in|reflexivity]]) ].
Qed.

Lemma ssh_among sched (s : state W) :
  wpi (rely 3) (guar 3) (ssh fl sched) (promise unicodeLower fl 3) s.
Proof.
  eapply wpi_mono; [| | |apply (ssh_among_derived sched)]; auto.
  by intros r s' [Hp _].
Qed.
End Among.

(** ** The entry points, one after the other *)

Lemma honestb_sound tr : honestb tr = true -> honest tr.
Proof.
  unfold honestb. rewrite forallb_forall. intros Hall. split.
  - intros wd Hin. apply (Hall _ Hin).
  - intros p q Hin. apply (Hall _ Hin).
Qed.

Section Entry.
Context {W : Type} {H : Host W}.
Variable unicodeLower : string -> string.
Variable fl : Flag.t.

#[global] Instance keeps_preorder ks : PreOrder (@keeps W ks).
Proof.
  split.
  - intros s. by split.
  - intros s1 s2 s3 [H1 ?] [H2 ?]. split; [|by etrans].
    intros k Hk. rewrite H1, H2; auto.
Qed.

Lemma guar_keeps k ks (s s' : state W) : ~ In k ks -> guar k s s' -> keeps ks s s'.
Proof.
  intros Hk [Ho Ht]. split; [|done]. intros j Hj. apply Ho. by intros ->.
Qed.

Lemma joined_None (Ql : nat -> option error -> state W -> Prop) L done s i :
  joined Ql L done s -> errgroup.firstError done = None -> In i L -> Ql i None s.
Proof.
  intros [Hperm Hall] Hfe Hi. apply firstError_None in Hfe.
  apply list_elem_of_In in Hi. rewrite <- Hperm in Hi.
  apply list_elem_of_fmap in Hi as [[j r] [-> Hin]].
  rewrite Forall_forall in Hall, Hfe.
  pose proof (Hfe _ Hin) as Hr. simpl in Hr. subst r. apply (Hall _ Hin).
Qed.

Lemma tasks_labels (g : errgroup.Group) :
  (errgroup.tasks g).*1 = seq 0 (length g).
Proof.
  unfold errgroup.tasks, errgroup.Group in *. apply list_eq. intros i.
  rewrite list_lookup_fmap, list_lookup_imap.
  destruct (g !! i) as [p|] eqn:Hi; simpl; symmetry.
  - apply lookup_seq. split; [done|]. by eapply lookup_lt_Some.
  - apply lookup_seq_ge. by apply lookup_ge_None.
Qed.

Lemma among_group (Ql : nat -> option error -> state W -> Prop)
    (shift n : nat) (ks : list nat) sched (g : errgroup.Group) (s : state W) :
  length g = n ->
  (forall i, (i < n)%nat -> ~ In (shift + i)%nat ks) ->
  (forall i p, g !! i = Some p ->
     wpi (rely (shift + i)) (guar (shift + i)) p (Ql (shift + i)%nat) s) ->
  wpi eq (keeps ks) (errgroup.goroutines sched g)
    (joined (fun i => Ql (shift + i)%nat) (seq 0 n)) s.
Proof.
  intros Hn Hks Hg.
  apply (wpi_interleave eq (keeps ks) (fun i => rely (shift + i))
           (fun i s1 s2 => guar (shift + i) s1 s2 /\ (i < n)%nat)
           (fun i => Ql (shift + i)%nat)).
  - typeclasses eauto.
  - by intros i s1 s2 ->.
  - intros i s1 s2 [Hgu Hi]. apply (guar_keeps (shift + i)); auto.
  - intros i j s1 s2 Hne [Hgu _]. apply (guar_rely (shift + i)); [lia|done].
  - rewrite app_nil_r, tasks_labels, Hn. done.
  - apply NoDup_seq.
  - rewrite app_nil_r. unfold errgroup.tasks. apply Forall_forall.
    intros [i p] Hin. apply list_elem_of_lookup in Hin as [j Hj].
    rewrite list_lookup_imap in Hj.
    unfold errgroup.Group in *.
    destruct (g !! j) as [q|] eqn:Hq; [|done]. simpl in Hj.
    injection Hj as <- <-. unfold promised. simpl.
    eapply wpi_mono; [| | |apply Hg; exact Hq]; auto.
    intros x y Hxy. split; [done|]. rewrite <- Hn. by eapply lookup_lt_Some.
Qed.

Lemma PreSetup_among sched (s : state W) :
  wpi eq (keeps [2; 3; 4; 5]%nat)
    (errgroup.goroutines sched (preSetupGroup unicodeLower fl))
    (joined (promise unicodeLower fl) [0; 1]%nat) s.
Proof.
  apply (among_group (promise unicodeLower fl) 0 2); [done| |].
  - intros i Hi. simpl. lia.
  - intros [|[|i]] p [= <-]; [apply basic_among|apply logPath_among].
Qed.

Lemma Setup_among sched sshSched (s : state W) :
  wpi eq (keeps [0; 1]%nat)
    (errgroup.goroutines sched (setupGroup fl sshSched))
    (joined (fun i => promise unicodeLower fl (2 + i)) [0; 1; 2; 3]%nat) s.
Proof.
  apply (among_group (promise unicodeLower fl) 2 4); [done| |].
  - intros i Hi. simpl. lia.
  - intros [|[|[|[|i]]]] p [= <-];
      [apply socketPath_among|apply ssh_among|apply sshPort_among|apply target_among].
Qed.
Lemma honest_prefix (tr tr' : list Event) :
  tr `prefix_of` tr' -> honest tr' -> honest tr.
Proof.
  intros Hp [Hwd Hexe]. split.
  - intros wd Hin. apply Hwd. by eapply In_prefix.
  - intros p q Hin. eapply Hexe. by eapply In_prefix.
Qed.

(** Amended C1: when [PreSetup] and then [Setup] return nil, under every
    schedule, and the working directories and resolved executable paths the
    system answered with are absolute, every path field other than
    [EventSocketPath] is absolute, [EventSocketPath] is the flag as given,
    and each of the five directories was made by a call of [os.MkdirAll]
    that returned nil during the run. *)
Theorem setup_paths_absolute sched1 sched2 sshSched (c : Context) (w : W) :
  let s1 := (run (PreSetup unicodeLower fl sched1) (start c w)).2 in
  let s2 := (run (Setup fl sched2 sshSched) s1).2 in
  (run (PreSetup unicodeLower fl sched1) (start c w)).1 = None ->
  (run (Setup fl sched2 sshSched) s1).1 = None ->
  honest (trace s2) ->
  (forall q, IsAbs q = true -> IsAbs (unicodeLower q) = true) ->
  Forall (fun p => IsAbs p = true) (pathFields (ctx s2)) /\
  EventSocketPath (ctx s2) = Flag.eventSocketPath fl /\
  Forall (fun d => In (EvE (os_MkdirAll d.1 d.2) None) (trace s2))
    (madeDirs (ctx s2)).
Proof.
  intros s1 s2 Hpre Hset Hhon Hul.
  change (PreSetup unicodeLower fl sched1)
    with (errgroup.Wait sched1 (preSetupGroup unicodeLower fl)) in *.
  change (Setup fl sched2 sshSched)
    with (errgroup.Wait sched2 (setupGroup fl sshSched)) in *.
  rewrite run_Wait in Hpre. simpl in Hpre.
  assert (Hs1 : s1 = (run (errgroup.goroutines sched1 (preSetupGroup unicodeLower fl))
                        (start c w)).2) by (subst s1; by rewrite run_Wait).
  clearbody s1. subst s1.
  destruct (wpi_run _ _ _ _ _ _ _ (PreSetup_among sched1 (start c w))) as [Hj1 _].
  set (s1 := (run (errgroup.goroutines sched1 (preSetupGroup unicodeLower fl))
                (start c w)).2) in *.
  rewrite run_Wait in Hset. simpl in Hset.
  assert (Hs2 : s2 = (run (errgroup.goroutines sched2 (setupGroup fl sshSched)) s1).2)
    by (subst s2; by rewrite run_Wait).
  clearbody s2. subst s2.
  destruct (wpi_run _ _ _ _ _ _ _ (Setup_among sched2 sshSched s1)) as [Hj2 [Hk Ht]].
  set (s2 := (run (errgroup.goroutines sched2 (setupGroup fl sshSched)) s1).2) in *.
  pose proof (honest_prefix _ _ Ht Hhon) as Hhon1.
  pose proof (joined_None _ _ _ _ 0%nat Hj1 Hpre ltac:(simpl; auto) eq_refl Hhon1 Hul)
    as (Hb1 & Hb2 & Hb3 & Hb4).
  pose proof (joined_None _ _ _ _ 1%nat Hj1 Hpre ltac:(simpl; auto) eq_refl Hhon1 Hul)
    as (Hl1 & Hl2).
  pose proof (joined_None _ _ _ _ 0%nat Hj2 Hset ltac:(simpl; auto) eq_refl Hhon Hul)
    as (Hk1 & Hk2 & Hk3 & Hk4 & Hk5 & Hk6 & Hk7 & Hk8 & Hk9).
  pose proof (joined_None _ _ _ _ 1%nat Hj2 Hset ltac:(simpl; auto) eq_refl Hhon Hul)
    as (Hh1 & Hh2 & Hh3 & Hh4).
  pose proof (joined_None _ _ _ _ 3%nat Hj2 Hset ltac:(simpl; auto) eq_refl Hhon Hul)
    as (Ht1 & Ht2 & Ht3 & Ht4 & Ht5 & Ht6 & Ht7 & Ht8).
  pose proof (Hk 0%nat ltac:(simpl; auto)) as Ho0.
  pose proof (Hk 1%nat ltac:(simpl; auto)) as Ho1.
  cbn [owned] in Ho0, Ho1.
  injection Ho0 as En Ee Ex El _ _ _ _ _ _. injection Ho1 as Elog.
  rewrite El in Hb1. rewrite Ex in Hb2. rewrite Ee in Hb3. rewrite Elog in Hl1, Hl2.
  split; [|split].
  - unfold pathFields. repeat constructor; assumption.
  - done.
  - unfold madeDirs. repeat constructor; simpl; try assumption.
    all: by eapply In_prefix.
Qed.
End Entry.


(** ** The lock file *)

Ltac found := vm_compute; repeat first [left; reflexivity | right].



(** ** The lock file *)

Lemma bytes_append s1 s2 : bytes (s1 +:+ s2) = bytes s1 ++ bytes s2.
Proof. induction s1 as [|a s1 IH]; simpl; [done|]. by rewrite <- IH. Qed.

Lemma bytes_inj s1 s2 : bytes s1 = bytes s2 -> s1 = s2.
Proof.
  intros Heq. rewrite <- (string_of_list_ascii_of_string s1).
  rewrite <- (string_of_list_ascii_of_string s2). unfold bytes in Heq. by rewrite Heq.
Qed.

Lemma bytes_of_bytes l : bytes (of_bytes l) = l.
Proof. apply list_ascii_of_string_of_list_ascii. Qed.

Lemma MD5_Sum_length data : length (MD5.Sum data) = 16%nat.
Proof. reflexivity. Qed.

Lemma Hex_Encode_length l : length (Hex.Encode l) = (2 * length l)%nat.
Proof. induction l as [|a l IH]; simpl; [done|]. rewrite IH. lia. Qed.

Lemma byteZ_range a : 0 <= byteZ a < 256.
Proof.
  unfold byteZ. pose proof (N_ascii_bounded a). lia.
Qed.

Lemma byteZ_inj a b : byteZ a = byteZ b -> a = b.
Proof.
  unfold byteZ. intros Heq. apply N2Z.inj in Heq.
  rewrite <- (ascii_N_embedding a), <- (ascii_N_embedding b). by rewrite Heq.
Qed.

Lemma Hex_digit_inj x y :
  0 <= x < 16 -> 0 <= y < 16 -> Hex.digit x = Hex.digit y -> x = y.
Proof.
  intros Hx Hy.
  assert (Ex : exists n, x = Z.of_nat n /\ (n < 16)%nat).
  { exists (Z.to_nat x). lia. }
  assert (Ey : exists n, y = Z.of_nat n /\ (n < 16)%nat).
  { exists (Z.to_nat y). lia. }
  destruct Ex as (n & -> & Hn), Ey as (m & -> & Hm).
  unfold Hex.digit. rewrite !Nat2Z.id. intros Heq. f_equal.
  do 16 (destruct n as [|n]; [do 16 (destruct m as [|m]; [done|]); lia|]). lia.
Qed.

Lemma Hex_Encode_inj l1 l2 : Hex.Encode l1 = Hex.Encode l2 -> l1 = l2.
Proof.
  revert l2. induction l1 as [|a l1 IH]; intros [|b l2]; simpl; try done.
  intros [= Hhi Hlo Hrest]. f_equal; [|by apply IH].
  pose proof (byteZ_range a). pose proof (byteZ_range b).
  apply Hex_digit_inj in Hhi; [|Z.div_mod_to_equations; lia..].
  apply Hex_digit_inj in Hlo; [|Z.div_mod_to_equations; lia..].
  apply byteZ_inj. Z.div_mod_to_equations. lia.
Qed.

(** Two lock files are equal exactly when the names are, and the MD5
    digests of the two executable paths. *)
Lemma lockFileOf_inj exe1 name1 exe2 name2 :
  lockFileOf exe1 name1 = lockFileOf exe2 name2 <->
  MD5.Sum (bytes exe1) = MD5.Sum (bytes exe2) /\ name1 = name2.
Proof.
  split; [|by intros [H1 ->]; unfold lockFileOf; rewrite H1].
  unfold lockFileOf, Hex.EncodeToString. intros Heq.
  apply (f_equal bytes) in Heq. rewrite !bytes_append, !bytes_of_bytes in Heq.
  apply app_inv_head in Heq.
  apply app_inj_1 in Heq as [Hhex Heq].
  2:{ by rewrite !Hex_Encode_length, !MD5_Sum_length. }
  split; [by apply Hex_Encode_inj|].
  apply app_inv_head in Heq. apply app_inv_tail in Heq. by apply bytes_inj.
Qed.

Section LockFile.
Context {W : Type} {H : Host W}.
Variable unicodeLower : string -> string.

(** Amended C2: when [basic] has resolved the executable path to [q], the
    lock file is [lockFileOf] of the lower-cased [q] and the name; two runs
    get the same lock file exactly when the names are equal and the
    lower-cased resolved paths have the same MD5 digest. *)
Theorem lockfile_of_executable (fl1 fl2 : Flag.t) (c1 c2 : Context) (w1 w2 : W)
    (p1 q1 p2 q2 : string)
    (H1 : In (EvS (filepath_EvalSymlinks p1) (Ok q1))
             (trace (run (basic unicodeLower fl1) (start c1 w1)).2))
    (H2 : In (EvS (filepath_EvalSymlinks p2) (Ok q2))
             (trace (run (basic unicodeLower fl2) (start c2 w2)).2)) :
  let l1 := LockFile (ctx (run (basic unicodeLower fl1) (start c1 w1)).2) in
  let l2 := LockFile (ctx (run (basic unicodeLower fl2) (start c2 w2)).2) in
  l1 = lockFileOf (ToLower unicodeLower q1) (Flag.name fl1) /\
  l2 = lockFileOf (ToLower unicodeLower q2) (Flag.name fl2) /\
  (l1 = l2 <->
   MD5.Sum (bytes (ToLower unicodeLower q1)) = MD5.Sum (bytes (ToLower unicodeLower q2)) /\
   Flag.name fl1 = Flag.name fl2).
Proof.
  intros l1 l2. subst l1 l2.
  pose proof (basic_outcome unicodeLower fl1 c1 w1) as Ho1.
  pose proof (basic_outcome unicodeLower fl2 c2 w2) as Ho2.
  destruct Ho1 as [e c Hf|e c Hf|p e c Hf|p q c Hf Hexe Hlock];
    in_trace H1.
  destruct Ho2 as [e c' Hf'|e c' Hf'|p' e c' Hf'|p' q' c' Hf' Hexe' Hlock'];
    in_trace H2.
  rewrite Hlock, Hlock'. split; [done|]. split; [done|]. apply lockFileOf_inj.
Qed.
End LockFile.

Lemma lockfile_of_executable_witness :
  LockFile (ctx (run (basic Example.lower Example.flags) (start Init Example.machine)).2) =
  LockFile (ctx (run (basic Example.lower Example.nested) (start Init Example.machine)).2).
Proof.
  apply (lockfile_of_executable Example.lower Example.flags Example.nested
           Init Init Example.machine Example.machine
           "/opt/ovm/bin/ovm" "/opt/ovm/bin/ovm" "/opt/ovm/bin/ovm" "/opt/ovm/bin/ovm").
  - found.
  - found.
  - split; reflexivity.
Defined.

(** C2 as stated fails: the program installed as /opt/OVM/bin/ovm and the
    one installed as /opt/ovm/bin/ovm are different binary paths, and
    [basic] gives both the same lock file. *)
Lemma lockfile_collision :
  let r1 := run (basic Example.lower Example.flags) (start Init Example.machine) in
  let r2 := run (basic Example.lower Example.flags) (start Init Example.capitals) in
  r1.1 = None /\ r2.1 = None /\
  In (EvS (filepath_EvalSymlinks "/opt/ovm/bin/ovm") (Ok "/opt/ovm/bin/ovm")) (trace r1.2) /\
  In (EvS (filepath_EvalSymlinks "/opt/OVM/bin/ovm") (Ok "/opt/OVM/bin/ovm")) (trace r2.2) /\
  "/opt/ovm/bin/ovm" <> "/opt/OVM/bin/ovm" /\
  LockFile (ctx r1.2) = LockFile (ctx r2.2).
Proof.
  cbv zeta. split; [by vm_compute|]. split; [by vm_compute|].
  split; [found|]. split; [found|]. split; [discriminate|]. by vm_compute.
Qed.

Lemma setup_paths_absolute_witness :
  let s1 := (run (PreSetup Example.lower Example.flags []) (start Init Example.machine)).2 in
  let s2 := (run (Setup Example.flags [] []) s1).2 in
  Forall (fun p => IsAbs p = true) (pathFields (ctx s2)) /\
  EventSocketPath (ctx s2) = Flag.eventSocketPath Example.flags /\
  Forall (fun d => In (EvE (os_MkdirAll d.1 d.2) None) (trace s2)) (madeDirs (ctx s2)).
Proof.
  refine (setup_paths_absolute Example.lower Example.flags [] [] [] Init Example.machine
            _ _ _ _).
  - by vm_compute.
  - by vm_compute.
  - apply honestb_sound. by vm_compute.
  - intros q Hq. exact Hq.
Defined.

(** C1 as stated fails: with the event socket given as event.sock and the
    log directory inside the socket directory, both entry points return
    nil, [EventSocketPath] is not absolute, and the directory [LogPath]
    names is not there: [Setup] removed it with the socket directory. *)
Lemma setup_leaves_relative_path :
  let r := Example.boot Example.nested Example.machine in
  r.1 = (None, None) /\
  EventSocketPath (ctx r.2) = "event.sock" /\
  IsAbs (EventSocketPath (ctx r.2)) = false /\
  LogPath (ctx r.2) = "/run/ovm/log" /\
  MemFS.is_dir (MemFS.files (world r.2)) (LogPath (ctx r.2)) = false.
Proof. cbv zeta. repeat split; by vm_compute. Qed.

(** ** The claims on the example machines *)

Lemma target_canonical_paths_witness :
  let c' := ctx (run (target Example.clash) (start Init Example.machine)).2 in
  targetFields Example.clash "/var/lib/ovm" c' /\
  KernelPath c' = InitrdPath c' /\ RootfsPath c' = DiskDataPath c'.
Proof.
  destruct (target_canonical_paths Example.clash Init Example.machine "/var/lib/ovm")
    as (Hf & Hki & _ & _ & _ & _ & _ & _ & _ & _ & Hrd & _); [found|].
  split; [exact Hf|]. split; [apply Hki|apply Hrd]; by vm_compute.
Defined.

Lemma target_scratch_disk_witness :
  let r := (run (target Example.flags) (start Init Example.machine)).1 in
  let s' := (run (target Example.flags) (start Init Example.machine)).2 in
  "/var/lib/ovm/tmp.img" = DiskTmpPath (ctx s') /\
  exists pre r', trace s' =
    pre ++ [EvE (os_Stat "/var/lib/ovm/tmp.img") (Some MemFS.ENOENT);
            EvE (utils_CreateSparseFile "/var/lib/ovm/tmp.img" (2 ^ 40)) r'] /\
    r = r'.
Proof.
  refine (target_scratch_disk Example.flags Init Example.machine
            "/var/lib/ovm/tmp.img" (Some MemFS.ENOENT) _).
  found.
Defined.

Lemma socketPath_success_witness :
  let s' := (run (socketPath Example.flags) (start Init Example.machine)).2 in
  exists pre p,
    absRun (Flag.socketPath Example.flags) pre (Ok p) /\
    trace s' =
      pre ++ [EvE (os_RemoveAll p) None; EvE (os_MkdirAll p (octal 7 5 5)) None] /\
    socketFields Example.flags p (ctx s') /\
    ((forall wd, In (EvS os_Getwd (Ok wd)) pre -> IsAbs wd = true) ->
     IsAbs p = true).
Proof.
  refine (socketPath_success Example.flags Init Example.machine _). by vm_compute.
Defined.

Lemma failed_step_keeps_assignments_witness :
  ((run (socketPath Example.flags) (start Init Example.broken)).1 = Some MemFS.ENOTDIR /\
   socketFields Example.flags "/run/ovm/socket"
     (ctx (run (socketPath Example.flags) (start Init Example.broken)).2)) /\
  ((run (basic Example.lower Example.flags) (start Init Example.broken)).1 =
     Some MemFS.ENOTDIR /\
   flagFields Example.flags
     (ctx (run (basic Example.lower Example.flags) (start Init Example.broken)).2)).
Proof.
  refine (failed_step_keeps_assignments Example.lower Example.flags Init Init
            Example.broken Example.broken "/run/ovm/socket"
            MemFS.ENOTDIR MemFS.ENOTDIR _ _).
  - right. found.
  - found.
Defined.

Lemma ssh_stat_decides_witness :
  let s' := (run (ssh Example.flags []) (start Init Example.machine)).2 in
  let dir := "/home/user/.ssh/ovm" in
  let priv := Join [dir; Flag.name Example.flags] in
  let pub := Join [dir; Flag.name Example.flags +:+ ".pub"] in
  SSHPrivateKeyPath (ctx s') = priv /\ SSHPublicKeyPath (ctx s') = pub /\
  exists pre r0 r1 stats post,
    trace s' = pre ++ EvE (os_MkdirAll dir (octal 7 0 0)) None :: stats ++ post /\
    stats ≡ₚ [EvE (os_Stat priv) r0; EvE (os_Stat pub) r1] /\
    ((r0 = None /\ r1 = None /\
      forallb (fun ev => negb (renews ev)) (trace s') = true) \/
     ((r0 <> None \/ r1 <> None) /\
      exists d1 d2 g rest,
        post = EvE (os_RemoveAll priv) d1 :: EvE (os_RemoveAll pub) d2 ::
               EvE (utils_GenerateSSHKey dir (Flag.name Example.flags)) g :: rest)).
Proof.
  refine (ssh_stat_decides Example.flags [] Init Example.machine "/home/user/.ssh/ovm" _).
  found.
Defined.

(** ** What the steps derive, among the others *)

Section Derived.
Context {W : Type} {H : Host W}.
Variable unicodeLower : string -> string.
Variable fl : Flag.t.

Lemma logPath_derived (s : state W) :
  wpi (rely 1) (guar 1) (logPath fl) (result_of unicodeLower fl 1) s.
Proof.
  unfold logPath, filepath_Abs, result_of. destruct s as [c w t].
  destruct (IsAbs (Flag.logPath fl)) eqn:Habs; step_cbn; rg_go.
  all: cbn [derived]; step_cbn; intros Hr; try discriminate.
  all: rewrite ?Habs.
  - by left.
  - right. eexists. split; [find_in|reflexivity].
Qed.

Lemma sshPort_derived (s : state W) :
  wpi (rely 4) (guar 4) sshPort (result_of unicodeLower fl 4) s.
Proof.
  unfold sshPort, result_of. destruct s as [c w t]. step_cbn; rg_go.
  all: cbn [derived]; step_cbn; intros Hr; try discriminate.
  eexists. split; [find_in|reflexivity].
Qed.

Lemma socketPath_derived (s : state W) :
  wpi (rely 2) (guar 2) (socketPath fl) (result_of unicodeLower fl 2) s.
Proof.
  unfold socketPath, filepath_Abs, result_of. destruct s as [c w t].
  destruct (IsAbs (Flag.socketPath fl)) eqn:Habs; step_cbn. all: rg_go.
  all: cbn [derived]; step_cbn; intros Hr; try discriminate.
  all: repeat split.
Qed.

Lemma target_derived (s : state W) :
  wpi (rely 5) (guar 5) (target fl) (result_of unicodeLower fl 5) s.
Proof.
  unfold target, filepath_Abs, result_of. destruct s as [c w t].
  destruct (IsAbs (Flag.targetPath fl)) eqn:Habs; step_cbn. all: rg_go.
  all: cbn [derived]; step_cbn; intros Hr; try discriminate.
  all: repeat split.
Qed.

Lemma basic_derived (s : state W) :
  wpi (rely 0) (guar 0) (basic unicodeLower fl) (result_of unicodeLower fl 0) s.
Proof.
  unfold basic, result_of. destruct s as [c w t]. step_cbn. rg_go.
  all: cbn [derived]; step_cbn.
  all: split; [repeat split|intros Hr; try discriminate].
  eexists _, _. split; [find_in|]. split; reflexivity.
Qed.
End Derived.

Section Compose.
Context {W : Type} {H : Host W}.
Variable unicodeLower : string -> string.
Variable fl : Flag.t.

Lemma ssh_derived sched (s : state W) :
  wpi (rely 3) (guar 3) (ssh fl sched) (result_of unicodeLower fl 3) s.
Proof.
  eapply wpi_mono; [| | |apply (ssh_among_derived unicodeLower fl sched)]; auto.
  by intros r s' [_ Hd].
Qed.

Lemma PreSetup_derived sched (s : state W) :
  wpi eq (keeps [2; 3; 4; 5]%nat)
    (errgroup.goroutines sched (preSetupGroup unicodeLower fl))
    (joined (result_of unicodeLower fl) [0; 1]%nat) s.
Proof.
  apply (among_group (result_of unicodeLower fl) 0 2); [done| |].
  - intros i Hi. simpl. lia.
  - intros [|[|i]] p [= <-]; [apply basic_derived|apply logPath_derived].
Qed.

Lemma Setup_derived sched sshSched (s : state W) :
  wpi eq (keeps [0; 1]%nat)
    (errgroup.goroutines sched (setupGroup fl sshSched))
    (joined (fun i => result_of unicodeLower fl (2 + i)) [0; 1; 2; 3]%nat) s.
Proof.
  apply (among_group (result_of unicodeLower fl) 2 4); [done| |].
  - intros i Hi. simpl. lia.
  - intros [|[|[|[|i]]]] p [= <-];
      [apply socketPath_derived|apply ssh_derived|apply sshPort_derived
      |apply target_derived].
Qed.

Lemma joined_In (Ql : nat -> option error -> state W -> Prop) L done (s : state W) i :
  joined Ql L done s -> In i L -> exists r, In (i, r) done /\ Ql i r s.
Proof.
  intros [Hperm Hall] Hi.
  apply list_elem_of_In in Hi. rewrite <- Hperm in Hi.
  apply list_elem_of_fmap in Hi as [[j r] [-> Hin]].
  rewrite Forall_forall in Hall. exists r. split; [by apply list_elem_of_In|].
  apply (Hall _ Hin).
Qed.

(** X1: a step leaves the fields of the other steps as they were, and only
    adds to the trace. *)
Theorem steps_write_own_fields sshSched (s : state W) :
  guar 0 s (run (basic unicodeLower fl) s).2 /\
  guar 1 s (run (logPath fl) s).2 /\
  guar 2 s (run (socketPath fl) s).2 /\
  guar 3 s (run (ssh fl sshSched) s).2 /\
  guar 4 s (run sshPort s).2 /\
  guar 5 s (run (target fl) s).2.
Proof.
  repeat split.
  all: match goal with
       | |- context [run (basic _ _)] =>
         apply (wpi_run _ _ _ _ _ _ _ (basic_derived unicodeLower fl s))
       | |- context [run (logPath _)] =>
         apply (wpi_run _ _ _ _ _ _ _ (logPath_derived unicodeLower fl s))
       | |- context [run (socketPath _)] =>
         apply (wpi_run _ _ _ _ _ _ _ (socketPath_derived unicodeLower fl s))
       | |- context [run (ssh _ _)] =>
         apply (wpi_run _ _ _ _ _ _ _ (ssh_derived sshSched s))
       | |- context [run sshPort] =>
         apply (wpi_run _ _ _ _ _ _ _ (sshPort_derived unicodeLower fl s))
       | |- context [run (target _)] =>
         apply (wpi_run _ _ _ _ _ _ _ (target_derived unicodeLower fl s))
       end.
Qed.

(** X2: under every schedule [PreSetup] leaves the fields of the steps of
    [Setup] as they were, and [Setup] those of the steps of [PreSetup]. *)
Theorem entry_points_keep sched sshSched (s : state W) :
  keeps [2; 3; 4; 5]%nat s (run (PreSetup unicodeLower fl sched) s).2 /\
  keeps [0; 1]%nat s (run (Setup fl sched sshSched) s).2.
Proof.
  change (PreSetup unicodeLower fl sched)
    with (errgroup.Wait sched (preSetupGroup unicodeLower fl)).
  change (Setup fl sched sshSched)
    with (errgroup.Wait sched (setupGroup fl sshSched)).
  rewrite !run_Wait. cbn [snd]. split.
  - apply (wpi_run _ _ _ _ _ _ _ (PreSetup_derived sched s)).
  - apply (wpi_run _ _ _ _ _ _ _ (Setup_derived sched sshSched s)).
Qed.

Lemma derived_keeps (k : nat) (ks : list nat) r (s s' : state W) :
  In k ks -> (k < 2)%nat -> keeps ks s s' ->
  result_of unicodeLower fl k r s -> result_of unicodeLower fl k r s'.
Proof.
  intros Hk Hlt [Ho Ht] Hd. specialize (Ho k Hk). unfold result_of in *.
  destruct k as [|[|k]]; [| |lia]; cbn [owned derived] in *.
  - injection Ho as En Ee Ex El Ec Em Eb Ei Ep Ek.
    destruct Hd as [Hf Hok]. split.
    + unfold flagFields in *. by rewrite <- En, <- Ec, <- Em, <- Ei, <- Eb, <- Ee, <- Ep, <- Ek.
    + intros Hr. destruct (Hok Hr) as (p & q & Hin & Hx & Hl).
      exists p, q. rewrite <- Ex, <- El. split; [by eapply In_prefix|done].
  - injection Ho as El. rewrite <- El. intros Hr.
    destruct (Hd Hr) as [?|(wd & Hin & ?)]; [by left|right].
    exists wd. split; [by eapply In_prefix|done].
Qed.

(** X3: whatever [PreSetup] and [Setup] return, under every schedule, the
    fields [basic] copies from the flags hold the flags when [PreSetup]
    has returned, and still do when [Setup] has. *)
Theorem flags_are_assigned sched1 sched2 sshSched (s : state W) :
  let s1 := (run (PreSetup unicodeLower fl sched1) s).2 in
  let s2 := (run (Setup fl sched2 sshSched) s1).2 in
  flagFields fl (ctx s1) /\ flagFields fl (ctx s2).
Proof.
  intros s1 s2.
  assert (H1 : flagFields fl (ctx s1)).
  { subst s1.
    change (PreSetup unicodeLower fl sched1)
      with (errgroup.Wait sched1 (preSetupGroup unicodeLower fl)).
    rewrite run_Wait. cbn [snd].
    destruct (wpi_run _ _ _ _ _ _ _ (PreSetup_derived sched1 s)) as [Hj _].
    destruct (joined_In _ _ _ _ 0%nat Hj) as (r & _ & Hd & _); [simpl; auto|done]. }
  split; [done|].
  destruct (entry_points_keep sched2 sshSched s1) as [_ [Ho _]].
  specialize (Ho 0%nat ltac:(simpl; auto)). cbn [owned] in Ho.
  injection Ho as En Ee Ex El Ec Em Eb Ei Ep Ek.
  fold s2 in En, Ee, Ec, Em, Eb, Ei, Ep, Ek.
  unfold flagFields in *. by rewrite <- En, <- Ec, <- Em, <- Ei, <- Eb, <- Ee, <- Ep, <- Ek.
Qed.

(** X4: when [PreSetup] and then [Setup] return nil, under every schedule,
    the Context holds what each step derives: the lock file of the resolved
    executable path, the log directory, the socket paths, the key paths
    and the public key read from the key file, the port that was found,
    and the paths of the target. *)
Theorem entry_points_derive sched1 sched2 sshSched (c : Context) (w : W) :
  let s1 := (run (PreSetup unicodeLower fl sched1) (start c w)).2 in
  let s2 := (run (Setup fl sched2 sshSched) s1).2 in
  (run (PreSetup unicodeLower fl sched1) (start c w)).1 = None ->
  (run (Setup fl sched2 sshSched) s1).1 = None ->
  forall k, derived unicodeLower fl k None (ctx s2) (trace s2).
Proof.
  intros s1 s2 Hpre Hset.
  change (PreSetup unicodeLower fl sched1)
    with (errgroup.Wait sched1 (preSetupGroup unicodeLower fl)) in *.
  change (Setup fl sched2 sshSched)
    with (errgroup.Wait sched2 (setupGroup fl sshSched)) in *.
  rewrite run_Wait in Hpre. simpl in Hpre.
  assert (Hs1 : s1 = (run (errgroup.goroutines sched1 (preSetupGroup unicodeLower fl))
                        (start c w)).2) by (subst s1; by rewrite run_Wait).
  clearbody s1. subst s1.
  destruct (wpi_run _ _ _ _ _ _ _ (PreSetup_derived sched1 (start c w))) as [Hj1 _].
  set (s1 := (run (errgroup.goroutines sched1 (preSetupGroup unicodeLower fl))
                (start c w)).2) in *.
  rewrite run_Wait in Hset. simpl in Hset.
  assert (Hs2 : s2 = (run (errgroup.goroutines sched2 (setupGroup fl sshSched)) s1).2)
    by (subst s2; by rewrite run_Wait).
  clearbody s2. subst s2.
  destruct (wpi_run _ _ _ _ _ _ _ (Setup_derived sched2 sshSched s1)) as [Hj2 Hk].
  set (s2 := (run (errgroup.goroutines sched2 (setupGroup fl sshSched)) s1).2) in *.
  intros [|[|[|[|[|[|k]]]]]]; [| | | | | |done].
  - apply (derived_keeps 0 [0; 1]%nat None s1 s2); [simpl; auto|lia|done|].
    apply (joined_None _ _ _ _ 0%nat Hj1 Hpre). simpl; auto.
  - apply (derived_keeps 1 [0; 1]%nat None s1 s2); [simpl; auto|lia|done|].
    apply (joined_None _ _ _ _ 1%nat Hj1 Hpre). simpl; auto.
  - apply (joined_None _ _ _ _ 0%nat Hj2 Hset). simpl; auto.
  - apply (joined_None _ _ _ _ 1%nat Hj2 Hset). simpl; auto.
  - apply (joined_None _ _ _ _ 2%nat Hj2 Hset). simpl; auto.
  - apply (joined_None _ _ _ _ 3%nat Hj2 Hset). simpl; auto.
Qed.
End Compose.

(** ** Errors of the steps *)

Section StepErrors.
Context {W : Type} {H : Host W}.
Variable unicodeLower : string -> string.
Variable fl : Flag.t.

(** X9: [target] returns the error of the call that failed, as it is, for
    every call but [os.Stat], whose failure only asks for the scratch disk;
    and every error [target] returns is the error of one of its calls. *)
Theorem target_errors (c : Context) (w : W) :
  let r := (run (target fl) (start c w)).1 in
  let tr := trace (run (target fl) (start c w)).2 in
  (forall e, In (EvS os_Getwd (Err e)) tr -> r = Some e) /\
  (forall call e, In (EvE call (Some e)) tr ->
     match call with os_Stat _ => True | _ => r = Some e end) /\
  (forall e, r = Some e ->
     In (EvS os_Getwd (Err e)) tr \/
     exists call, In (EvE call (Some e)) tr /\
                  match call with os_Stat _ => False | _ => True end).
Proof.
  intros r tr. subst r tr.
  destruct (target_outcome fl c w) as (pre & res & post & Habs & -> & Hrest).
  set (r := (run (target fl) (start c w)).1) in *. clearbody r.
  set (c' := ctx (run (target fl) (start c w)).2) in *. clearbody c'.
  destruct Hrest as [e1 c'|p e1 c' Hp|p e1 c' t Hf Ht|p e1 c' t Hf Ht
                    |p c' t Hf Ht|p e1 r c' t Hf Ht];
    inversion Habs; subst.
  all: split; [intros e Hin; in_trace Hin; done|].
  all: split; [intros call e Hin; in_trace Hin; done|].
  all: intros e Hr; simplify_eq.
  all: try (left; simpl; by auto).
  all: right; eexists; split; [simpl; eauto 10|done].
Qed.

(** X6: [logPath] returns what [os.MkdirAll] returned for [LogPath], which is
    assigned whether the directory could be made or not; without a working
    directory for a relative flag it returns that error and makes no
    directory. *)
Theorem logPath_returns_mkdir (c : Context) (w : W) :
  let r := (run (logPath fl) (start c w)).1 in
  let s' := (run (logPath fl) (start c w)).2 in
  (forall p perm r0, In (EvE (os_MkdirAll p perm) r0) (trace s') ->
     perm = octal 7 5 5 /\ LogPath (ctx s') = p /\ r = r0) /\
  (forall e, In (EvS os_Getwd (Err e)) (trace s') ->
     r = Some e /\ trace s' = [EvS os_Getwd (Err e)]) /\
  (r = None ->
     In (EvE (os_MkdirAll (LogPath (ctx s')) (octal 7 5 5)) None) (trace s')).
Proof.
  intros r s'. subst r s'.
  destruct (logPath_outcome fl c w) as (pre & res & post & Habs & -> & Hrest).
  set (r := (run (logPath fl) (start c w)).1) in *. clearbody r.
  set (c' := ctx (run (logPath fl) (start c w)).2) in *. clearbody c'.
  destruct Hrest as [e1 c'|p r c' Hp]; inversion Habs; subst.
  all: split; [intros p0 perm r0 Hin; in_trace Hin; done|].
  all: split; [intros e Hin; in_trace Hin; done|].
  all: intros Hr; simplify_eq; simpl.
  - left. congruence.
  - right. left. congruence.
Qed.

End StepErrors.

Section NoWorkingDirectory.
Context {W : Type} {H : Host W}.
Variable unicodeLower : string -> string.
Variable fl : Flag.t.

Lemma run_Abs_failure {A} (path : string) (k : result string -> Prog A)
    (c : Context) (w w' : W) (e : error) :
  IsAbs path = false -> hostS os_Getwd w = (Err e, w') ->
  run (bind (filepath_Abs path) k) (start c w) =
  run (k (Err e)) (mkState c w' [EvS os_Getwd (Err e)]).
Proof.
  intros Hrel Hwd. unfold filepath_Abs. rewrite Hrel.
  cbn [bind mbind Prog_bind callS run]. unfold stepS, start. cbn [world ctx trace].
  rewrite Hwd. reflexivity.
Qed.

(** X5: when the working directory cannot be read, each step whose flag is a
    relative path returns the error of [os.Getwd] as it is, and has neither
    assigned a field of the Context nor made another call. *)
Theorem getwd_failure (c : Context) (w w' : W) (e : error)
    (Hwd : hostS os_Getwd w = (Err e, w')) :
  let failed := (Some e, mkState c w' [EvS os_Getwd (Err e)]) in
  (IsAbs (Flag.logPath fl) = false -> run (logPath fl) (start c w) = failed) /\
  (IsAbs (Flag.socketPath fl) = false -> run (socketPath fl) (start c w) = failed) /\
  (IsAbs (Flag.sshKeyPath fl) = false ->
   forall sched, run (ssh fl sched) (start c w) = failed) /\
  (IsAbs (Flag.targetPath fl) = false -> run (target fl) (start c w) = failed).
Proof.
  intros failed. subst failed. repeat split; intros Hrel; intros.
  - unfold logPath. unfold mbind at 1, Prog_bind at 1.
    by rewrite (run_Abs_failure _ _ c w w' e Hrel Hwd).
  - unfold socketPath. unfold mbind at 1, Prog_bind at 1.
    by rewrite (run_Abs_failure _ _ c w w' e Hrel Hwd).
  - unfold ssh. unfold mbind at 1, Prog_bind at 1.
    by rewrite (run_Abs_failure _ _ c w w' e Hrel Hwd).
  - unfold target. unfold mbind at 1, Prog_bind at 1.
    by rewrite (run_Abs_failure _ _ c w w' e Hrel Hwd).
Qed.

(** X7: [sshPort] asks once for a port from 2233 on; the port it gets is
    assigned to SSHPort and to no other field, and without a port the
    Context is left as it was and the error returned as it is. *)
Theorem sshPort_assigns_port (c : Context) (w : W) :
  let r := (run sshPort (start c w)).1 in
  let s' := (run sshPort (start c w)).2 in
  exists a, hostI (utils_FindUsablePort 2233) w = (a, world s') /\
    trace s' = [EvI (utils_FindUsablePort 2233) a] /\
    match a with
    | Ok port => r = None /\ ctx s' = set_SSHPort port c
    | Err e => r = Some e /\ ctx s' = c
    end.
Proof.
  unfold sshPort. cbn [bind mbind Prog_bind callI run]. unfold stepI, start.
  cbn [world ctx trace].
  destruct (hostI (utils_FindUsablePort 2233) w) as [[port|e] w'] eqn:E;
    cbn; eauto.
Qed.

Lemma Wrapped_neq (format : string) (e : error) : Wrapped format e <> e.
Proof. induction e as [msg|format' e IH]; [done|]. intros [= -> He]. by apply IH. Qed.

(** X8: [basic] wraps the error of [os.Executable] and of
    [filepath.EvalSymlinks] in a message of its own, so that what it
    returns is not that error; whenever [basic] fails, ExecutablePath and
    LockFile are left as they were, while the flags are assigned. *)
Theorem basic_wraps_errors (c : Context) (w : W) :
  let r := (run (basic unicodeLower fl) (start c w)).1 in
  let s' := (run (basic unicodeLower fl) (start c w)).2 in
  (forall e, In (EvS os_Executable (Err e)) (trace s') ->
   r = Some (Wrapped "get executable path error: %w" e) /\ r <> Some e) /\
  (forall p e, In (EvS (filepath_EvalSymlinks p) (Err e)) (trace s') ->
   r = Some (Wrapped "eval symlink error: %w" e) /\ r <> Some e) /\
  (r <> None ->
   ExecutablePath (ctx s') = ExecutablePath c /\ LockFile (ctx s') = LockFile c /\
   flagFields fl (ctx s')).
Proof.
  cbv zeta.
  apply (solo_run 0 (basic unicodeLower fl)
           (fun r s' =>
              (forall e, In (EvS os_Executable (Err e)) (trace s') ->
               r = Some (Wrapped "get executable path error: %w" e) /\ r <> Some e) /\
              (forall p e, In (EvS (filepath_EvalSymlinks p) (Err e)) (trace s') ->
               r = Some (Wrapped "eval symlink error: %w" e) /\ r <> Some e) /\
              (r <> None ->
               ExecutablePath (ctx s') = ExecutablePath c /\
               LockFile (ctx s') = LockFile c /\ flagFields fl (ctx s')))).
  unfold basic, start. step_cbn. wp_go.
  all: split;
    [intros ? Hin; in_trace Hin;
     (split; [done|intros [= Hw]; by apply Wrapped_neq in Hw])|].
  all: split;
    [intros ? ? Hin; in_trace Hin;
     (split; [done|intros [= Hw]; by apply Wrapped_neq in Hw])|].
  all: intros Hr; try done; repeat split.
Qed.
End NoWorkingDirectory.

(** ** The files of ssh *)

Lemma count_app f l1 l2 : count f (l1 ++ l2) = (count f l1 + count f l2)%nat.
Proof. unfold count. by rewrite List.filter_app, length_app. Qed.

Lemma count_cons f ev l :
  count f (ev :: l) = ((if f ev then 1 else 0) + count f l)%nat.
Proof. unfold count. simpl. by destruct (f ev). Qed.

Lemma count_nil f : count f [] = 0%nat.
Proof. done. Qed.

Lemma count_Permutation f l1 l2 : l1 ≡ₚ l2 -> count f l1 = count f l2.
Proof.
  induction 1 as [|x l1 l2 _ IH|x y l|l1 l2 l3 _ IH1 _ IH2];
    rewrite ?count_cons; lia.
Qed.

Lemma count_absRun f path evs res :
  absRun path evs res -> (forall r, f (EvS os_Getwd r) = false) -> count f evs = 0%nat.
Proof. intros [|wd|e] Hf; rewrite ?count_cons, ?count_nil, ?Hf; done. Qed.

Ltac count_trace :=
  repeat first
    [ rewrite count_app
    | rewrite count_cons
    | rewrite count_nil
    | match goal with
      | Hp : _ ≡ₚ _ |- _ => rewrite (count_Permutation _ _ _ Hp)
      end ].

Section SshFiles.
Context {W : Type} {H : Host W}.
Variable fl : Flag.t.

(** X10: [ssh] closes the public key file once when it has opened it, and
    never otherwise; it opens it at most once, and reads it when it is
    open. *)
Theorem ssh_closes_what_it_opens sched (c : Context) (w : W) :
  let tr := trace (run (ssh fl sched) (start c w)).2 in
  count isClose tr = count isOpened tr /\
  count isRead tr = count isOpened tr /\
  (count isOpen tr <= 1)%nat.
Proof.
  intros tr. subst tr.
  destruct (ssh_outcome fl sched c w) as (pre & res & post & Habs & -> & Hrest).
  rewrite !count_app, !(count_absRun _ _ _ _ Habs) by done.
  assert (Hread : forall pub evs r c', sshRead pub evs r c' ->
            count isClose evs = count isOpened evs /\
            count isRead evs = count isOpened evs /\
            (count isOpen evs <= 1)%nat).
  { intros pub evs r c' []; count_trace; simpl; lia. }
  destruct Hrest as [e c'|p e c' Hk|p stats evs r c' Hk Hp Hr
                    |p r0 r1 stats d1 d2 e c' Hk Hp Hf
                    |p r0 r1 stats d1 d2 evs r c' Hk Hp Hf Hr];
    try destruct (Hread _ _ _ _ Hr) as (? & ? & ?);
    count_trace; simpl; lia.
Qed.

(** X11: [ssh] asks for a key pair at most once, and removes the two key
    files when it does, and only then. *)
Theorem ssh_generates_once sched (c : Context) (w : W) :
  let tr := trace (run (ssh fl sched) (start c w)).2 in
  (count isGenerate tr <= 1)%nat /\
  count isRemoveAll tr = (2 * count isGenerate tr)%nat.
Proof.
  intros tr. subst tr.
  destruct (ssh_outcome fl sched c w) as (pre & res & post & Habs & -> & Hrest).
  rewrite !count_app, !(count_absRun _ _ _ _ Habs) by done.
  assert (Hread : forall pub evs r c', sshRead pub evs r c' ->
            count isGenerate evs = 0%nat /\ count isRemoveAll evs = 0%nat).
  { intros pub evs r c' []; count_trace; simpl; lia. }
  destruct Hrest as [e c'|p e c' Hk|p stats evs r c' Hk Hp Hr
                    |p r0 r1 stats d1 d2 e c' Hk Hp Hf
                    |p r0 r1 stats d1 d2 evs r c' Hk Hp Hf Hr];
    try destruct (Hread _ _ _ _ Hr) as (? & ?);
    count_trace; simpl; lia.
Qed.
End SshFiles.

(** ** Lower case and white space *)

Lemma byteZ_Zbyte z : byteZ (Zbyte z) = z mod 256.
Proof.
  unfold byteZ, Zbyte. rewrite N_ascii_embedding.
  - rewrite Z2N.id; [done|]. apply Z.mod_pos_bound. lia.
  - apply N2Z.inj_lt. rewrite Z2N.id; [|apply Z.mod_pos_bound; lia].
    change (Z.of_N 256) with 256. apply Z.mod_pos_bound. lia.
Qed.

Lemma lowerByte_not_upper a : isUpper (lowerByte a) = false.
Proof.
  unfold lowerByte. destruct ((65 <=? byteZ a) && (byteZ a <=? 90)) eqn:E.
  - unfold isUpper. rewrite byteZ_Zbyte.
    apply andb_true_iff in E as [?%Z.leb_le ?%Z.leb_le].
    rewrite Z.mod_small by lia. apply andb_false_iff. right. apply Z.leb_gt. lia.
  - exact E.
Qed.

Lemma lowerByte_ascii a :
  (byteZ a <? RuneSelf) = true -> (byteZ (lowerByte a) <? RuneSelf) = true.
Proof.
  unfold lowerByte, RuneSelf. intros Ha.
  destruct ((65 <=? byteZ a) && (byteZ a <=? 90)) eqn:E; [|done].
  rewrite byteZ_Zbyte. apply andb_true_iff in E as [?%Z.leb_le ?%Z.leb_le].
  rewrite Z.mod_small by lia. apply Z.ltb_lt. lia.
Qed.

Lemma lowerByte_idem a : lowerByte (lowerByte a) = lowerByte a.
Proof.
  pose proof (lowerByte_not_upper a) as Hn. unfold isUpper in Hn.
  unfold lowerByte at 1. by rewrite Hn.
Qed.

Lemma of_bytes_bytes s : of_bytes (bytes s) = s.
Proof. apply string_of_list_ascii_of_string. Qed.

Section Lower.
Variable unicodeLower : string -> string.

(** [strings.ToLower] of an ASCII string has as many bytes, none of them
    an upper-case letter, and lowering it again changes nothing. *)
Lemma ToLower_ascii (s : string) (Hs : isASCII s = true) :
  let t := ToLower unicodeLower s in
  length (bytes t) = length (bytes s) /\
  forallb (fun a => negb (isUpper a)) (bytes t) = true /\
  isASCII t = true /\
  ToLower unicodeLower t = t.
Proof.
  intros t. subst t. unfold ToLower. rewrite Hs.
  assert (Ha : isASCII (of_bytes (map lowerByte (bytes s))) = true).
  { unfold isASCII in *. rewrite bytes_of_bytes, forallb_forall in *.
    intros a [b [<- Hb]]%in_map_iff. by apply lowerByte_ascii, Hs. }
  rewrite Ha, !bytes_of_bytes, length_map. split; [done|]. split; [|split; [done|]].
  - apply forallb_forall. intros a [b [<- Hb]]%in_map_iff.
    by rewrite lowerByte_not_upper.
  - f_equal. rewrite map_map. apply map_ext. intros a. apply lowerByte_idem.
Qed.
End Lower.

Lemma Hex_Encode_digits l : Forall (fun a => In a Hex.hextable) (Hex.Encode l).
Proof.
  assert (Hd : forall n, In (Hex.digit n) Hex.hextable).
  { intros n. unfold Hex.digit.
    destruct (Nat.lt_ge_cases (Z.to_nat n) (length Hex.hextable)) as [Hlt|Hge].
    - by apply nth_In.
    - rewrite nth_overflow by done. by left. }
  induction l as [|b l IH]; simpl; [constructor|].
  apply Forall_cons. split; [apply Hd|]. apply Forall_cons. split; [apply Hd|done].
Qed.

Section LockFileName.
Context {W : Type} {H : Host W}.
Variable unicodeLower : string -> string.
Variable fl : Flag.t.

(** X14: the lock file of a [basic] that returned nil lies in /tmp/ovm, the
    directory [basic] has made: its name is 32 lower-case hexadecimal
    digits, a dash, the name of the process and the suffix .pid. *)
Theorem lockfile_name (c : Context) (w : W)
    (Hok : (run (basic unicodeLower fl) (start c w)).1 = None) :
  let s' := (run (basic unicodeLower fl) (start c w)).2 in
  In (EvE (os_MkdirAll "/tmp/ovm" (octal 7 5 5)) None) (trace s') /\
  exists h,
    LockFile (ctx s') = "/tmp/ovm/" +:+ h +:+ "-" +:+ Flag.name fl +:+ ".pid" /\
    length (bytes h) = 32%nat /\
    Forall (fun a => In a Hex.hextable) (bytes h) /\
    bytes h = Hex.Encode (MD5.Sum (bytes (ExecutablePath (ctx s')))).
Proof.
  intros s'. subst s'. revert Hok.
  destruct (basic_outcome unicodeLower fl c w) as [| | |p q c' Hf Hexe Hlock];
    intros Hok; try discriminate.
  split; [simpl; auto|].
  exists (Hex.EncodeToString (MD5.Sum (bytes (ToLower unicodeLower q)))).
  split; [exact Hlock|]. unfold Hex.EncodeToString. rewrite bytes_of_bytes.
  split; [by rewrite Hex_Encode_length, MD5_Sum_length|].
  split; [apply Hex_Encode_digits|by rewrite Hexe].
Qed.
End LockFileName.

Lemma lockfile_name_witness :
  let s' := (run (basic Example.lower Example.flags) (start Init Example.machine)).2 in
  In (EvE (os_MkdirAll "/tmp/ovm" (octal 7 5 5)) None) (trace s') /\
  exists h,
    LockFile (ctx s') = "/tmp/ovm/" +:+ h +:+ "-" +:+ Flag.name Example.flags +:+ ".pid" /\
    length (bytes h) = 32%nat /\
    Forall (fun a => In a Hex.hextable) (bytes h) /\
    bytes h = Hex.Encode (MD5.Sum (bytes (ExecutablePath (ctx s')))).
Proof.
  refine (lockfile_name Example.lower Example.flags Init Example.machine _).
  by vm_compute.
Defined.

Section ExecutablePath.
Context {W : Type} {H : Host W}.
Variable unicodeLower : string -> string.
Variable fl : Flag.t.

(** X13: when the executable path [basic] has resolved is ASCII, the
    ExecutablePath it assigns has as many bytes, none of them an upper-case
    letter, so that it is the resolved path only if that had none; and the
    lock file is the one of ExecutablePath. *)
Theorem executable_path_is_lowered (c : Context) (w : W) (p q : string)
    (Hq : In (EvS (filepath_EvalSymlinks p) (Ok q))
             (trace (run (basic unicodeLower fl) (start c w)).2))
    (Hascii : isASCII q = true) :
  let c' := ctx (run (basic unicodeLower fl) (start c w)).2 in
  length (bytes (ExecutablePath c')) = length (bytes q) /\
  forallb (fun a => negb (isUpper a)) (bytes (ExecutablePath c')) = true /\
  ToLower unicodeLower (ExecutablePath c') = ExecutablePath c' /\
  (ExecutablePath c' = q <-> forallb (fun a => negb (isUpper a)) (bytes q) = true) /\
  LockFile c' = lockFileOf (ExecutablePath c') (Flag.name fl).
Proof.
  intros c'. subst c'. revert Hq.
  destruct (basic_outcome unicodeLower fl c w) as [| | |p' q' c' Hf Hexe Hlock];
    intros Hq; in_trace Hq.
  destruct (ToLower_ascii unicodeLower q Hascii) as (Hlen & Hup & _ & Hid).
  rewrite Hlock, Hexe. repeat split; try done.
  - intros <-. exact Hup.
  - intros Hno. unfold ToLower. rewrite Hascii.
    rewrite <- (of_bytes_bytes q) at 2. f_equal.
    rewrite <- (map_id (bytes q)) at 2. apply map_ext_in.
    intros a Ha. rewrite forallb_forall in Hno. specialize (Hno a Ha).
    unfold lowerByte. unfold isUpper in Hno. by destruct ((65 <=? byteZ a) && (byteZ a <=? 90)).
Qed.
End ExecutablePath.

Lemma executable_path_is_lowered_witness :
  let c' := ctx (run (basic Example.lower Example.flags) (start Init Example.capitals)).2 in
  let q := "/opt/OVM/bin/ovm" in
  length (bytes (ExecutablePath c')) = length (bytes q) /\
  forallb (fun a => negb (isUpper a)) (bytes (ExecutablePath c')) = true /\
  ToLower Example.lower (ExecutablePath c') = ExecutablePath c' /\
  (ExecutablePath c' = q <-> forallb (fun a => negb (isUpper a)) (bytes q) = true) /\
  LockFile c' = lockFileOf (ExecutablePath c') (Flag.name Example.flags).
Proof.
  refine (executable_path_is_lowered Example.lower Example.flags Init Example.capitals
            "/opt/OVM/bin/ovm" "/opt/OVM/bin/ovm" _ _).
  - found.
  - reflexivity.
Defined.

Lemma spaceWidth_one b0 b1 b2 :
  Nat.eqb (spaceWidth b0 b1 b2) 1 = (b0 =? 32) || ((9 <=? b0) && (b0 <=? 13)).
Proof.
  unfold spaceWidth.
  destruct ((b0 =? 32) || ((9 <=? b0) && (b0 <=? 13))); [done|].
  repeat match goal with
         | |- context [if ?b then _ else _] => destruct b
         end; done.
Qed.

Lemma spaceWidthRev_one z y x :
  Nat.eqb (spaceWidthRev z y x) 1 = (z =? 32) || ((9 <=? z) && (z <=? 13)).
Proof.
  unfold spaceWidthRev. rewrite spaceWidth_one.
  destruct ((z =? 32) || ((9 <=? z) && (z <=? 13))); [done|].
  repeat match goal with
         | |- context [if ?b then _ else _] => destruct b
         end; done.
Qed.

Lemma trimLeft_head l : forall a l', trimLeft l = a :: l' -> isAsciiSpace a = false.
Proof.
  remember (length l) as n eqn:Hn. revert l Hn.
  induction n as [n IH] using lt_wf_ind. intros l Hn a0 l0.
  destruct l as [|a [|b [|c l3]]]; cbn [trimLeft]; [done| | |].
  - pose proof (spaceWidth_one (byteZ a) (-1) (-1)) as H1.
    destruct (Nat.eqb (spaceWidth (byteZ a) (-1) (-1)) 1); [done|].
    intros [= <- <-]. by rewrite H1.
  - pose proof (spaceWidth_one (byteZ a) (byteZ b) (-1)) as H1.
    destruct (spaceWidth (byteZ a) (byteZ b) (-1)) as [|[|[|k]]]; simpl in H1.
    + intros [= <- <-]. by rewrite H1.
    + exact (IH 1%nat ltac:(simpl in Hn; lia) [b] eq_refl a0 l0).
    + done.
    + intros [= <- <-]. by rewrite H1.
  - pose proof (spaceWidth_one (byteZ a) (byteZ b) (byteZ c)) as H1.
    destruct (spaceWidth (byteZ a) (byteZ b) (byteZ c)) as [|[|[|[|k]]]]; simpl in H1.
    + intros [= <- <-]. by rewrite H1.
    + exact (IH (length (b :: c :: l3)) ltac:(simpl in Hn |- *; lia) (b :: c :: l3) eq_refl a0 l0).
    + exact (IH (length (c :: l3)) ltac:(simpl in Hn |- *; lia) (c :: l3) eq_refl a0 l0).
    + exact (IH (length l3) ltac:(simpl in Hn |- *; lia) l3 eq_refl a0 l0).
    + intros [= <- <-]. by rewrite H1.
Qed.

Lemma trimRightRev_head l : forall a l', trimRightRev l = a :: l' -> isAsciiSpace a = false.
Proof.
  remember (length l) as n eqn:Hn. revert l Hn.
  induction n as [n IH] using lt_wf_ind. intros l Hn a0 l0.
  destruct l as [|a [|b [|c l3]]]; cbn [trimRightRev]; [done| | |].
  - pose proof (spaceWidthRev_one (byteZ a) (-1) (-1)) as H1.
    destruct (Nat.eqb (spaceWidthRev (byteZ a) (-1) (-1)) 1); [done|].
    intros [= <- <-]. by rewrite H1.
  - pose proof (spaceWidthRev_one (byteZ a) (byteZ b) (-1)) as H1.
    destruct (spaceWidthRev (byteZ a) (byteZ b) (-1)) as [|[|[|k]]]; simpl in H1.
    + intros [= <- <-]. by rewrite H1.
    + exact (IH 1%nat ltac:(simpl in Hn; lia) [b] eq_refl a0 l0).
    + done.
    + intros [= <- <-]. by rewrite H1.
  - pose proof (spaceWidthRev_one (byteZ a) (byteZ b) (byteZ c)) as H1.
    destruct (spaceWidthRev (byteZ a) (byteZ b) (byteZ c)) as [|[|[|[|k]]]]; simpl in H1.
    + intros [= <- <-]. by rewrite H1.
    + exact (IH (length (b :: c :: l3)) ltac:(simpl in Hn |- *; lia) (b :: c :: l3) eq_refl a0 l0).
    + exact (IH (length (c :: l3)) ltac:(simpl in Hn |- *; lia) (c :: l3) eq_refl a0 l0).
    + exact (IH (length l3) ltac:(simpl in Hn |- *; lia) l3 eq_refl a0 l0).
    + intros [= <- <-]. by rewrite H1.
Qed.

Lemma trimRightRev_suffix l : exists pre, l = pre ++ trimRightRev l.
Proof.
  remember (length l) as n eqn:Hn. revert l Hn.
  induction n as [n IH] using lt_wf_ind. intros l Hn.
  destruct l as [|a [|b [|c l3]]]; cbn [trimRightRev].
  - by exists [].
  - destruct (Nat.eqb _ 1); [by exists [a]|by exists []].
  - destruct (spaceWidthRev (byteZ a) (byteZ b) (-1)) as [|[|[|k]]]; try by exists [].
    + destruct (IH 1%nat ltac:(simpl in Hn; lia) [b] eq_refl) as [pre Hpre].
      exists (a :: pre). exact (f_equal (cons a) Hpre).
    + by exists [a; b].
  - destruct (spaceWidthRev (byteZ a) (byteZ b) (byteZ c)) as [|[|[|[|k]]]]; try by exists [].
    + destruct (IH (length (b :: c :: l3)) ltac:(simpl in Hn |- *; lia) (b :: c :: l3) eq_refl) as [pre Hpre].
      exists (a :: pre). exact (f_equal (cons a) Hpre).
    + destruct (IH (length (c :: l3)) ltac:(simpl in Hn |- *; lia) (c :: l3) eq_refl) as [pre Hpre].
      exists (a :: b :: pre). exact (f_equal (fun l => a :: b :: l) Hpre).
    + destruct (IH (length l3) ltac:(simpl in Hn |- *; lia) l3 eq_refl) as [pre Hpre].
      exists (a :: b :: c :: pre). exact (f_equal (fun l => a :: b :: c :: l) Hpre).
Qed.

(** [strings.TrimSpace] leaves no ASCII white space at either end. *)
Lemma TrimSpace_ends (s : string) :
  (forall a l, bytes (TrimSpace s) = a :: l -> isAsciiSpace a = false) /\
  (forall a l, bytes (TrimSpace s) = l ++ [a] -> isAsciiSpace a = false).
Proof.
  unfold TrimSpace. rewrite bytes_of_bytes.
  set (X := trimLeft (bytes s)).
  destruct (trimRightRev_suffix (rev X)) as [pre Hpre].
  set (Y := trimRightRev (rev X)) in *.
  assert (HX : X = rev Y ++ rev pre).
  { rewrite <- rev_app_distr, <- Hpre. by rewrite rev_involutive. }
  split.
  - intros a l Hal. apply (trimLeft_head (bytes s) a (l ++ rev pre)).
    fold X. by rewrite HX, Hal.
  - intros a l Hal. apply (trimRightRev_head (rev X) a (rev l)).
    fold Y. rewrite <- (rev_involutive Y), Hal, rev_app_distr. done.
Qed.

Section PublicKey.
Context {W : Type} {H : Host W}.
Variable fl : Flag.t.

Lemma ssh_key_read sched (c : Context) (w : W) :
  (run (ssh fl sched) (start c w)).1 = None ->
  exists b, SSHPublicKey (ctx (run (ssh fl sched) (start c w)).2) = TrimSpace b.
Proof.
  destruct (ssh_outcome fl sched c w) as (pre & res & post & Habs & Hevs & Hrest).
  revert Hrest. generalize (run (ssh fl sched) (start c w)).1 as r.
  generalize (ctx (run (ssh fl sched) (start c w)).2) as c'.
  intros c' r Hrest Hr. subst r.
  inversion Hrest as [| |p stats evs r c0 Hk Hp Hrd| |p r0 r1 stats d1 d2 evs r c0 Hk Hp Hf Hrd];
    subst; inversion Hrd; subst; eauto.
Qed.

(** X12: the public key [ssh] keeps when it returns nil has no ASCII white
    space at its beginning or at its end: no trailing newline of the key
    file is kept. *)
Theorem public_key_is_trimmed sched (c : Context) (w : W)
    (Hok : (run (ssh fl sched) (start c w)).1 = None) :
  let key := bytes (SSHPublicKey (ctx (run (ssh fl sched) (start c w)).2)) in
  (forall a l, key = a :: l -> isAsciiSpace a = false) /\
  (forall a l, key = l ++ [a] -> isAsciiSpace a = false).
Proof.
  intros key. subst key. destruct (ssh_key_read sched c w Hok) as [b ->].
  apply TrimSpace_ends.
Qed.
End PublicKey.

Lemma public_key_is_trimmed_witness :
  let key := bytes (SSHPublicKey (ctx (run (ssh Example.flags []) (start Init Example.machine)).2)) in
  (forall a l, key = a :: l -> isAsciiSpace a = false) /\
  (forall a l, key = l ++ [a] -> isAsciiSpace a = false).
Proof.
  refine (public_key_is_trimmed Example.flags [] Init Example.machine _).
  by vm_compute.
Defined.

(** ** Paths that differ *)

Lemma splitSlash_slashFree s : slashFree s = true -> splitSlash s = [s].
Proof.
  induction s as [|a s IH]; [done|]. simpl.
  intros [Ha Hs]%andb_true_iff. apply negb_true_iff in Ha. rewrite Ha.
  by rewrite IH.
Qed.

(** The last element of a path takes what is appended without a
    separator. *)
Lemma splitSlash_snoc A :
  exists init lst, splitSlash A = init ++ [lst] /\
    forall s, slashFree s = true -> splitSlash (A ++ s) = init ++ [lst ++ s].
Proof.
  induction A as [|a A (init & lst & HA & Hs)].
  - exists [], []. split; [done|]. intros s Hfree. by apply splitSlash_slashFree.
  - cbn [splitSlash app]. destruct (Ascii.eqb a slash).
    + exists ([] :: init), lst. split; [by rewrite HA|].
      intros s Hfree. by rewrite Hs.
    + destruct init as [|e es].
      * exists [], (a :: lst). split; [by rewrite HA|].
        intros s Hfree. by rewrite Hs.
      * exists ((a :: e) :: es), lst. split; [by rewrite HA|].
        intros s Hfree. by rewrite Hs.
Qed.

Lemma cleanStep_name rooted out e :
  (3 <= length e)%nat -> cleanStep rooted out e = e :: out.
Proof.
  destruct e as [|a [|b [|c e]]]; simpl; try lia. intros _.
  unfold cleanStep, isDot, isDotDot.
  destruct a as [[] [] [] [] [] [] [] []]; try done;
    destruct b as [[] [] [] [] [] [] [] []]; done.
Qed.

Lemma joinSlash_cons x es :
  es <> [] -> joinSlash (x :: es) = x ++ slash :: joinSlash es.
Proof. by destruct es. Qed.

Lemma joinSlash_snoc_inj o e1 e2 :
  joinSlash (o ++ [e1]) = joinSlash (o ++ [e2]) -> e1 = e2.
Proof.
  induction o as [|x o IH]; [done|]. cbn [app].
  rewrite !joinSlash_cons by (by destruct o).
  intros Heq. apply app_inv_head in Heq. injection Heq as Heq. by apply IH.
Qed.

Lemma Clean_rooted l :
  Clean (of_bytes (slash :: l)) =
  of_bytes (slash :: joinSlash (rev (fold_left (cleanStep true)
                                       (splitSlash (slash :: l)) []))).
Proof.
  unfold Clean. change (of_bytes (slash :: l)) with (String slash (of_bytes l)).
  change (bytes (String slash (of_bytes l))) with (slash :: bytes (of_bytes l)).
  by rewrite bytes_of_bytes.
Qed.

Lemma Join_two (p x : string) :
  p <> "" -> x <> "" ->
  Join [p; x] = Clean (of_bytes (bytes p ++ slash :: bytes x)).
Proof. unfold Join. destruct p, x; done. Qed.

(** [path.Join] of an absolute directory and a name that ends in a suffix
    of three bytes or more without a separator. *)
Lemma Join_suffix (p name : string) :
  IsAbs p = true ->
  exists o lst, forall s,
    slashFree (bytes s) = true -> (3 <= length (bytes s))%nat ->
    Join [p; name +:+ s] = of_bytes (slash :: joinSlash (o ++ [lst ++ bytes s])).
Proof.
  intros [rest ->]%IsAbs_inv.
  destruct (splitSlash_snoc (slash :: bytes rest ++ slash :: bytes name))
    as (init & lst & _ & Hs).
  exists (rev (fold_left (cleanStep true) init [])), lst. intros s Hfree Hlen.
  rewrite Join_two; [|done|].
  2:{ destruct name; [|done]. destruct s; [simpl in Hlen; lia|done]. }
  rewrite bytes_append.
  change (bytes (String "/" rest) ++ slash :: bytes name ++ bytes s)
    with (slash :: (bytes rest ++ slash :: bytes name ++ bytes s)).
  rewrite Clean_rooted.
  replace (slash :: bytes rest ++ slash :: bytes name ++ bytes s)
    with ((slash :: bytes rest ++ slash :: bytes name) ++ bytes s)
    by (simpl; by rewrite <- app_assoc).
  rewrite (Hs _ Hfree), fold_left_app. cbn [fold_left].
  rewrite cleanStep_name by (rewrite length_app; lia).
  done.
Qed.

Lemma of_bytes_inj l1 l2 : of_bytes l1 = of_bytes l2 -> l1 = l2.
Proof. intros Heq. apply (f_equal bytes) in Heq. by rewrite !bytes_of_bytes in Heq. Qed.

Lemma Join_suffix_inj (p name s1 s2 : string) :
  IsAbs p = true ->
  slashFree (bytes s1) = true -> (3 <= length (bytes s1))%nat ->
  slashFree (bytes s2) = true -> (3 <= length (bytes s2))%nat ->
  Join [p; name +:+ s1] = Join [p; name +:+ s2] -> s1 = s2.
Proof.
  intros Habs Hf1 Hl1 Hf2 Hl2.
  destruct (Join_suffix p name Habs) as (o & lst & Hj).
  rewrite !Hj by done. intros Heq%of_bytes_inj.
  injection Heq as Heq. apply joinSlash_snoc_inj, app_inv_head in Heq.
  by apply bytes_inj.
Qed.

Section Sockets.
Context {W : Type} {H : Host W}.
Variable fl : Flag.t.

(** X15: when [socketPath] has come to the removal of an absolute socket
    directory, the seven socket paths it has assigned are pairwise
    different, whatever the name of the process. *)
Theorem socket_paths_differ (c : Context) (w : W) (p : string) (r0 : option error)
    (Hrm : In (EvE (os_RemoveAll p) r0) (trace (run (socketPath fl) (start c w)).2))
    (Habs : IsAbs p = true) :
  let c' := ctx (run (socketPath fl) (start c w)).2 in
  SocketPath c' = p /\
  NoDup [ForwardSocketPath c'; SocketNetworkPath c'; SocketInitrdVSockPath c';
         SocketReadyPath c'; RestfulSocketPath c'; TimeSyncSocketPath c';
         SSHAuthSocketPath c'].
Proof.
  intros c'. subst c'.
  destruct (socketPath_outcome fl c w) as (pre & res & post & Hres & Hevs & Hrest).
  rewrite Hevs in Hrm. clear Hevs.
  set (c' := ctx (run (socketPath fl) (start c w)).2) in *. clearbody c'.
  assert (Hf : socketFields fl p c').
  { apply in_app_or in Hrm as [Hin|Hin].
    - apply (absRun_events _ _ _ _ Hres) in Hin as [x Hx]. discriminate.
    - destruct Hrest as [e c'|q e c' Hf|q r c' Hf]; in_trace Hin; done. }
  destruct Hf as (Hs & H1 & H2 & H3 & H4 & H5 & H6 & H7 & _).
  split; [done|]. rewrite H1, H2, H3, H4, H5, H6, H7.
  change (NoDup ((fun s => Join [p; Flag.name fl +:+ s]) <$> socketSuffixes)).
  apply NoDup_fmap_2_strong; [|apply (bool_decide_unpack _); by vm_compute].
  intros s1 s2 Hs1 Hs2. apply Join_suffix_inj; [done|..].
  all: unfold socketSuffixes in *.
  all: repeat match goal with
              | Hin : _ ∈ _ :: _ |- _ => apply elem_of_cons in Hin as [->|Hin]
              | Hin : _ ∈ [] |- _ => by apply elem_of_nil in Hin
              end.
  all: first [by vm_compute | simpl; lia].
Qed.
End Sockets.

Lemma socket_paths_differ_witness :
  let c' := ctx (run (socketPath Example.flags) (start Init Example.machine)).2 in
  SocketPath c' = "/run/ovm/socket" /\
  NoDup [ForwardSocketPath c'; SocketNetworkPath c'; SocketInitrdVSockPath c';
         SocketReadyPath c'; RestfulSocketPath c'; TimeSyncSocketPath c';
         SSHAuthSocketPath c'].
Proof.
  refine (socket_paths_differ Example.flags Init Example.machine "/run/ovm/socket" None
            _ _).
  - found.
  - reflexivity.
Defined.

Section FixedNames.
Context {W : Type} {H : Host W}.
Variable fl : Flag.t.

(** X16: when [target] has made an absolute target directory and gone on, the
    paths of the manifest, of the data disk and of the scratch disk are
    pairwise different. *)
Theorem target_fixed_paths_differ (c : Context) (w : W) (t : targetT)
    (r0 : option error)
    (Hnew : In (EvE (newTarget t) r0) (trace (run (target fl) (start c w)).2))
    (Habs : IsAbs (tTargetPath t) = true) :
  let c' := ctx (run (target fl) (start c w)).2 in
  TargetPath c' = tTargetPath t /\
  tDiskDataPath t = DiskDataPath c' /\ tVersionsPath t = VersionsPath c' /\
  NoDup [VersionsPath c'; DiskDataPath c'; DiskTmpPath c'].
Proof.
  intros c'. subst c'.
  destruct (target_outcome fl c w) as (pre & res & post & Hres & Hevs & Hrest).
  rewrite Hevs in Hnew. clear Hevs.
  set (c' := ctx (run (target fl) (start c w)).2) in *. clearbody c'.
  assert (Hf : targetFields fl (tTargetPath t) c' /\
               tDiskDataPath t = Join [tTargetPath t; "data.img"] /\
               tVersionsPath t = Join [tTargetPath t; "versions.json"]).
  { apply in_app_or in Hnew as [Hin|Hin].
    - apply (absRun_events _ _ _ _ Hres) in Hin as [x Hx]. discriminate.
    - destruct Hrest as [e1 c'|q e1 c' Hp|q e1 c' t' Hf Ht|q e1 c' t' Hf Ht
                        |q c' t' Hf Ht|q e1 r c' t' Hf Ht];
        in_trace Hin; done. }
  destruct Hf as ((Ht & Hv & _ & _ & _ & Hd & Htmp) & Hdd & Hvv).
  split; [done|]. split; [congruence|]. split; [congruence|].
  rewrite Hv, Hd, Htmp. set (q := tTargetPath t) in *.
  change (NoDup ((fun s => Join [q; "" +:+ s]) <$> ["versions.json"; "data.img"; "tmp.img"])).
  apply NoDup_fmap_2_strong; [|apply (bool_decide_unpack _); by vm_compute].
  intros s1 s2 Hs1 Hs2. apply Join_suffix_inj; [done|..].
  all: repeat match goal with
              | Hin : _ ∈ _ :: _ |- _ => apply elem_of_cons in Hin as [->|Hin]
              | Hin : _ ∈ [] |- _ => by apply elem_of_nil in Hin
              end.
  all: first [by vm_compute | simpl; lia].
Qed.
End FixedNames.

Lemma target_fixed_paths_differ_witness :
  let c' := ctx (run (target Example.flags) (start Init Example.machine)).2 in
  let t := mkTarget "/var/lib/ovm" "/downloads/bzImage" "/downloads/initrd.gz"
             "/downloads/rootfs.erofs" "/var/lib/ovm/data.img"
             "/var/lib/ovm/versions.json" in
  TargetPath c' = tTargetPath t /\
  tDiskDataPath t = DiskDataPath c' /\ tVersionsPath t = VersionsPath c' /\
  NoDup [VersionsPath c'; DiskDataPath c'; DiskTmpPath c'].
Proof.
  refine (target_fixed_paths_differ Example.flags Init Example.machine _ None _ _).
  - found.
  - reflexivity.
Defined.

(** ** More runs on the example machines *)

Lemma getwd_failure_witness :
  let failed := (Some MemFS.ENOENT,
                 mkState Init Example.lost [EvS os_Getwd (Err MemFS.ENOENT)]) in
  run (logPath Example.relative) (start Init Example.lost) = failed /\
  run (socketPath Example.relative) (start Init Example.lost) = failed /\
  run (ssh Example.relative []) (start Init Example.lost) = failed /\
  run (target Example.relative) (start Init Example.lost) = failed.
Proof.
  destruct (getwd_failure Example.relative Init Example.lost Example.lost
              MemFS.ENOENT) as (H1 & H2 & H3 & H4); [reflexivity|].
  cbv zeta. split; [exact (H1 eq_refl)|]. split; [exact (H2 eq_refl)|].
  split; [exact (H3 eq_refl [])|exact (H4 eq_refl)].
Defined.

Lemma entry_points_derive_witness :
  let s1 := (run (PreSetup Example.lower Example.flags []) (start Init Example.machine)).2 in
  let s2 := (run (Setup Example.flags [] []) s1).2 in
  derived Example.lower Example.flags 0 None (ctx s2) (trace s2) /\
  derived Example.lower Example.flags 1 None (ctx s2) (trace s2) /\
  derived Example.lower Example.flags 2 None (ctx s2) (trace s2) /\
  derived Example.lower Example.flags 3 None (ctx s2) (trace s2) /\
  derived Example.lower Example.flags 4 None (ctx s2) (trace s2) /\
  derived Example.lower Example.flags 5 None (ctx s2) (trace s2).
Proof.
  pose proof (entry_points_derive Example.lower Example.flags [] [] [] Init
                Example.machine) as Hd.
  cbv zeta in Hd. cbv zeta.
  assert (H1 : (run (PreSetup Example.lower Example.flags []) (start Init Example.machine)).1
               = None) by (by vm_compute).
  assert (H2 : (run (Setup Example.flags [] [])
                  (run (PreSetup Example.lower Example.flags [])
                     (start Init Example.machine)).2).1 = None) by (by vm_compute).
  exact (conj (Hd H1 H2 0%nat) (conj (Hd H1 H2 1%nat) (conj (Hd H1 H2 2%nat)
           (conj (Hd H1 H2 3%nat) (conj (Hd H1 H2 4%nat) (Hd H1 H2 5%nat)))))).
Defined.
